(** * The integrated terminal service (terminalService.js)

    A shallow embedding of [TerminalInstance] and [TerminalService] from
    terminalService.js, with the part of terminalManager.js that
    [createTerminal] goes through, and the properties of the terminal
    subsystem that the specification states about them.

    JavaScript objects that are shared and mutated (the terminal instances)
    live in an object store; the service, the pending timers and the
    node-pty callbacks all refer to an instance by its address there.  The
    event loop is a list of pending tasks; the host and the operating system
    drive the system through a list of events.

    Shell discovery of terminalManager.js ([getDefaultShell],
    [detectPowerShell7], [detectWindowsShells], [getAvailableShells]) is
    embedded over the host that it probes, and so are the functions of
    main.js that drive the service: [changeAllTerminalsDirectory] and the
    handlers of the terminal:create, pty:write and pty:resize channels. *)

From stdpp Require Import gmap strings list pretty sorting.

(** ** JavaScript values *)

(** The values that cross the service's interface (arguments of
    createTerminal, snapshot contents).  Numbers are the integers: sizes and
    ids are integral, and the service never computes with fractions. *)
#[warnings="-register-all"]
Inductive JsVal :=
| JUndefined
| JNull
| JBool (b : bool)
| JNum (n : Z)
| JStr (s : string)
| JArr (items : list JsVal)
| JObj (fields : list (string * JsVal)).

(** [!!v] of JavaScript, negated: the value counts as true in a condition. *)
Definition truthy (v : JsVal) : bool :=
  match v with
  | JUndefined | JNull => false
  | JBool b => b
  | JNum n => negb (n =? 0)%Z
  | JStr s => negb (bool_decide (s = ""))
  | JArr _ | JObj _ => true
  end.

(** [a || b] *)
Definition js_or (a b : JsVal) : JsVal := if truthy a then a else b.

(** A parameter default [p = d]: used when the argument is undefined. *)
Definition js_default (a d : JsVal) : JsVal :=
  match a with JUndefined => d | _ => a end.

Record JsError := { code : option string; message : string }.

Definition TypeError : JsError :=
  {| code := None; message := "Cannot read properties" |}.

(** What a call does: it returns a value or throws. *)
Inductive Completion (A : Type) :=
| Return (a : A)
| Throw (e : JsError).
Arguments Return {A} a.
Arguments Throw {A} e.

Fixpoint assoc (k : string) (fs : list (string * JsVal)) : option JsVal :=
  match fs with
  | [] => None
  | (k', v) :: fs' => if bool_decide (k' = k) then Some v else assoc k fs'
  end.

(** [v.k]: reading a property of undefined or null throws a TypeError, a
    missing property reads as undefined.  None of the property names read
    here exists on a number, a string, a boolean or an array. *)
Definition get_prop (v : JsVal) (k : string) : Completion JsVal :=
  match v with
  | JUndefined | JNull => Throw TypeError
  | JObj fs => Return (default JUndefined (assoc k fs))
  | _ => Return JUndefined
  end.

Definition keys (v : JsVal) : list string :=
  match v with JObj fs => fs.*1 | _ => [] end.

Fixpoint index_from (i : nat) (l : list JsVal) : list (string * JsVal) :=
  match l with
  | [] => []
  | v :: l' => (pretty i, v) :: index_from (S i) l'
  end.

Fixpoint chars (s : string) : list JsVal :=
  match s with
  | EmptyString => []
  | String c s' => JStr (String c EmptyString) :: chars s'
  end.

(** The own enumerable properties that an object spread [{...v}] copies. *)
Definition own_props (v : JsVal) : list (string * JsVal) :=
  match v with
  | JObj fs => fs
  | JArr l => index_from 0 l
  | JStr s => index_from 0 (chars s)
  | _ => []
  end.

(** An object is the list of its own properties in the order in which
    JavaScript enumerates them: the keys that are array indices first, in
    ascending numeric order, then the other keys in the order of their
    creation.  An array index is a canonical decimal numeral (no sign, no
    leading zero) below 2^32 - 1. *)
Definition digit (c : Ascii.ascii) : option N :=
  let n := Ascii.N_of_ascii c in
  if (48 <=? n)%N && (n <=? 57)%N then Some (n - 48)%N else None.

Fixpoint numeral (s : string) (acc : N) : option N :=
  match s with
  | EmptyString => Some acc
  | String c s' =>
      match digit c with
      | Some d => numeral s' (10 * acc + d)%N
      | None => None
      end
  end.

Definition array_index (k : string) : option N :=
  match k with
  | EmptyString => None
  | String c s' =>
      if bool_decide (digit c = Some 0%N) then
        if bool_decide (s' = EmptyString) then Some 0%N else None
      else
        match numeral k 0 with
        | Some n => if (n <? 4294967295)%N then Some n else None
        | None => None
        end
  end.

(** Whether the new key [k] is enumerated before the existing key [k']. *)
Definition precedes (k k' : string) : bool :=
  match array_index k, array_index k' with
  | Some n, Some n' => (n <? n')%N
  | Some _, None => true
  | None, _ => false
  end.

Fixpoint replace_prop (k : string) (v : JsVal) (fs : list (string * JsVal))
  : list (string * JsVal) :=
  match fs with
  | [] => []
  | (k', v') :: fs' =>
      if bool_decide (k' = k) then (k, v) :: fs' else (k', v') :: replace_prop k v fs'
  end.

Fixpoint insert_prop (k : string) (v : JsVal) (fs : list (string * JsVal))
  : list (string * JsVal) :=
  match fs with
  | [] => [(k, v)]
  | (k', v') :: fs' =>
      if precedes k k' then (k, v) :: (k', v') :: fs'
      else (k', v') :: insert_prop k v fs'
  end.

(** Defining the property [k] of an object: a key that exists keeps its
    place, a new key takes the place that the enumeration order gives it. *)
Definition set_prop (k : string) (v : JsVal) (fs : list (string * JsVal))
  : list (string * JsVal) :=
  match assoc k fs with
  | Some _ => replace_prop k v fs
  | None => insert_prop k v fs
  end.

(** [{...a, ...b}] for an object [a]: the properties of [b] are assigned in
    order, a key that exists keeps its place. *)
Definition spread (a : list (string * JsVal)) (b : JsVal) : list (string * JsVal) :=
  fold_left (fun acc kv => set_prop kv.1 kv.2 acc) (own_props b) a.

(** The enumeration order of the keys of an object: a key that is an array
    index comes before every key that is not, and array indices are in
    numeric order. *)
Definition key_order (k k' : string) : Prop :=
  match array_index k, array_index k' with
  | Some n, Some n' => (n ≤ n')%N
  | Some _, None => True
  | None, Some _ => False
  | None, None => True
  end.

Definition js_ordered (fs : list (string * JsVal)) : Prop :=
  StronglySorted key_order fs.*1.

(** [s.includes(sub)] *)
Fixpoint includes (sub s : string) : bool :=
  String.prefix sub s ||
  match s with
  | EmptyString => false
  | String _ s' => includes sub s'
  end.

(** ** Shell profiles (terminalManager.js) *)

Record ShellProfile := {
  name : string;
  displayName : string;
  shell : string;
  args : list string
}.

(** What getDefaultShell returns: [{ shell, args }]. *)
Record ShellConfig := { cfg_shell : string; cfg_args : list string }.

Definition config_of (p : ShellProfile) : ShellConfig :=
  {| cfg_shell := shell p; cfg_args := args p |}.

(** ** The pseudo-terminal process handle (node-pty's IPty) *)

Inductive Signal := SIGTERM | SIGKILL.

#[global] Instance Signal_eq_dec : EqDecision Signal.
Proof. solve_decision. Defined.

(** The handle as the terminal instance sees it: which listeners are
    attached, what was written and which size was applied, every signal
    passed to kill() (oldest first), whether the operating system has
    reported the exit of the process, and how many calls of write, resize
    and kill were made on it (what such a call does may differ from one call
    to the next). *)
Record Pty := {
  calls : nat;
  exited : bool;
  killLog : list Signal;
  written : list string;
  size : JsVal * JsVal;
  dataListener : bool;
  exitListener : bool;
  errorListener : bool
}.

(** [v.k] where [v] is known to be an object. *)
Definition prop (v : JsVal) (k : string) : JsVal :=
  match v with JObj fs => default JUndefined (assoc k fs) | _ => JUndefined end.

(** The handle that node-pty's spawn returns for the options object [o]. *)
Definition spawned (o : JsVal) : Pty :=
  {| calls := 0; exited := false; killLog := []; written := [];
     size := (prop o "cols", prop o "rows");
     dataListener := false; exitListener := false; errorListener := false |}.

Definition pty_exited (p : Pty) : Pty :=
  {| calls := calls p; exited := true; killLog := killLog p;
     written := written p; size := size p;
     dataListener := dataListener p; exitListener := exitListener p;
     errorListener := errorListener p |}.

Definition pty_killed (sig : Signal) (p : Pty) : Pty :=
  {| calls := S (calls p); exited := exited p; killLog := killLog p ++ [sig];
     written := written p; size := size p; dataListener := dataListener p;
     exitListener := exitListener p; errorListener := errorListener p |}.

Definition pty_wrote (d : string) (p : Pty) : Pty :=
  {| calls := S (calls p); exited := exited p; killLog := killLog p;
     written := written p ++ [d];
     size := size p; dataListener := dataListener p;
     exitListener := exitListener p; errorListener := errorListener p |}.

Definition pty_resized (c r : JsVal) (p : Pty) : Pty :=
  {| calls := S (calls p); exited := exited p; killLog := killLog p;
     written := written p; size := (c, r); dataListener := dataListener p;
     exitListener := exitListener p; errorListener := errorListener p |}.

(** A call that threw: nothing but the count of calls changes. *)
Definition pty_failed (p : Pty) : Pty :=
  {| calls := S (calls p); exited := exited p; killLog := killLog p;
     written := written p; size := size p; dataListener := dataListener p;
     exitListener := exitListener p; errorListener := errorListener p |}.

Definition pty_listeners (d e r : bool) (p : Pty) : Pty :=
  {| calls := calls p; exited := exited p; killLog := killLog p;
     written := written p; size := size p; dataListener := d;
     exitListener := e; errorListener := r |}.

(** ** TerminalInstance: the object *)

(** The listeners returned by [_pty.onData] and [_pty.onExit], and the object
    that removes the handler registered with [_pty.on('error', ...)]. *)
Inductive Disposable := onDataListener | onExitListener | errorDisposable.

(** The three closures that createTerminal builds are determined by the
    [terminalId] they capture; a listener list holds the captured ids of the
    closures registered for that event, in registration order. *)
Record Listeners := {
  on_data : list Z;
  on_exit : list Z;
  on_error : list Z
}.

(** [_handlers = { data: dataHandler, exit: exitHandler, error: errorHandler }] *)
Record Handlers := {
  h_data : Z;
  h_exit : Z;
  h_error : Z
}.

Record TerminalInstance := {
  _id : Z;
  _pty : option Pty;
  _shellProfile : option ShellProfile;
  _cwd : JsVal;
  _cols : JsVal;
  _rows : JsVal;
  _isDisposed : bool;
  _disposables : list Disposable;
  _handlers : option Handlers;
  listeners : Listeners
}.

Definition set_pty (p : option Pty) (t : TerminalInstance) : TerminalInstance :=
  {| _id := _id t; _pty := p; _shellProfile := _shellProfile t; _cwd := _cwd t;
     _cols := _cols t; _rows := _rows t; _isDisposed := _isDisposed t;
     _disposables := _disposables t; _handlers := _handlers t;
     listeners := listeners t |}.

Definition set_dimensions (c r : JsVal) (t : TerminalInstance) : TerminalInstance :=
  {| _id := _id t; _pty := _pty t; _shellProfile := _shellProfile t; _cwd := _cwd t;
     _cols := c; _rows := r; _isDisposed := _isDisposed t;
     _disposables := _disposables t; _handlers := _handlers t;
     listeners := listeners t |}.

Definition set_isDisposed (b : bool) (t : TerminalInstance) : TerminalInstance :=
  {| _id := _id t; _pty := _pty t; _shellProfile := _shellProfile t; _cwd := _cwd t;
     _cols := _cols t; _rows := _rows t; _isDisposed := b;
     _disposables := _disposables t; _handlers := _handlers t;
     listeners := listeners t |}.

Definition set_disposables (ds : list Disposable) (t : TerminalInstance)
  : TerminalInstance :=
  {| _id := _id t; _pty := _pty t; _shellProfile := _shellProfile t; _cwd := _cwd t;
     _cols := _cols t; _rows := _rows t; _isDisposed := _isDisposed t;
     _disposables := ds; _handlers := _handlers t; listeners := listeners t |}.

Definition set_handlers (h : option Handlers) (t : TerminalInstance)
  : TerminalInstance :=
  {| _id := _id t; _pty := _pty t; _shellProfile := _shellProfile t; _cwd := _cwd t;
     _cols := _cols t; _rows := _rows t; _isDisposed := _isDisposed t;
     _disposables := _disposables t; _handlers := h; listeners := listeners t |}.

Definition set_listeners (l : Listeners) (t : TerminalInstance) : TerminalInstance :=
  {| _id := _id t; _pty := _pty t; _shellProfile := _shellProfile t; _cwd := _cwd t;
     _cols := _cols t; _rows := _rows t; _isDisposed := _isDisposed t;
     _disposables := _disposables t; _handlers := _handlers t; listeners := l |}.

Definition no_listeners : Listeners :=
  {| on_data := []; on_exit := []; on_error := [] |}.

(** EventEmitter's removeListener: the most recently added occurrence goes. *)
Fixpoint remove_first (h : Z) (l : list Z) : list Z :=
  match l with
  | [] => []
  | x :: l' => if bool_decide (x = h) then l' else x :: remove_first h l'
  end.

Definition removeListener (h : Z) (l : list Z) : list Z :=
  reverse (remove_first h (reverse l)).

(** [get shellName()] *)
Definition shellName (t : TerminalInstance) : string :=
  match _shellProfile t with
  | Some p => displayName p
  | None => "Shell"
  end.

(** [get dimensions()] *)
Definition dimensions (t : TerminalInstance) : JsVal * JsVal := (_cols t, _rows t).

(** [getState()] of an instance *)
Definition getState (t : TerminalInstance) : JsVal :=
  JObj [("id", JNum (_id t));
        ("shellProfile",
          js_or (match _shellProfile t with
                 | Some p => JStr (name p)
                 | None => JUndefined
                 end) JNull);
        ("cwd", _cwd t);
        ("cols", _cols t);
        ("rows", _rows t)].

(** [_setupPtyListeners()], run by the constructor: with a process handle,
    the three listeners are attached to it and their disposables kept
    (node-pty's onData and onExit return disposables, and its handle has
    [on]). *)
Definition _setupPtyListeners (t : TerminalInstance) : TerminalInstance :=
  match _pty t with
  | None => t
  | Some p =>
      set_disposables [onDataListener; onExitListener; errorDisposable]
        (set_pty (Some (pty_listeners true true true p)) t)
  end.

(** [new TerminalInstance(id, ptyProcess, shellProfile, cwd)] *)
Definition new_TerminalInstance (id : Z) (ptyProcess : option Pty)
    (shellProfile : option ShellProfile) (cwd : JsVal) : TerminalInstance :=
  _setupPtyListeners
    {| _id := id; _pty := ptyProcess; _shellProfile := shellProfile; _cwd := cwd;
       _cols := JNum 80; _rows := JNum 30; _isDisposed := false;
       _disposables := []; _handlers := None; listeners := no_listeners |}.

(** [disposable.dispose()] for the three disposables of an instance.  The
    process handle they detach from is never cleared once set. *)
Definition dispose_listener (d : Disposable) (t : TerminalInstance)
  : TerminalInstance :=
  match _pty t with
  | None => t
  | Some p =>
      match d with
      | onDataListener =>
          set_pty (Some (pty_listeners false (exitListener p) (errorListener p) p)) t
      | onExitListener =>
          set_pty (Some (pty_listeners (dataListener p) false (errorListener p) p)) t
      | errorDisposable =>
          set_pty (Some (pty_listeners (dataListener p) (exitListener p) false p)) t
      end
  end.

(** ** The world: service state, object store, event loop, observations *)

(** Callbacks waiting in the event loop: the 500ms escalation timer armed by
    dispose, the setImmediate of the exit listener (dispose), and the
    setImmediate of a failed write or resize (dispose unless disposed). *)
Inductive Task :=
| killTimeout (this : Z)
| immediateDispose (this : Z)
| immediateDisposeUnlessDisposed (this : Z).

(** What the service emits to the host. *)
Inductive ServiceEvent :=
| terminal_data (terminalId : Z) (data : string)
| terminal_exit (terminalId : Z) (exitCode signal : JsVal)
| terminal_error (terminalId : Z) (error : JsError)
| terminal_created (terminalId : Z) (shellName : string) (cwd : JsVal)
| terminal_closed (terminalId : Z)
| config_changed (config : list (string * JsVal)).

(** The lines written to the console. *)
Inductive ConsoleLine :=
| log_process_exited (id : Z) (exitCode signal : JsVal)
| error_pty (id : Z) (msg : string)
| error_writing (id : Z) (msg : string)
| error_resizing (id : Z) (msg : string)
| error_force_killing (id : Z) (msg : string)
| error_sending_sigterm (id : Z) (msg : string)
| error_sending_sigkill (id : Z) (msg : string)
| error_failed_to_create (e : JsError)
| log_closing (id : Z)
| log_disposed_successfully (id : Z)
| log_closed_and_removed (id : Z)
| warn_not_found_for_closing (id : Z)
| error_failed_to_restore (e : JsError)
| warn_profile_not_found (profile : JsVal).

(** [store] holds every TerminalInstance object, at the address that is its
    id (createTerminal allocates one instance per id).  [_terminals] is the
    service's Map by its keys in insertion order: the value bound to a key is
    the instance at that address.  Ids are integers: the counter starts at 1
    and moves by one, and a JavaScript number is exact far beyond any count
    of terminals a service creates.  [spawnCount] counts the calls of
    node-pty's spawn. *)
Record World := {
  store : gmap Z TerminalInstance;
  _terminals : list Z;
  _nextTerminalId : Z;
  _config : list (string * JsVal);
  tasks : list Task;
  emitted : list ServiceEvent;
  console : list ConsoleLine;
  spawnCount : nat
}.

Definition set_store (s : gmap Z TerminalInstance) (w : World) : World :=
  {| store := s; _terminals := _terminals w; _nextTerminalId := _nextTerminalId w;
     _config := _config w; tasks := tasks w; emitted := emitted w;
     console := console w; spawnCount := spawnCount w |}.

Definition set_terminals (l : list Z) (w : World) : World :=
  {| store := store w; _terminals := l; _nextTerminalId := _nextTerminalId w;
     _config := _config w; tasks := tasks w; emitted := emitted w;
     console := console w; spawnCount := spawnCount w |}.

Definition set_nextTerminalId (n : Z) (w : World) : World :=
  {| store := store w; _terminals := _terminals w; _nextTerminalId := n;
     _config := _config w; tasks := tasks w; emitted := emitted w;
     console := console w; spawnCount := spawnCount w |}.

Definition set_config (c : list (string * JsVal)) (w : World) : World :=
  {| store := store w; _terminals := _terminals w;
     _nextTerminalId := _nextTerminalId w; _config := c; tasks := tasks w;
     emitted := emitted w; console := console w; spawnCount := spawnCount w |}.

Definition set_tasks (q : list Task) (w : World) : World :=
  {| store := store w; _terminals := _terminals w;
     _nextTerminalId := _nextTerminalId w; _config := _config w; tasks := q;
     emitted := emitted w; console := console w; spawnCount := spawnCount w |}.

(** [this.emit(...)] of the service *)
Definition emit (ev : ServiceEvent) (w : World) : World :=
  {| store := store w; _terminals := _terminals w;
     _nextTerminalId := _nextTerminalId w; _config := _config w; tasks := tasks w;
     emitted := emitted w ++ [ev]; console := console w;
     spawnCount := spawnCount w |}.

(** [console.log], [console.warn], [console.error] *)
Definition log (l : ConsoleLine) (w : World) : World :=
  {| store := store w; _terminals := _terminals w;
     _nextTerminalId := _nextTerminalId w; _config := _config w; tasks := tasks w;
     emitted := emitted w; console := console w ++ [l];
     spawnCount := spawnCount w |}.

Definition count_spawn (w : World) : World :=
  {| store := store w; _terminals := _terminals w;
     _nextTerminalId := _nextTerminalId w; _config := _config w; tasks := tasks w;
     emitted := emitted w; console := console w;
     spawnCount := S (spawnCount w) |}.

(** [setTimeout] and [setImmediate] *)
Definition schedule (t : Task) (w : World) : World := set_tasks (tasks w ++ [t]) w.

Definition put (this : Z) (t : TerminalInstance) (w : World) : World :=
  set_store (<[this := t]> (store w)) w.

(** Map operations of [_terminals] *)
Definition has (terminalId : Z) (w : World) : bool :=
  bool_decide (terminalId ∈ _terminals w).

Definition map_set (terminalId : Z) (l : list Z) : list Z :=
  if bool_decide (terminalId ∈ l) then l else l ++ [terminalId].

Definition map_delete (terminalId : Z) (l : list Z) : list Z :=
  filter (λ k, k ≠ terminalId) l.

(** The forwarding closures of createTerminal *)
Definition dataHandler (terminalId : Z) (data : string) (w : World) : World :=
  if has terminalId w then emit (terminal_data terminalId data) w else w.

Definition exitHandler (terminalId : Z) (exitCode signal : JsVal) (w : World)
  : World :=
  let w := if has terminalId w
           then emit (terminal_exit terminalId exitCode signal) w else w in
  set_terminals (map_delete terminalId (_terminals w)) w.

Definition errorHandler (terminalId : Z) (error : JsError) (w : World) : World :=
  if has terminalId w then emit (terminal_error terminalId error) w else w.

(** [this.emit('data', data)] of an instance: its listeners run in order. *)
Definition emit_data (this : Z) (data : string) (w : World) : World :=
  match store w !! this with
  | None => w
  | Some t => fold_left (λ w h, dataHandler h data w) (on_data (listeners t)) w
  end.

(** [this.emit('exit', { exitCode, signal })] of an instance *)
Definition emit_exit (this : Z) (exitCode signal : JsVal) (w : World) : World :=
  match store w !! this with
  | None => w
  | Some t =>
      fold_left (λ w h, exitHandler h exitCode signal w) (on_exit (listeners t)) w
  end.

(** [this.emit('error', error)] of an instance: an EventEmitter with no
    listener for 'error' throws the error. *)
Definition emit_error (this : Z) (error : JsError) (w : World)
  : World * Completion unit :=
  match store w !! this with
  | None => (w, Return ())
  | Some t =>
      match on_error (listeners t) with
      | [] => (w, Throw error)
      | hs => (fold_left (λ w h, errorHandler h error w) hs w, Return ())
      end
  end.

(** The default configuration, [_loadConfig()] *)
Definition dquote : string :=
  String (Ascii.Ascii false true false false false true false false) EmptyString.

Definition _loadConfig : list (string * JsVal) :=
  [("defaultProfile", JNull);
   ("fontFamily",
     JStr ("Consolas, " +:+ dquote +:+ "Courier New" +:+ dquote +:+ ", monospace"));
   ("fontSize", JNum 14);
   ("cursorBlink", JBool true);
   ("scrollback", JNum 1000);
   ("theme", JObj [("background", JStr "#1e1e1e"); ("foreground", JStr "#d4d4d4")])].

(** [new TerminalService()] *)
Definition new_TerminalService : World :=
  {| store := ∅; _terminals := []; _nextTerminalId := 1; _config := _loadConfig;
     tasks := []; emitted := []; console := []; spawnCount := 0 |}.

Section Terminal.

(** ** The environment *)

(** What shell discovery finds on the host (getAvailableShells and
    getDefaultShell of terminalManager.js probe the platform and the file
    system), the working directory and home directory of the host process
    and its environment. *)
Variable availableShells : list ShellProfile.
Variable defaultShell : ShellConfig.
Variable process_cwd : string.
Variable os_homedir : string.
Variable process_env : JsVal.

(** node-pty.  [pty_spawn n shell args options] is what the [n]-th call of
    spawn does: [None] when the process starts, [Some e] when it throws [e].
    [pty_write], [pty_resize] and [pty_kill] say whether the call on the
    handle in the given state throws. *)
Variable pty_spawn : nat → string → list string → JsVal → option JsError.
Variable pty_write : Pty → string → option JsError.
Variable pty_resize : Pty → JsVal → JsVal → option JsError.
Variable pty_kill : Pty → Signal → option JsError.

(** ** TerminalInstance: the methods *)

(** [error.code === 'ERR_STREAM_DESTROYED' || error.message.includes('EPIPE')] *)
Definition broken_channel (error : JsError) : bool :=
  bool_decide (code error = Some "ERR_STREAM_DESTROYED")
  || includes "EPIPE" (message error).

(** [this._pty.kill(sig)] inside a try: the handle after the call and the
    error it threw, if any. *)
Definition kill (p : Pty) (sig : Signal) : Pty * option JsError :=
  (pty_killed sig p, pty_kill p sig).

(** [dispose()] *)
Definition dispose (this : Z) (w : World) : World :=
  match store w !! this with
  | None => w
  | Some t =>
      if _isDisposed t then w
      else
        let t := set_isDisposed true t in
        (* Step 1: remove the externally attached handlers *)
        let t :=
          match _handlers t with
          | Some h =>
              let l := listeners t in
              set_handlers None
                (set_listeners
                   {| on_data := removeListener (h_data h) (on_data l);
                      on_exit := removeListener (h_exit h) (on_exit l);
                      on_error := removeListener (h_error h) (on_error l) |} t)
          | None => t
          end in
        (* Step 2: arm the escalation timer, send SIGTERM; SIGKILL at once
           when sending SIGTERM throws *)
        let '(t, w) :=
          match _pty t with
          | Some p =>
              let w := schedule (killTimeout this) w in
              match kill p SIGTERM with
              | (p, None) => (set_pty (Some p) t, w)
              | (p, Some termError) =>
                  let w := log (error_sending_sigterm this (message termError)) w in
                  match kill p SIGKILL with
                  | (p, None) => (set_pty (Some p) t, w)
                  | (p, Some killError) =>
                      (set_pty (Some p) t,
                       log (error_sending_sigkill this (message killError)) w)
                  end
              end
          | None => (t, w)
          end in
        (* Step 3: dispose the PTY event listeners *)
        let t := fold_left (λ t d, dispose_listener d t) (_disposables t) t in
        let t := set_disposables [] t in
        (* Step 4: removeAllListeners on the process handle *)
        let t :=
          match _pty t with
          | Some p =>
              set_pty (Some (pty_listeners (dataListener p) (exitListener p) false p)) t
          | None => t
          end in
        (* Step 5: removeAllListeners on the instance *)
        let t := set_listeners no_listeners t in
        put this t w
  end.

(** The callback of the escalation timer *)
Definition run_killTimeout (this : Z) (w : World) : World :=
  match store w !! this with
  | None => w
  | Some t =>
      match _pty t with
      | Some p =>
          match kill p SIGKILL with
          | (p, None) => put this (set_pty (Some p) t) w
          | (p, Some forcekillError) =>
              log (error_force_killing this (message forcekillError))
                (put this (set_pty (Some p) t) w)
          end
      | None => log (error_force_killing this (message TypeError)) w
      end
  end.

(** The setImmediate callback of a failed write or resize *)
Definition run_immediateDisposeUnlessDisposed (this : Z) (w : World) : World :=
  match store w !! this with
  | None => w
  | Some t => if _isDisposed t then w else dispose this w
  end.

Definition run_task (k : Task) (w : World) : World :=
  match k with
  | killTimeout this => run_killTimeout this w
  | immediateDispose this => dispose this w
  | immediateDisposeUnlessDisposed this => run_immediateDisposeUnlessDisposed this w
  end.

(** [write(data)] *)
Definition write (this : Z) (data : string) (w : World) : World * Completion unit :=
  match store w !! this with
  | None => (w, Return ())
  | Some t =>
      match _isDisposed t, _pty t with
      | false, Some p =>
          match pty_write p data with
          | None => (put this (set_pty (Some (pty_wrote data p)) t) w, Return ())
          | Some error =>
              let w := put this (set_pty (Some (pty_failed p)) t) w in
              let w := log (error_writing this (message error)) w in
              let w := if broken_channel error
                       then schedule (immediateDisposeUnlessDisposed this) w
                       else w in
              emit_error this error w
          end
      | _, _ => (w, Return ())
      end
  end.

(** [resize(cols, rows)] *)
Definition resize (this : Z) (cols rows : JsVal) (w : World)
  : World * Completion unit :=
  match store w !! this with
  | None => (w, Return ())
  | Some t =>
      match _isDisposed t, _pty t with
      | false, Some p =>
          let t := set_dimensions cols rows t in
          match pty_resize p cols rows with
          | None => (put this (set_pty (Some (pty_resized cols rows p)) t) w, Return ())
          | Some error =>
              let w := put this (set_pty (Some (pty_failed p)) t) w in
              let w := log (error_resizing this (message error)) w in
              let w := if broken_channel error
                       then schedule (immediateDisposeUnlessDisposed this) w
                       else w in
              emit_error this error w
          end
      | _, _ => (w, Return ())
      end
  end.

(** The callbacks that [_setupPtyListeners] registers on the process handle *)
Definition onDataListener_cb (this : Z) (data : string) (w : World) : World :=
  match store w !! this with
  | Some t => if _isDisposed t then w else emit_data this data w
  | None => w
  end.

Definition onExitListener_cb (this : Z) (exitCode signal : JsVal) (w : World)
  : World :=
  match store w !! this with
  | Some t =>
      if _isDisposed t then w
      else
        let w := log (log_process_exited this exitCode signal) w in
        let w := emit_exit this exitCode signal w in
        schedule (immediateDispose this) w
  | None => w
  end.

Definition errorHandler_cb (this : Z) (error : JsError) (w : World) : World :=
  match store w !! this with
  | Some t =>
      if _isDisposed t then w
      else (emit_error this error (log (error_pty this (message error)) w)).1
  | None => w
  end.

(** What the process does, as node-pty reports it: output, exit, an error.
    A callback runs when its listener is attached to the handle. *)
Definition pty_emits_data (this : Z) (data : string) (w : World) : World :=
  match store w !! this with
  | Some t =>
      match _pty t with
      | Some p => if dataListener p then onDataListener_cb this data w else w
      | None => w
      end
  | None => w
  end.

Definition pty_emits_exit (this : Z) (exitCode signal : JsVal) (w : World) : World :=
  match store w !! this with
  | Some t =>
      match _pty t with
      | Some p =>
          let w := put this (set_pty (Some (pty_exited p)) t) w in
          if exitListener p then onExitListener_cb this exitCode signal w else w
      | None => w
      end
  | None => w
  end.

Definition pty_emits_error (this : Z) (error : JsError) (w : World) : World :=
  match store w !! this with
  | Some t =>
      match _pty t with
      | Some p => if errorListener p then errorHandler_cb this error w else w
      | None => w
      end
  | None => w
  end.

(** ** terminalManager.js: profiles and spawning *)

(** [s.name === v] *)
Definition name_is (v : JsVal) (s : ShellProfile) : bool :=
  match v with
  | JStr n => bool_decide (name s = n)
  | _ => false
  end.

(** [getShellByProfile(profileName)]: the profile, or null *)
Definition getShellByProfile (profileName : JsVal) : option ShellProfile :=
  List.find (name_is profileName) availableShells.

(** [getDefaultShellProfile()] *)
Definition getDefaultShellProfile : ShellProfile :=
  match List.find (λ s, bool_decide (shell s = cfg_shell defaultShell))
          availableShells with
  | Some matchingProfile => matchingProfile
  | None =>
      match List.find (name_is (JStr "cmd")) availableShells with
      | Some s => s
      | None =>
          match availableShells with
          | s :: _ => s
          | [] => {| name := "shell"; displayName := "Shell";
                     shell := cfg_shell defaultShell;
                     args := cfg_args defaultShell |}
          end
      end
  end.

(** [spawnShell(shellProfile, cwd, options)]; [options] is the object that
    createTerminal builds. *)
Definition spawnShell (shellProfile cwd options : JsVal) (w : World)
  : World * Completion Pty :=
  let '(shellConfig, w) :=
    if truthy shellProfile then
      match List.find (name_is shellProfile) availableShells with
      | Some selectedShell => (config_of selectedShell, w)
      | None => (defaultShell, log (warn_profile_not_found shellProfile) w)
      end
    else (defaultShell, w) in
  let workingDirectory := js_or cwd (JStr os_homedir) in
  let ptyOptions :=
    JObj (spread [("name", JStr "xterm-color");
                  ("cols", js_or (prop options "cols") (JNum 80));
                  ("rows", js_or (prop options "rows") (JNum 30));
                  ("cwd", workingDirectory);
                  ("env", js_or (prop options "env") process_env)]
                 options) in
  let n := spawnCount w in
  let w := count_spawn w in
  match pty_spawn n (cfg_shell shellConfig) (cfg_args shellConfig) ptyOptions with
  | None => (w, Return (spawned ptyOptions))
  | Some e => (w, Throw e)
  end.

(** The call of node-pty's spawn that [spawnShell(shellProfile, cwd, options)]
    makes: the shell, its arguments and the options object. *)
Definition spawn_call (shellProfile cwd options : JsVal)
  : string * list string * JsVal :=
  let shellConfig :=
    if truthy shellProfile then
      match List.find (name_is shellProfile) availableShells with
      | Some selectedShell => config_of selectedShell
      | None => defaultShell
      end
    else defaultShell in
  let workingDirectory := js_or cwd (JStr os_homedir) in
  let ptyOptions :=
    JObj (spread [("name", JStr "xterm-color");
                  ("cols", js_or (prop options "cols") (JNum 80));
                  ("rows", js_or (prop options "rows") (JNum 30));
                  ("cwd", workingDirectory);
                  ("env", js_or (prop options "env") process_env)]
                 options) in
  (cfg_shell shellConfig, cfg_args shellConfig, ptyOptions).

(** ** TerminalService *)

(** [getConfig()]: a copy of the configuration *)
Definition getConfig (w : World) : list (string * JsVal) := spread [] (JObj (_config w)).

(** [updateConfig(updates)] *)
Definition updateConfig (updates : JsVal) (w : World) : World :=
  let w := set_config (spread (_config w) updates) w in
  emit (config_changed (_config w)) w.

(** The option reads of createTerminal, in evaluation order:
    [options.cols || 80], [options.rows || 30], [options.env || process.env]. *)
Definition spawn_options (options : JsVal) : Completion JsVal :=
  match get_prop options "cols" with
  | Throw e => Throw e
  | Return cols =>
      match get_prop options "rows" with
      | Throw e => Throw e
      | Return rows =>
          match get_prop options "env" with
          | Throw e => Throw e
          | Return env =>
              Return (JObj [("cols", js_or cols (JNum 80));
                            ("rows", js_or rows (JNum 30));
                            ("env", js_or env process_env);
                            ("useConpty", JBool true)])
          end
      end
  end.

(** [createTerminal(profileName = null, cwd = null, options = {})]: the id of
    the instance it returns, or the error it rethrows. *)
Definition createTerminal (profileName cwd options : JsVal) (w : World)
  : World * Completion Z :=
  let profileName := js_default profileName JNull in
  let cwd := js_default cwd JNull in
  let options := js_default options (JObj []) in
  let terminalId := _nextTerminalId w in
  let w := set_nextTerminalId (terminalId + 1) w in
  let workingDir := js_or cwd (JStr process_cwd) in
  let shellProfile :=
    if truthy profileName then getShellByProfile profileName
    else Some getDefaultShellProfile in
  match spawn_options options with
  | Throw error => (log (error_failed_to_create error) w, Throw error)
  | Return spawnOptions =>
      match spawnShell profileName workingDir spawnOptions w with
      | (w, Throw error) => (log (error_failed_to_create error) w, Throw error)
      | (w, Return ptyProcess) =>
          let terminal :=
            new_TerminalInstance terminalId (Some ptyProcess) shellProfile workingDir in
          let w := set_terminals (map_set terminalId (_terminals w)) w in
          (* terminal.on('data' | 'exit' | 'error', ...), terminal._handlers *)
          let l := listeners terminal in
          let terminal :=
            set_handlers
              (Some {| h_data := terminalId; h_exit := terminalId;
                       h_error := terminalId |})
              (set_listeners
                 {| on_data := on_data l ++ [terminalId];
                    on_exit := on_exit l ++ [terminalId];
                    on_error := on_error l ++ [terminalId] |} terminal) in
          let w := put terminalId terminal w in
          let w := emit (terminal_created terminalId (shellName terminal) workingDir) w in
          (w, Return terminalId)
      end
  end.

(** The call of spawn that [createTerminal(profileName, cwd, options)] makes;
    none when reading the options throws before spawnShell is called. *)
Definition createTerminal_call (profileName cwd options : JsVal)
  : option (string * list string * JsVal) :=
  let profileName := js_default profileName JNull in
  let cwd := js_default cwd JNull in
  let options := js_default options (JObj []) in
  let workingDir := js_or cwd (JStr process_cwd) in
  match spawn_options options with
  | Throw _ => None
  | Return spawnOptions => Some (spawn_call profileName workingDir spawnOptions)
  end.

(** [getTerminal(terminalId)]: the instance, or undefined *)
Definition getTerminal (terminalId : Z) (w : World) : option TerminalInstance :=
  if has terminalId w then store w !! terminalId else None.

(** [getAllTerminalIds()] *)
Definition getAllTerminalIds (w : World) : list Z := _terminals w.

(** [getAllTerminals()] *)
Definition getAllTerminals (w : World) : list TerminalInstance :=
  omap (λ k, store w !! k) (_terminals w).

(** [closeTerminal(terminalId)] *)
Definition closeTerminal (terminalId : Z) (w : World) : World * bool :=
  match getTerminal terminalId w with
  | Some _ =>
      let w := log (log_closing terminalId) w in
      let w := dispose terminalId w in
      let w := log (log_disposed_successfully terminalId) w in
      let w := set_terminals (map_delete terminalId (_terminals w)) w in
      let w := emit (terminal_closed terminalId) w in
      let w := log (log_closed_and_removed terminalId) w in
      (w, true)
  | None => (log (warn_not_found_for_closing terminalId) w, false)
  end.

(** [closeAllTerminals()] *)
Definition closeAllTerminals (w : World) : World :=
  fold_left (λ w id, (closeTerminal id w).1) (_terminals w) w.

(** [getTerminalState()] *)
Definition getTerminalState (w : World) : JsVal :=
  JObj [("terminals", JArr (getState <$> getAllTerminals w));
        ("config", JObj (_config w))].

(** The body of the forEach of restoreTerminals, for one entry. *)
Definition restore_entry (terminalState : JsVal) (w : World) : World :=
  match get_prop terminalState "shellProfile" with
  | Throw error => log (error_failed_to_restore error) w
  | Return shellProfile =>
      (* terminalState is neither null nor undefined: the other reads return *)
      let cwd := prop terminalState "cwd" in
      let cols := prop terminalState "cols" in
      let rows := prop terminalState "rows" in
      match createTerminal shellProfile cwd (JObj [("cols", cols); ("rows", rows)]) w with
      | (w, Return _) => w
      | (w, Throw error) => log (error_failed_to_restore error) w
      end
  end.

(** [restoreTerminals(state)] *)
Definition restoreTerminals (state : JsVal) (w : World) : World * Completion unit :=
  if negb (truthy state) then (w, Return ())
  else
    let terminals := prop state "terminals" in
    if negb (truthy terminals) then (w, Return ())
    else
      let config := prop state "config" in
      let w := if truthy config then set_config (spread (_config w) config) w else w in
      match terminals with
      | JArr items => (fold_left (λ w d, restore_entry d w) items w, Return ())
      | _ => (w, Throw {| code := None; message := "forEach is not a function" |})
      end.

(** Whether the forEach body of restoreTerminals creates a terminal for the
    entry, and for how many entries of a list it does. *)
Definition restores (terminalState : JsVal) (w : World) : bool :=
  match get_prop terminalState "shellProfile" with
  | Throw _ => false
  | Return shellProfile =>
      match (createTerminal shellProfile (prop terminalState "cwd")
               (JObj [("cols", prop terminalState "cols");
                      ("rows", prop terminalState "rows")]) w).2 with
      | Return _ => true
      | Throw _ => false
      end
  end.

(** The call of spawn that the forEach body of restoreTerminals makes for
    the entry; none when reading the entry throws. *)
Definition restore_call (terminalState : JsVal)
  : option (string * list string * JsVal) :=
  match get_prop terminalState "shellProfile" with
  | Throw _ => None
  | Return shellProfile =>
      createTerminal_call shellProfile (prop terminalState "cwd")
        (JObj [("cols", prop terminalState "cols");
               ("rows", prop terminalState "rows")])
  end.

Fixpoint restored (terminals : list JsVal) (w : World) : nat :=
  match terminals with
  | [] => 0
  | d :: ds => (if restores d w then 1 else 0) + restored ds (restore_entry d w)
  end.

(** [dispose()] of the service *)
Definition service_dispose (w : World) : World := closeAllTerminals w.
(** ** Runs *)

(** What can happen to the system: the host calls the service or a method of
    an instance it holds, the process behind an instance produces output,
    exits or fails, or the event loop runs the pending callback at position
    [n]. *)
Inductive Event :=
| CreateTerminal (profileName cwd options : JsVal)
| CloseTerminal (terminalId : Z)
| CloseAllTerminals
| RestoreTerminals (state : JsVal)
| UpdateConfig (updates : JsVal)
| ServiceDispose
| Write (this : Z) (data : string)
| Resize (this : Z) (cols rows : JsVal)
| Dispose (this : Z)
| PtyData (this : Z) (data : string)
| PtyExit (this : Z) (exitCode signal : JsVal)
| PtyError (this : Z) (error : JsError)
| RunTask (n : nat).

Definition step (w : World) (e : Event) : World :=
  match e with
  | CreateTerminal profileName cwd options =>
      (createTerminal profileName cwd options w).1
  | CloseTerminal terminalId => (closeTerminal terminalId w).1
  | CloseAllTerminals => closeAllTerminals w
  | RestoreTerminals state => (restoreTerminals state w).1
  | UpdateConfig updates => updateConfig updates w
  | ServiceDispose => service_dispose w
  | Write this data => (write this data w).1
  | Resize this cols rows => (resize this cols rows w).1
  | Dispose this => dispose this w
  | PtyData this data => pty_emits_data this data w
  | PtyExit this exitCode signal => pty_emits_exit this exitCode signal w
  | PtyError this error => pty_emits_error this error w
  | RunTask n =>
      match tasks w !! n with
      | Some k => run_task k (set_tasks (delete n (tasks w)) w)
      | None => w
      end
  end.

Definition run (evs : list Event) (w : World) : World := fold_left step evs w.

(** ** Observations on a run *)

Definition is_exit_of (k : Z) (ev : ServiceEvent) : bool :=
  match ev with
  | terminal_exit k' _ _ => bool_decide (k' = k)
  | _ => false
  end.

Definition is_data_of (k : Z) (ev : ServiceEvent) : bool :=
  match ev with
  | terminal_data k' _ => bool_decide (k' = k)
  | _ => false
  end.

Definition is_notification_of (k : Z) (ev : ServiceEvent) : bool :=
  match ev with
  | terminal_exit k' _ _ | terminal_error k' _ | terminal_data k' _ =>
      bool_decide (k' = k)
  | _ => false
  end.

(** How many events of [l] satisfy [f]. *)
Definition count (f : ServiceEvent → bool) (l : list ServiceEvent) : nat :=
  length (List.filter f l).

(** The ids of the terminal-created events, in emission order. *)
Definition created_ids (l : list ServiceEvent) : list Z :=
  omap (λ ev, match ev with terminal_created k _ _ => Some k | _ => None end) l.

Definition sigterms (t : TerminalInstance) : nat :=
  match _pty t with
  | Some p => length (List.filter (λ s, bool_decide (s = SIGTERM)) (killLog p))
  | None => 0
  end.

Definition sigkills (t : TerminalInstance) : nat :=
  match _pty t with
  | Some p => length (List.filter (λ s, bool_decide (s = SIGKILL)) (killLog p))
  | None => 0
  end.

(** ** The service as its host observes it *)

(** The part of the world that the forwarding closures, createTerminal and
    closeTerminal act on: the registry, the id counter and the emitted
    events. *)
Record View := {
  v_terminals : list Z;
  v_next : Z;
  v_emitted : list ServiceEvent
}.

Definition view (w : World) : View :=
  {| v_terminals := _terminals w; v_next := _nextTerminalId w;
     v_emitted := emitted w |}.

(** The actions on a view: a forwarding closure runs, a creation succeeds or
    fails after it took its id, a terminal is closed, the configuration
    changes. *)
Inductive Act :=
| forwards_data (k : Z) (data : string)
| forwards_exit (k : Z) (exitCode signal : JsVal)
| forwards_error (k : Z) (error : JsError)
| creates (shellName : string) (cwd : JsVal)
| fails_to_create
| closes (k : Z)
| changes_config (c : list (string * JsVal)).

Definition act (v : View) (a : Act) : View :=
  match a with
  | forwards_data k d =>
      {| v_terminals := v_terminals v; v_next := v_next v;
         v_emitted := if bool_decide (k ∈ v_terminals v)
                      then v_emitted v ++ [terminal_data k d] else v_emitted v |}
  | forwards_exit k c s =>
      {| v_terminals := map_delete k (v_terminals v); v_next := v_next v;
         v_emitted := if bool_decide (k ∈ v_terminals v)
                      then v_emitted v ++ [terminal_exit k c s] else v_emitted v |}
  | forwards_error k e =>
      {| v_terminals := v_terminals v; v_next := v_next v;
         v_emitted := if bool_decide (k ∈ v_terminals v)
                      then v_emitted v ++ [terminal_error k e] else v_emitted v |}
  | creates n cwd =>
      {| v_terminals := map_set (v_next v) (v_terminals v);
         v_next := v_next v + 1;
         v_emitted := v_emitted v ++ [terminal_created (v_next v) n cwd] |}
  | fails_to_create =>
      {| v_terminals := v_terminals v; v_next := v_next v + 1;
         v_emitted := v_emitted v |}
  | closes k =>
      {| v_terminals := map_delete k (v_terminals v); v_next := v_next v;
         v_emitted := v_emitted v ++ [terminal_closed k] |}
  | changes_config c =>
      {| v_terminals := v_terminals v; v_next := v_next v;
         v_emitted := v_emitted v ++ [config_changed c] |}
  end.

(** [v'] is reached from [v] by some actions. *)
Definition reaches (v v' : View) : Prop := ∃ l, v' = fold_left act l v.

(** The actions that allocate no id *)
Definition quiet (a : Act) : Prop :=
  match a with
  | creates _ _ | fails_to_create => False
  | _ => True
  end.

Definition quietly (v v' : View) : Prop :=
  ∃ l, Forall quiet l ∧ v' = fold_left act l v.

(** [w'] has the store of [w], and its view is reached without allocating. *)
Definition frames (w w' : World) : Prop :=
  store w' = store w ∧ quietly (view w) (view w').

Definition is_created (ev : ServiceEvent) : bool :=
  match ev with terminal_created _ _ _ => true | _ => false end.

Definition is_exit (ev : ServiceEvent) : bool :=
  match ev with terminal_exit _ _ _ => true | _ => false end.

(** The instance at [k] stays in the store from [w] to [w'], and if it is
    disposed in [w] it is disposed in [w'] with the same number of SIGTERMs
    received. *)
Definition keeps (k : Z) (w w' : World) : Prop :=
  ∀ t, store w !! k = Some t →
       ∃ t', store w' !! k = Some t'
             ∧ (_isDisposed t = true →
                _isDisposed t' = true ∧ sigterms t' = sigterms t).

(** ** Invariants *)

(** Registered ids were allocated, no id is registered twice, an id that
    is registered or not yet allocated has no terminal-exit, no id has two,
    and the created ids are increasing and allocated. *)
Record view_ok (v : View) : Prop := {
  registered_lt : ∀ k, k ∈ v_terminals v → (k < v_next v)%Z;
  registered_NoDup : NoDup (v_terminals v);
  exit_none : ∀ k, k ∈ v_terminals v ∨ (v_next v ≤ k)%Z →
                   count (is_exit_of k) (v_emitted v) = 0;
  exit_once : ∀ k, count (is_exit_of k) (v_emitted v) ≤ 1;
  created_lt : Forall (λ k, k < v_next v)%Z (created_ids (v_emitted v));
  created_sorted : StronglySorted Z.lt (created_ids (v_emitted v))
}.

(** An instance that is not disposed is as createTerminal set it up: the
    three forwarding closures of its own id are its listeners, and the
    listeners on its process handle are attached. *)
Record active_ok (k : Z) (t : TerminalInstance) : Prop := {
  active_sigterms : sigterms t = 0;
  active_handlers :
    _handlers t = Some {| h_data := k; h_exit := k; h_error := k |};
  active_listeners :
    listeners t = {| on_data := [k]; on_exit := [k]; on_error := [k] |};
  active_pty : ∃ p, _pty t = Some p ∧ dataListener p = true
                    ∧ exitListener p = true ∧ errorListener p = true
}.

Record instance_ok (k : Z) (t : TerminalInstance) : Prop := {
  instance_id : _id t = k;
  instance_sigterms : sigterms t ≤ 1;
  instance_active : _isDisposed t = false → active_ok k t
}.

Record world_ok (w : World) : Prop := {
  ok_view : view_ok (view w);
  ok_instance : ∀ k t, store w !! k = Some t → instance_ok k t;
  ok_allocated : ∀ k, is_Some (store w !! k) → (k < _nextTerminalId w)%Z;
  ok_registered : ∀ k, k ∈ _terminals w → is_Some (store w !! k)
}.

End Terminal.

(** ** The history of a service *)

(** Every data, exit or error event of [l] comes after the terminal-created
    event of its id. *)
Definition created_first (l : list ServiceEvent) : Prop :=
  ∀ l1 ev l2 k,
    l = l1 ++ ev :: l2 → is_notification_of k ev = true → k ∈ created_ids l1.

(** The registry lists its ids in increasing order, ids start at 1, a
    registered id has its terminal-created event, and no notification comes
    before the creation of its terminal. *)
Record history_ok (v : View) : Prop := {
  registered_sorted : StronglySorted Z.lt (v_terminals v);
  registered_created : ∀ k, k ∈ v_terminals v → k ∈ created_ids (v_emitted v);
  next_positive : (1 ≤ v_next v)%Z;
  created_positive : Forall (λ k, 1 ≤ k)%Z (created_ids (v_emitted v));
  notified_created : created_first (v_emitted v)
}.

(** The instance whose callback a task is. *)
Definition task_instance (j : Task) : Z :=
  match j with
  | killTimeout k | immediateDispose k | immediateDisposeUnlessDisposed k => k
  end.

(** The instance that an event is addressed to: a method call on it, an
    event of its process, a pending callback of it. *)
Definition target (w : World) (e : Event) : option Z :=
  match e with
  | CloseTerminal k | Write k _ | Resize k _ _ | Dispose k
  | PtyData k _ | PtyExit k _ _ | PtyError k _ => Some k
  | RunTask n => task_instance <$> tasks w !! n
  | _ => None
  end.

(** The events that create terminals. *)
Definition creating (e : Event) : bool :=
  match e with
  | CreateTerminal _ _ _ | RestoreTerminals _ => true
  | _ => false
  end.

(** [w'] has the store of [w] but for the instance at [k]. *)
Definition touches_only (k : Z) (w w' : World) : Prop :=
  ∀ k', k' ≠ k → store w' !! k' = store w !! k'.

(** ** What a disposal leaves *)

#[global] Instance Disposable_eq_dec : EqDecision Disposable.
Proof. solve_decision. Defined.

#[global] Instance Task_eq_dec : EqDecision Task.
Proof. solve_decision. Defined.

Section Disposal.

Variable pty_kill : Pty → Signal → option JsError.

(** The process handle after the signals of a disposal: SIGTERM, and SIGKILL
    at once when sending SIGTERM throws. *)
Definition signalled (p : Pty) : Pty :=
  match pty_kill p SIGTERM with
  | None => pty_killed SIGTERM p
  | Some _ => pty_killed SIGKILL (pty_killed SIGTERM p)
  end.

(** The process handle after the disposables [ds] are disposed and
    removeAllListeners is called on it. *)
Definition detached (ds : list Disposable) (p : Pty) : Pty :=
  pty_listeners (dataListener p && negb (bool_decide (onDataListener ∈ ds)))
    (exitListener p && negb (bool_decide (onExitListener ∈ ds)))
    false p.

(** The instance that [dispose()] leaves of an instance that was not
    disposed. *)
Definition disposed_instance (t : TerminalInstance) : TerminalInstance :=
  {| _id := _id t;
     _pty := (λ p, detached (_disposables t) (signalled p)) <$> _pty t;
     _shellProfile := _shellProfile t; _cwd := _cwd t;
     _cols := _cols t; _rows := _rows t; _isDisposed := true;
     _disposables := []; _handlers := None; listeners := no_listeners |}.

(** The pending escalation timers of the instance at [k]. *)
Definition timers (k : Z) (q : list Task) : nat :=
  length (filter (λ j, j = killTimeout k) q).

(** The signals that an instance has sent to its process. *)
Definition signals (t : TerminalInstance) : list Signal :=
  match _pty t with
  | Some p => killLog p
  | None => []
  end.

(** The instance holds no subscription: no listener on it, none of its own
    on the process handle. *)
Record released (t : TerminalInstance) : Prop := {
  released_listeners : listeners t = no_listeners;
  released_handlers : _handlers t = None;
  released_disposables : _disposables t = [];
  released_pty : ∀ p, _pty t = Some p →
                      dataListener p = false ∧ exitListener p = false
                      ∧ errorListener p = false
}.

(** The life of the instances of a world.  Every instance has a process
    handle.  One that is not disposed holds its three disposables, has sent
    no signal and has no timer pending.  One that is disposed is released, and
    it has sent SIGTERM first and SIGKILL [n] times after it, where [n] and
    its pending timers count 1 or 2 together, and 1 when sending SIGTERM never
    throws.  No timer is pending for an address without an instance. *)
Record lifecycle_ok (w : World) : Prop := {
  life_pty : ∀ k t, store w !! k = Some t → is_Some (_pty t);
  life_active :
    ∀ k t, store w !! k = Some t → _isDisposed t = false →
           _disposables t = [onDataListener; onExitListener; errorDisposable]
           ∧ signals t = [] ∧ timers k (tasks w) = 0;
  life_disposed :
    ∀ k t, store w !! k = Some t → _isDisposed t = true →
           released t
           ∧ ∃ n, signals t = SIGTERM :: replicate n SIGKILL
                  ∧ 1 ≤ n + timers k (tasks w) ≤ 2
                  ∧ ((∀ p, pty_kill p SIGTERM = None) →
                     n + timers k (tasks w) = 1);
  life_absent : ∀ k, store w !! k = None → timers k (tasks w) = 0
}.

End Disposal.

(** ** terminalManager.js: shell discovery *)

(** A profile as discovery builds it: [isLatest] says whether the object
    has the property [isLatest: true]. *)
Record DetectedShell := { profile : ShellProfile; isLatest : bool }.

Section Discovery.

(** The host that discovery probes: [process.platform], the environment
    variables it reads (the value of one is a string, or undefined),
    [fs.existsSync], [path.join] and [path.basename], and
    [s.charAt(0).toUpperCase() + s.slice(1)] as [capitalize s]. *)
Variable platform : string.
Variable env_SystemRoot env_LOCALAPPDATA env_SHELL : option string.
Variable existsSync : string → bool.
Variable path_join : list string → string.
Variable path_basename : string → string.
Variable capitalize : string → string.

(** A string in a condition: the empty string is falsy. *)
Definition nonempty (s : string) : bool := negb (bool_decide (s = EmptyString)).

(** [process.env.X || d] *)
Definition env_or (v : option string) (d : string) : string :=
  match v with
  | Some s => if nonempty s then s else d
  | None => d
  end.

Definition shell_config (s : string) : ShellConfig :=
  {| cfg_shell := s; cfg_args := [] |}.

(** [getDefaultShell()] *)
Definition getDefaultShell : ShellConfig :=
  if bool_decide (platform = "win32") then
    let cmdPath := path_join [env_or env_SystemRoot "C:\Windows"; "System32\cmd.exe"] in
    shell_config cmdPath
  else if bool_decide (platform = "darwin") then
    if existsSync "/bin/zsh" then shell_config "/bin/zsh"
    else shell_config "/bin/bash"
  else if bool_decide (platform = "linux") then
    match env_SHELL with
    | Some shellEnv =>
        if nonempty shellEnv && existsSync shellEnv then shell_config shellEnv
        else shell_config "/bin/bash"
    | None => shell_config "/bin/bash"
    end
  else shell_config (env_or env_SHELL "/bin/bash").

(** The paths that detectPowerShell7 probes, in order. *)
Definition ps7Paths : list string :=
  ["C:\Program Files\PowerShell\7\pwsh.exe";
   "C:\Program Files\PowerShell\7.0\pwsh.exe";
   "C:\Program Files (x86)\PowerShell\7\pwsh.exe";
   "C:\Program Files (x86)\PowerShell\7.0\pwsh.exe"]
  ++ match env_LOCALAPPDATA with
     | Some localAppData =>
         if nonempty localAppData
         then [path_join [localAppData; "Programs"; "PowerShell"; "7"; "pwsh.exe"]]
         else []
     | None => []
     end.

(** [detectPowerShell7()]: the first path that exists, or null *)
Definition detectPowerShell7 : option string := List.find existsSync ps7Paths.

(** The line that detectPowerShell7 writes to the console when it finds a
    path. *)
Definition detectPowerShell7_log : list string :=
  match detectPowerShell7 with
  | Some ps7Path => ["PowerShell 7 detected at: " +:+ ps7Path]
  | None => []
  end.

(** A profile object without [isLatest] and with no arguments *)
Definition shell_profile (n d s : string) : DetectedShell :=
  {| profile := {| name := n; displayName := d; shell := s; args := [] |};
     isLatest := false |}.

Definition gitBashPaths : list string :=
  ["C:\Program Files\Git\bin\bash.exe";
   "C:\Program Files (x86)\Git\bin\bash.exe"]
  ++ match env_LOCALAPPDATA with
     | Some localAppData =>
         if nonempty localAppData
         then [path_join [localAppData; "Programs"; "Git"; "bin"; "bash.exe"]]
         else []
     | None => []
     end.

(** [detectWindowsShells()] *)
Definition detectWindowsShells : list DetectedShell :=
  let shells := [] in
  let cmdPath := path_join [env_or env_SystemRoot "C:\Windows"; "System32\cmd.exe"] in
  let shells :=
    if existsSync cmdPath
    then shells ++ [shell_profile "cmd" "Command Prompt" cmdPath] else shells in
  let shells :=
    match detectPowerShell7 with
    | Some ps7Path =>
        if nonempty ps7Path
        then shells ++ [{| profile := {| name := "powershell";
                                         displayName := "PowerShell";
                                         shell := ps7Path; args := [] |};
                           isLatest := true |}]
        else shells
    | None => shells
    end in
  let powershellPath :=
    path_join [env_or env_SystemRoot "C:\Windows";
               "System32\WindowsPowerShell\v1.0\powershell.exe"] in
  let shells :=
    if existsSync powershellPath
    then shells ++ [shell_profile "powershell-legacy" "PowerShell (Legacy)"
                      powershellPath]
    else shells in
  let wslPath := path_join [env_or env_SystemRoot "C:\Windows"; "System32\wsl.exe"] in
  let shells :=
    if existsSync wslPath then shells ++ [shell_profile "wsl" "WSL" wslPath]
    else shells in
  match List.find existsSync gitBashPaths with
  | Some gitBashPath => shells ++ [shell_profile "git-bash" "Git Bash" gitBashPath]
  | None => shells
  end.

(** [shells.some(s => s.shell === shellEnv)] *)
Definition alreadyAdded (shellEnv : string) (shells : list DetectedShell) : bool :=
  existsb (λ s, bool_decide (shell (profile s) = shellEnv)) shells.

(** [getAvailableShells()] *)
Definition getAvailableShells : list DetectedShell :=
  if bool_decide (platform = "win32") then detectWindowsShells
  else if bool_decide (platform = "darwin") then
    let shells := [] in
    let shells :=
      if existsSync "/bin/zsh" then shells ++ [shell_profile "zsh" "Zsh" "/bin/zsh"]
      else shells in
    let shells :=
      if existsSync "/bin/bash"
      then shells ++ [shell_profile "bash" "Bash" "/bin/bash"] else shells in
    shells
  else if bool_decide (platform = "linux") then
    let shells := [] in
    let shells :=
      if existsSync "/bin/bash"
      then shells ++ [shell_profile "bash" "Bash" "/bin/bash"] else shells in
    let shells :=
      if existsSync "/bin/zsh" then shells ++ [shell_profile "zsh" "Zsh" "/bin/zsh"]
      else shells in
    let shells :=
      if existsSync "/bin/sh" then shells ++ [shell_profile "sh" "Sh" "/bin/sh"]
      else shells in
    match env_SHELL with
    | Some shellEnv =>
        if nonempty shellEnv && existsSync shellEnv then
          let shellName := path_basename shellEnv in
          if negb (alreadyAdded shellEnv shells)
          then shells ++ [shell_profile shellName (capitalize shellName) shellEnv]
          else shells
        else shells
    | None => shells
    end
  else [].

(** The profiles and the default shell that the service works with on this
    host: what [getShellByProfile], [getDefaultShellProfile] and [spawnShell]
    get from [getAvailableShells()] and [getDefaultShell()]. *)
Definition discovered : list ShellProfile := profile <$> getAvailableShells.

Definition discovered_getShellByProfile (profileName : JsVal) : option ShellProfile :=
  getShellByProfile discovered profileName.

Definition discovered_getDefaultShellProfile : ShellProfile :=
  getDefaultShellProfile discovered getDefaultShell.

End Discovery.

(** ** main.js: the terminal channels *)

(** The lines that main.js writes to the console in the functions below. *)
Inductive MainLine :=
| log_all_changed_directory (targetPath : string)
| error_failed_to_change_directory (e : JsError)
| log_creating_with_cwd (targetCwd : JsVal)
| error_main_failed_to_create (e : JsError)
| warn_not_found_for_write (terminalId : Z)
| error_main_writing (terminalId : Z) (msg : string)
| error_main_resizing (terminalId : Z) (msg : string).

(** The characters [\] and [/] *)
Definition backslash : Ascii.ascii := Ascii.Ascii false false true true true false true false.
Definition slash : Ascii.ascii := Ascii.Ascii true true true true false true false false.

(** [targetPath.replace(/\\/g, '/')] *)
Fixpoint to_slashes (s : string) : string :=
  match s with
  | EmptyString => EmptyString
  | String c s' =>
      String (if bool_decide (c = backslash) then slash else c) (to_slashes s')
  end.

(** The carriage return that ends a command *)
Definition carriage_return : string :=
  String (Ascii.Ascii true false true true false false false false) EmptyString.

Section Main.

Variable availableShells : list ShellProfile.
Variable defaultShell : ShellConfig.
Variable process_cwd : string.
Variable os_homedir : string.
Variable process_env : JsVal.
Variable pty_spawn : nat → string → list string → JsVal → option JsError.
Variable pty_write : Pty → string → option JsError.
Variable pty_resize : Pty → JsVal → JsVal → option JsError.

(** [process.platform], and [s.toLowerCase()]. *)
Variable process_platform : string.
Variable toLowerCase : string → string.

(** The command that changeAllTerminalsDirectory sends to a terminal whose
    shell name is [shellName]. *)
Definition cd_command (shellName targetPath : string) : string :=
  let shellName := toLowerCase shellName in
  if bool_decide (process_platform = "win32") then
    if includes "cmd" shellName || includes "command prompt" shellName then
      "cd /d " +:+ dquote +:+ targetPath +:+ dquote +:+ carriage_return
    else if includes "powershell" shellName then
      "cd " +:+ dquote +:+ targetPath +:+ dquote +:+ carriage_return
    else
      let unixPath := to_slashes targetPath in
      "cd " +:+ dquote +:+ unixPath +:+ dquote +:+ carriage_return
  else "cd " +:+ dquote +:+ targetPath +:+ dquote +:+ carriage_return.

(** The forEach of changeAllTerminalsDirectory over the instances that
    getAllTerminals returned, given by their addresses [ids].  An instance
    is looked at when its turn comes, and a write that throws ends the
    loop. *)
Fixpoint change_directories (targetPath : string) (ids : list Z) (w : World)
  : World * Completion unit :=
  match ids with
  | [] => (w, Return ())
  | k :: ids =>
      match store w !! k with
      | Some term =>
          if _isDisposed term then change_directories targetPath ids w
          else
            let cmd := cd_command (shellName term) targetPath in
            if bool_decide (cmd = EmptyString)
            then change_directories targetPath ids w
            else
              match write pty_write k cmd w with
              | (w, Return _) => change_directories targetPath ids w
              | (w, Throw e) => (w, Throw e)
              end
      | None => change_directories targetPath ids w
      end
  end.

(** [changeAllTerminalsDirectory(targetPath)]: the service after it, and the
    lines that main.js has written. *)
Definition changeAllTerminalsDirectory (targetPath : string) (w : World)
  : World * list MainLine :=
  let terminals := getAllTerminals w in
  match change_directories targetPath (_id <$> terminals) w with
  | (w, Return _) => (w, [log_all_changed_directory targetPath])
  | (w, Throw e) => (w, [error_failed_to_change_directory e])
  end.

(** The writes that changeAllTerminalsDirectory makes in [w]: one to each
    registered instance that is not disposed, in the order of the
    registry. *)
Definition cd_writes (targetPath : string) (ids : list Z) (w : World) : list Event :=
  omap (λ k, match store w !! k with
             | Some term =>
                 if _isDisposed term then None
                 else Some (Write k (cd_command (shellName term) targetPath))
             | None => None
             end) ids.

(** The handler of [terminal:create] for the argument
    [{ profileName, cwd }]; [windowDir] is
    [workingDirectories.get(event.sender.id)].  The reply is the object that
    the handler returns, or the error that it rethrows. *)
Definition handle_terminal_create (profileName cwd windowDir : JsVal) (w : World)
  : World * Completion JsVal * list MainLine :=
  let targetCwd := cwd in
  let targetCwd := if negb (truthy targetCwd) then windowDir else targetCwd in
  let targetCwd := if negb (truthy targetCwd) then JStr os_homedir else targetCwd in
  let lines := [log_creating_with_cwd targetCwd] in
  match createTerminal availableShells defaultShell process_cwd os_homedir
          process_env pty_spawn profileName targetCwd JUndefined w with
  | (w, Return id) =>
      match store w !! id with
      | Some terminal =>
          (w,
           Return (JObj [("terminalId", JNum (_id terminal));
                         ("shellName", JStr (shellName terminal));
                         ("cols", (dimensions terminal).1);
                         ("rows", (dimensions terminal).2)]),
           lines)
      | None => (w, Throw TypeError, lines ++ [error_main_failed_to_create TypeError])
      end
  | (w, Throw error) => (w, Throw error, lines ++ [error_main_failed_to_create error])
  end.

(** The listener of [pty:write] for the argument [{ terminalId, data }] *)
Definition on_pty_write (terminalId : Z) (data : string) (w : World)
  : World * list MainLine :=
  match getTerminal terminalId w with
  | Some terminal =>
      if negb (_isDisposed terminal) then
        match write pty_write terminalId data w with
        | (w, Return _) => (w, [])
        | (w, Throw error) => (w, [error_main_writing terminalId (message error)])
        end
      else (w, [])
  | None => (w, [warn_not_found_for_write terminalId])
  end.

(** The listener of [pty:resize] for the argument
    [{ terminalId, cols, rows }] *)
Definition on_pty_resize (terminalId : Z) (cols rows : JsVal) (w : World)
  : World * list MainLine :=
  match getTerminal terminalId w with
  | Some terminal =>
      if negb (_isDisposed terminal) then
        match resize pty_resize terminalId cols rows w with
        | (w, Return _) => (w, [])
        | (w, Throw error) => (w, [error_main_resizing terminalId (message error)])
        end
      else (w, [])
  | None => (w, [])
  end.

End Main.

(** ** What stays of an instance *)

(** [t'] has the id, the working directory and the shell profile of [t],
    and its stored dimensions when [dims] is set. *)
Definition unchanged (dims : bool) (t t' : TerminalInstance) : Prop :=
  _id t' = _id t ∧ _cwd t' = _cwd t ∧ _shellProfile t' = _shellProfile t
  ∧ (dims = true → dimensions t' = dimensions t).

(** The instance at [k] is still there in [w'], unchanged in this sense. *)
Definition stays (dims : bool) (k : Z) (w w' : World) : Prop :=
  ∀ t, store w !! k = Some t →
       ∃ t', store w' !! k = Some t' ∧ unchanged dims t t'.

(** The event is a call of resize on the instance at [k]. *)
Definition resizes (k : Z) (e : Event) : bool :=
  match e with
  | Resize k' _ _ => bool_decide (k' = k)
  | _ => false
  end.

(** ** A host for examples *)

Module Host.

Definition bash : ShellProfile :=
  {| name := "bash"; displayName := "Bash"; shell := "/bin/bash"; args := [] |}.

Definition shells : list ShellProfile := [bash].

Definition default_shell : ShellConfig := {| cfg_shell := "/bin/bash"; cfg_args := [] |}.

Definition home : string := "/home/u".

(** Every call on node-pty succeeds. *)
Definition spawn_ok (n : nat) (sh : string) (a : list string) (o : JsVal)
  : option JsError := None.
Definition write_ok (p : Pty) (d : string) : option JsError := None.
Definition resize_ok (p : Pty) (c r : JsVal) : option JsError := None.
Definition kill_ok (p : Pty) (s : Signal) : option JsError := None.

(** The resize of the process fails, the channel is not broken. *)
Definition resize_fails (p : Pty) (c r : JsVal) : option JsError :=
  Some {| code := None; message := "ioctl failed" |}.

(** spawn throws when the working directory is [/nonexistent]. *)
Definition chdir_error : JsError := {| code := None; message := "chdir failed" |}.

Definition spawn_checks_cwd (n : nat) (sh : string) (a : list string) (o : JsVal)
  : option JsError :=
  match prop o "cwd" with
  | JStr "/nonexistent" => Some {| code := None; message := "chdir failed" |}
  | _ => None
  end.

(** spawn throws when the columns or the rows are not numbers, or the
    working directory is not a string or is [/nonexistent]. *)
Definition spawn_checks_options (n : nat) (sh : string) (a : list string) (o : JsVal)
  : option JsError :=
  match prop o "cols", prop o "rows", prop o "cwd" with
  | JNum _, JNum _, JStr _ => spawn_checks_cwd n sh a o
  | JNum _, JNum _, _ => Some {| code := None; message := "cwd must be a string" |}
  | JNum _, _, _ => Some {| code := None; message := "rows must be a number" |}
  | _, _, _ => Some {| code := None; message := "cols must be a number" |}
  end.

Definition run_with spawn wr rs kl : list Event → World → World :=
  run shells default_shell home home (JObj []) spawn wr rs kl.

(** A run in which everything succeeds *)
Definition run_ok : list Event → World → World :=
  run_with spawn_ok write_ok resize_ok kill_ok.

(** The second call of spawn throws, the others succeed. *)
Definition spawn_error : JsError := {| code := None; message := "spawn failed" |}.

Definition spawn_second_fails (n : nat) (sh : string) (a : list string) (o : JsVal)
  : option JsError :=
  match n with
  | 1 => Some spawn_error
  | _ => None
  end.

Definition createTerminal_with spawn
  : JsVal → JsVal → JsVal → World → World * Completion Z :=
  createTerminal shells default_shell home home (JObj []) spawn.

Definition restoreTerminals_with spawn : JsVal → World → World * Completion unit :=
  restoreTerminals shells default_shell home home (JObj []) spawn.

(** The world after a first creation, when the second spawn will throw. *)
Definition w_first : World :=
  (createTerminal_with spawn_second_fails JNull JNull JUndefined
     new_TerminalService).1.

(** The host creates a terminal in [/home/u] with the default profile. *)
Definition create : Event := CreateTerminal JNull (JStr "/home/u") JUndefined.

Definition w_created : World := run_ok [create] new_TerminalService.

Definition w_disposed : World := run_ok [create; Dispose 1] new_TerminalService.

(** The terminal is closed, and its process exits before the escalation
    timer fires. *)
Definition w_closed_exited : World :=
  run_ok [create; CloseTerminal 1; PtyExit 1 (JNum 0) JUndefined]
    new_TerminalService.

(** ... and then the timer fires. *)
Definition w_timer_fired : World := run_ok [RunTask 0] w_closed_exited.

(** Sending SIGTERM throws, SIGKILL is delivered. *)
Definition kill_term_fails (p : Pty) (s : Signal) : option JsError :=
  match s with
  | SIGTERM => Some {| code := None; message := "kill failed" |}
  | SIGKILL => None
  end.

(** The terminal is closed while sending SIGTERM throws; the process does
    not exit, and the timer fires. *)
Definition w_sigterm_failed : World :=
  run_with spawn_ok write_ok resize_ok kill_term_fails
    [create; CloseTerminal 1; RunTask 0] new_TerminalService.

(** The resize of the process of terminal 1 fails. *)
Definition w_resize_failed : World :=
  run_with spawn_ok write_ok resize_fails kill_ok
    [create; Resize 1 (JNum 120) (JNum 40)] new_TerminalService.

(** A descriptor as getState produces it *)
Definition descriptor (cwd : string) : JsVal :=
  JObj [("id", JNum 7); ("shellProfile", JStr "bash"); ("cwd", JStr cwd);
        ("cols", JNum 80); ("rows", JNum 30)].

(** Snapshots of five entries: four descriptors and a null entry, four
    descriptors and one whose directory does not exist, four descriptors and
    an entry that is not a descriptor at all. *)
Definition four : list JsVal :=
  [descriptor "/home/u"; descriptor "/tmp"; descriptor "/srv"; descriptor "/"].

Definition snapshot (entry : JsVal) : JsVal :=
  JObj [("terminals", JArr (four ++ [entry])); ("config", JObj [])].

(** An entry whose columns are not a number, and the options that spawn
    gets for it and for a descriptor. *)
Definition wide : JsVal :=
  JObj [("shellProfile", JStr "bash"); ("cwd", JStr "/home/u");
        ("cols", JStr "wide"); ("rows", JNum 30)].

Definition pty_options (cols rows : JsVal) (cwd : string) : JsVal :=
  JObj [("name", JStr "xterm-color"); ("cols", cols); ("rows", rows);
        ("cwd", JStr cwd); ("env", JObj []); ("useConpty", JBool true)].

(** The service after the restoration of the third snapshot. *)
Definition w_restored_number : World :=
  (restoreTerminals_with spawn_ok (snapshot (JNum 42)) new_TerminalService).1.

(** Two terminals, and a second creation with a size and a directory. *)
Definition w_two : World := run_ok [create; create] new_TerminalService.

Definition sized : JsVal := JObj [("cols", JNum 120); ("rows", JNum 40)].

Definition w_second : World :=
  (createTerminal_with spawn_ok JNull (JStr "/tmp") sized w_created).1.

(** The write of the process fails with a broken pipe. *)
Definition epipe : JsError := {| code := None; message := "write EPIPE" |}.

Definition write_epipe (p : Pty) (d : string) : option JsError := Some epipe.

Definition run_epipe : list Event → World → World :=
  run_with spawn_ok write_epipe resize_ok kill_ok.

Definition w_created_epipe : World := run_epipe [create] new_TerminalService.

(** The first terminal writes, then is closed. *)
Definition w_written_closed : World :=
  run_ok [Write 1 "ls"; CloseTerminal 1] w_created.

(** A state whose terminals field is not an array *)
Definition state_without_list : JsVal :=
  JObj [("terminals", JNum 3); ("config", JObj [("fontSize", JNum 20)])].

(** Hosts for shell discovery.  [path.join] puts the separator between the
    parts, [path.basename] is what follows the last slash, and the first
    letter is capitalized when it is a lower-case ASCII letter. *)
Fixpoint join_with (sep : string) (parts : list string) : string :=
  match parts with
  | [] => "."
  | [p] => p
  | p :: ps => p +:+ sep +:+ join_with sep ps
  end.

Fixpoint base_name (s : string) : string :=
  match s with
  | EmptyString => EmptyString
  | String c s' =>
      if includes "/" s' then base_name s'
      else if bool_decide (c = slash) then s' else s
  end.

Definition upper (c : Ascii.ascii) : Ascii.ascii :=
  let n := Ascii.nat_of_ascii c in
  if (97 <=? n) && (n <=? 122) then Ascii.ascii_of_nat (n - 32) else c.

Definition lower (c : Ascii.ascii) : Ascii.ascii :=
  let n := Ascii.nat_of_ascii c in
  if (65 <=? n) && (n <=? 90) then Ascii.ascii_of_nat (n + 32) else c.

Definition capitalize_first (s : string) : string :=
  match s with
  | EmptyString => EmptyString
  | String c s' => String (upper c) s'
  end.

Fixpoint lower_case (s : string) : string :=
  match s with
  | EmptyString => EmptyString
  | String c s' => String (lower c) (lower_case s')
  end.

Definition exists_among (files : list string) (p : string) : bool :=
  bool_decide (p ∈ files).

(** Linux with bash and sh, where [$SHELL] is another bash. *)
Definition linux_files : list string := ["/bin/bash"; "/bin/sh"; "/usr/local/bin/bash"].



Definition linux_default_shell : ShellConfig :=
  getDefaultShell "linux" None (Some "/usr/local/bin/bash")
    (exists_among linux_files) (join_with "/").

Definition linux_default_profile : ShellProfile :=
  discovered_getDefaultShellProfile "linux" None None (Some "/usr/local/bin/bash")
    (exists_among linux_files) (join_with "/") base_name capitalize_first.

(** Linux with zsh only, and no [$SHELL]. *)
Definition zsh_default_shell : ShellConfig :=
  getDefaultShell "linux" None None (exists_among ["/bin/zsh"]) (join_with "/").

Definition zsh_default_profile : ShellProfile :=
  discovered_getDefaultShellProfile "linux" None None None
    (exists_among ["/bin/zsh"]) (join_with "/") base_name capitalize_first.

(** Windows with cmd, PowerShell 7 and WSL. *)
Definition windows_files : list string :=
  ["C:\Windows\System32\cmd.exe"; "C:\Program Files\PowerShell\7\pwsh.exe";
   "C:\Windows\System32\wsl.exe"].

Definition windows_shells : list ShellProfile :=
  discovered "win32" (Some "C:\Windows") None None
    (exists_among windows_files) (join_with "\") base_name capitalize_first.

Definition windows_getShellByProfile : JsVal → option ShellProfile :=
  discovered_getShellByProfile "win32" (Some "C:\Windows") None None
    (exists_among windows_files) (join_with "\") base_name capitalize_first.

Definition powershell : ShellProfile :=
  {| name := "powershell"; displayName := "PowerShell";
     shell := "C:\Program Files\PowerShell\7\pwsh.exe"; args := [] |}.

(** FreeBSD, where [$SHELL] is tcsh. *)
Definition bsd_shells : list DetectedShell :=
  getAvailableShells "freebsd" None None (Some "/bin/tcsh")
    (exists_among ["/bin/tcsh"]) (join_with "/") base_name capitalize_first.

Definition bsd_default_profile : ShellProfile :=
  discovered_getDefaultShellProfile "freebsd" None None (Some "/bin/tcsh")
    (exists_among ["/bin/tcsh"]) (join_with "/") base_name capitalize_first.

(** main.js on the example host *)
Definition changeAllTerminalsDirectory_ok : string → World → World * list MainLine :=
  changeAllTerminalsDirectory write_ok "linux" lower_case.

Definition cd_command_linux : string → string → string := cd_command "linux" lower_case.

Definition handle_terminal_create_ok
  : JsVal → JsVal → JsVal → World → World * Completion JsVal * list MainLine :=
  handle_terminal_create shells default_shell home home (JObj []) spawn_ok.

Definition w_in_notes : World :=
  (handle_terminal_create_ok JNull JUndefined (JStr "/srv/notes")
     new_TerminalService).1.1.

(** The first terminal is disposed, the second is not. *)
Definition w_two_one_disposed : World :=
  run_ok [create; create; Dispose 1] new_TerminalService.


End Host.

(** * Properties *)

Section Properties.

Context (availableShells : list ShellProfile) (defaultShell : ShellConfig)
  (process_cwd os_homedir : string) (process_env : JsVal)
  (pty_spawn : nat → string → list string → JsVal → option JsError)
  (pty_write : Pty → string → option JsError)
  (pty_resize : Pty → JsVal → JsVal → option JsError)
  (pty_kill : Pty → Signal → option JsError).

Local Abbreviation dispose := (dispose pty_kill).
Local Abbreviation run_task := (run_task pty_kill).
Local Abbreviation write := (write pty_write).
Local Abbreviation resize := (resize pty_resize).
Local Abbreviation spawnShell :=
  (spawnShell availableShells defaultShell os_homedir process_env pty_spawn).
Local Abbreviation createTerminal :=
  (createTerminal availableShells defaultShell process_cwd os_homedir process_env
     pty_spawn).
Local Abbreviation closeTerminal := (closeTerminal pty_kill).
Local Abbreviation closeAllTerminals := (closeAllTerminals pty_kill).
Local Abbreviation restore_entry :=
  (restore_entry availableShells defaultShell process_cwd os_homedir process_env
     pty_spawn).
Local Abbreviation restores :=
  (restores availableShells defaultShell process_cwd os_homedir process_env
     pty_spawn).
Local Abbreviation restored :=
  (restored availableShells defaultShell process_cwd os_homedir process_env
     pty_spawn).
Local Abbreviation spawn_call :=
  (spawn_call availableShells defaultShell os_homedir process_env).
Local Abbreviation createTerminal_call :=
  (createTerminal_call availableShells defaultShell process_cwd os_homedir
     process_env).
Local Abbreviation restore_call :=
  (restore_call availableShells defaultShell process_cwd os_homedir process_env).
Local Abbreviation restoreTerminals :=
  (restoreTerminals availableShells defaultShell process_cwd os_homedir process_env
     pty_spawn).
Local Abbreviation step :=
  (step availableShells defaultShell process_cwd os_homedir process_env pty_spawn
     pty_write pty_resize pty_kill).
Local Abbreviation run :=
  (run availableShells defaultShell process_cwd os_homedir process_env pty_spawn
     pty_write pty_resize pty_kill).

(** ** What an operation does to the view *)

Lemma reaches_refl v : reaches v v.
Proof. by exists []. Qed.

Lemma reaches_trans v1 v2 v3 : reaches v1 v2 → reaches v2 v3 → reaches v1 v3.
Proof.
  intros [l1 ->] [l2 ->]. exists (l1 ++ l2). by rewrite fold_left_app.
Qed.

Lemma reaches_act v a : reaches v (act v a).
Proof. by exists [a]. Qed.

Lemma reaches_eq v v' : v' = v → reaches v v'.
Proof. intros ->. apply reaches_refl. Qed.

Lemma reaches_fold {A} (f : World → A → World) (l : list A) (w : World) :
  (∀ w a, reaches (view w) (view (f w a))) →
  reaches (view w) (view (fold_left f l w)).
Proof.
  intros Hf. revert w. induction l as [|a l IH]; intros w; simpl.
  - apply reaches_refl.
  - eapply reaches_trans; [apply Hf | apply IH].
Qed.

Lemma view_dataHandler k d w :
  view (dataHandler k d w) = act (view w) (forwards_data k d).
Proof. unfold dataHandler, has. simpl. by case_bool_decide. Qed.

Lemma view_exitHandler k c s w :
  view (exitHandler k c s w) = act (view w) (forwards_exit k c s).
Proof. unfold exitHandler, has. simpl. by case_bool_decide. Qed.

Lemma view_errorHandler k e w :
  view (errorHandler k e w) = act (view w) (forwards_error k e).
Proof. unfold errorHandler, has. simpl. by case_bool_decide. Qed.

Lemma reaches_emit_data k d w : reaches (view w) (view (emit_data k d w)).
Proof.
  unfold emit_data. destruct (store w !! k); [|apply reaches_refl].
  apply reaches_fold. intros w' h. rewrite view_dataHandler. apply reaches_act.
Qed.

Lemma reaches_emit_exit k c s w : reaches (view w) (view (emit_exit k c s w)).
Proof.
  unfold emit_exit. destruct (store w !! k); [|apply reaches_refl].
  apply reaches_fold. intros w' h. rewrite view_exitHandler. apply reaches_act.
Qed.

Lemma reaches_emit_error k e w : reaches (view w) (view (emit_error k e w).1).
Proof.
  unfold emit_error. destruct (store w !! k) as [t|]; [|apply reaches_refl].
  destruct (on_error (listeners t)) as [|h hs] eqn:E; [apply reaches_refl|].
  cbn [fst]. apply reaches_fold. intros w' h'. rewrite view_errorHandler.
  apply reaches_act.
Qed.

Lemma view_dispose k w : view (dispose k w) = view w.
Proof. unfold dispose, kill. by repeat case_match; simplify_eq. Qed.

Lemma view_run_task k w : view (run_task k w) = view w.
Proof.
  destruct k; simpl; [|apply view_dispose|].
  - unfold run_killTimeout, kill. by repeat case_match; simplify_eq.
  - unfold run_immediateDisposeUnlessDisposed.
    repeat case_match; try done. apply view_dispose.
Qed.

Lemma reaches_write k d w : reaches (view w) (view (write k d w).1).
Proof.
  unfold write. repeat case_match; try apply reaches_refl.
  all: eapply reaches_trans; [|apply reaches_emit_error]; by apply reaches_eq.
Qed.

Lemma reaches_resize k c r w : reaches (view w) (view (resize k c r w).1).
Proof.
  unfold resize. repeat case_match; try apply reaches_refl.
  all: eapply reaches_trans; [|apply reaches_emit_error]; by apply reaches_eq.
Qed.

Lemma reaches_pty_emits_data k d w : reaches (view w) (view (pty_emits_data k d w)).
Proof.
  unfold pty_emits_data, onDataListener_cb.
  repeat case_match; try apply reaches_refl. apply reaches_emit_data.
Qed.

Lemma reaches_pty_emits_exit k c s w :
  reaches (view w) (view (pty_emits_exit k c s w)).
Proof.
  unfold pty_emits_exit, onExitListener_cb.
  repeat case_match; try apply reaches_refl.
  set (w1 := log _ _). change (view (schedule _ ?x)) with (view x).
  change (view w) with (view w1). apply reaches_emit_exit.
Qed.

Lemma reaches_pty_emits_error k e w :
  reaches (view w) (view (pty_emits_error k e w)).
Proof.
  unfold pty_emits_error, errorHandler_cb.
  repeat case_match; try apply reaches_refl.
  set (w1 := log _ _). change (view w) with (view w1). apply reaches_emit_error.
Qed.


Lemma view_spawnShell sp cwd o w : view (spawnShell sp cwd o w).1 = view w.
Proof. unfold spawnShell. by repeat case_match; simplify_eq. Qed.

(** What createTerminal does to the view: with the id it returns it is a
    creation, with a throw a failed creation. *)
Lemma view_createTerminal pn cwd o w :
  match (createTerminal pn cwd o w).2 with
  | Return k =>
      k = _nextTerminalId w ∧
      ∃ n c, view (createTerminal pn cwd o w).1 = act (view w) (creates n c)
  | Throw _ => view (createTerminal pn cwd o w).1 = act (view w) fails_to_create
  end.
Proof.
  unfold createTerminal.
  destruct (spawn_options _ _) as [so|e]; [|done].
  set (w1 := set_nextTerminalId _ w).
  pose proof (view_spawnShell (js_default pn JNull)
                (js_or (js_default cwd JNull) (JStr process_cwd)) so w1) as Hv.
  destruct (spawnShell _ _ _ w1) as [w2 [p|e]]; simpl in *.
  - split; [done|]. eexists _, _. unfold view in *. simpl in *.
    injection Hv as -> -> ->. reflexivity.
  - unfold view in *. simpl in *. by injection Hv as -> -> ->.
Qed.

Lemma reaches_createTerminal pn cwd o w :
  reaches (view w) (view (createTerminal pn cwd o w).1).
Proof.
  pose proof (view_createTerminal pn cwd o w) as H.
  destruct (createTerminal pn cwd o w).2.
  - destruct H as (_ & n & c & ->). apply reaches_act.
  - rewrite H. apply reaches_act.
Qed.

Lemma view_closeTerminal k w :
  view (closeTerminal k w).1 =
  if (closeTerminal k w).2 then act (view w) (closes k) else view w.
Proof.
  unfold closeTerminal. destruct (getTerminal k w); [|done]. simpl.
  pose proof (view_dispose k (log (log_closing k) w)) as Hv.
  unfold view in *. simpl in *. by injection Hv as -> -> ->.
Qed.

Lemma reaches_closeTerminal k w : reaches (view w) (view (closeTerminal k w).1).
Proof.
  rewrite view_closeTerminal. destruct (closeTerminal k w).2.
  - apply reaches_act.
  - apply reaches_refl.
Qed.

Lemma reaches_closeAllTerminals w : reaches (view w) (view (closeAllTerminals w)).
Proof.
  unfold closeAllTerminals. apply reaches_fold. intros. apply reaches_closeTerminal.
Qed.

Lemma reaches_restore_entry d w : reaches (view w) (view (restore_entry d w)).
Proof.
  unfold restore_entry. destruct (get_prop d "shellProfile") as [sp|e].
  - pose proof (reaches_createTerminal sp (prop d "cwd")
                  (JObj [("cols", prop d "cols"); ("rows", prop d "rows")]) w) as H.
    by destruct (createTerminal _ _ _ w) as [w' [k|e]].
  - apply reaches_refl.
Qed.

Lemma reaches_restoreTerminals st w :
  reaches (view w) (view (restoreTerminals st w).1).
Proof.
  unfold restoreTerminals. repeat case_match; try apply reaches_refl; simpl.
  - set (w1 := set_config _ w). change (view w) with (view w1).
    apply reaches_fold. intros. apply reaches_restore_entry.
  - apply reaches_fold. intros. apply reaches_restore_entry.
Qed.

Lemma reaches_updateConfig u w : reaches (view w) (view (updateConfig u w)).
Proof. unfold updateConfig. exists [changes_config (spread (_config w) u)]. done. Qed.

Lemma reaches_step w e : reaches (view w) (view (step w e)).
Proof.
  destruct e; simpl.
  - apply reaches_createTerminal.
  - apply reaches_closeTerminal.
  - apply reaches_closeAllTerminals.
  - apply reaches_restoreTerminals.
  - apply reaches_updateConfig.
  - apply reaches_closeAllTerminals.
  - apply reaches_write.
  - apply reaches_resize.
  - apply reaches_eq, view_dispose.
  - apply reaches_pty_emits_data.
  - apply reaches_pty_emits_exit.
  - apply reaches_pty_emits_error.
  - destruct (tasks w !! n); [|apply reaches_refl].
    apply reaches_eq. by rewrite view_run_task.
Qed.

Lemma reaches_run evs w : reaches (view w) (view (run evs w)).
Proof. apply reaches_fold. apply reaches_step. Qed.


(** ** The view invariant *)

Lemma count_app f l1 l2 : count f (l1 ++ l2) = count f l1 + count f l2.
Proof. unfold count. by rewrite List.filter_app, length_app. Qed.

Lemma count_snoc f l ev :
  count f (l ++ [ev]) = count f l + (if f ev then 1 else 0).
Proof. rewrite count_app. unfold count. simpl. by destruct (f ev). Qed.

Lemma created_ids_snoc l ev :
  created_ids (l ++ [ev]) =
  created_ids l ++ match ev with terminal_created k _ _ => [k] | _ => [] end.
Proof. unfold created_ids. rewrite omap_app. by destruct ev. Qed.

Lemma elem_of_map_delete k k' l : k' ∈ map_delete k l ↔ k' ≠ k ∧ k' ∈ l.
Proof. unfold map_delete. by rewrite list_elem_of_filter. Qed.

Lemma map_set_fresh k l : k ∉ l → map_set k l = l ++ [k].
Proof. intros H. unfold map_set. by rewrite bool_decide_eq_false_2. Qed.

Lemma view_ok_new : view_ok (view new_TerminalService).
Proof.
  split; simpl.
  - intros k H. by apply elem_of_nil in H.
  - constructor.
  - done.
  - intros k. unfold count. simpl. lia.
  - constructor.
  - constructor.
Qed.

(** Emitting an event that is neither terminal-exit nor terminal-created *)
Lemma view_ok_emit v ev :
  is_exit ev = false → is_created ev = false → view_ok v →
  view_ok {| v_terminals := v_terminals v; v_next := v_next v;
             v_emitted := v_emitted v ++ [ev] |}.
Proof.
  intros He Hc [Hlt Hnd Hnone Honce Hclt Hsort].
  assert (∀ k, count (is_exit_of k) (v_emitted v ++ [ev]) =
               count (is_exit_of k) (v_emitted v)) as Hcount.
  { intros k. rewrite count_snoc. destruct ev; simpl in *; try done; lia. }
  assert (created_ids (v_emitted v ++ [ev]) = created_ids (v_emitted v)) as Hids.
  { rewrite created_ids_snoc. destruct ev; simpl in *; try done; apply app_nil_r. }
  split; simpl; rewrite ?Hids; try done.
  - intros k H. rewrite Hcount. auto.
  - intros k. rewrite Hcount. auto.
Qed.

(** Deleting a key of the registry *)
Lemma view_ok_delete v k :
  view_ok v →
  view_ok {| v_terminals := map_delete k (v_terminals v); v_next := v_next v;
             v_emitted := v_emitted v |}.
Proof.
  intros [Hlt Hnd Hnone Honce Hclt Hsort]. split; simpl; try done.
  - intros k' [_ H]%elem_of_map_delete. auto.
  - by apply NoDup_filter.
  - intros k' H. apply Hnone. destruct H as [[_ ?]%elem_of_map_delete|H]; auto.
Qed.

Lemma view_ok_act v a : view_ok v → view_ok (act v a).
Proof.
  intros Hv. destruct a as [k d|k c s|k e|n cwd| |k|c]; simpl.
  - case_bool_decide; [by apply view_ok_emit|by destruct v].
  - case_bool_decide as Hk; [|by apply view_ok_delete].
    destruct Hv as [Hlt Hnd Hnone Honce Hclt Hsort]. split; simpl.
    + intros k' [_ H]%elem_of_map_delete. auto.
    + by apply NoDup_filter.
    + intros k' H. rewrite count_snoc. simpl. case_bool_decide as Hkk.
      * subst k'. destruct H as [[? _]%elem_of_map_delete|H]; [done|].
        apply Hlt in Hk. lia.
      * rewrite Hnone; [done|].
        destruct H as [[_ ?]%elem_of_map_delete|H]; auto.
    + intros k'. rewrite count_snoc. simpl. case_bool_decide as Hkk.
      * subst k'. rewrite Hnone by auto. done.
      * specialize (Honce k'). lia.
    + by rewrite created_ids_snoc, app_nil_r.
    + by rewrite created_ids_snoc, app_nil_r.
  - case_bool_decide; [by apply view_ok_emit|by destruct v].
  - destruct Hv as [Hlt Hnd Hnone Honce Hclt Hsort].
    assert (v_next v ∉ v_terminals v) as Hfresh.
    { intros H%Hlt. lia. }
    rewrite (map_set_fresh _ _ Hfresh).
    split; simpl.
    + intros k [H| ->%list_elem_of_singleton]%elem_of_app; [apply Hlt in H|]; lia.
    + apply NoDup_app. split_and!; [done| |apply NoDup_singleton].
      intros k Hk ->%list_elem_of_singleton. done.
    + intros k H. rewrite count_snoc. simpl. rewrite Hnone; [done|].
      destruct H as [[H| ->%list_elem_of_singleton]%elem_of_app|H]; auto.
      * right. lia.
      * right. lia.
    + intros k. rewrite count_snoc. simpl. specialize (Honce k). lia.
    + rewrite created_ids_snoc. apply Forall_app. split.
      * eapply Forall_impl; [exact Hclt|]. simpl. intros; lia.
      * apply Forall_singleton. lia.
    + rewrite created_ids_snoc. apply StronglySorted_app. split_and!.
      * intros x1 x2 Hx1 ->%list_elem_of_singleton.
        rewrite Forall_forall in Hclt. by apply Hclt.
      * done.
      * repeat constructor.
  - destruct Hv as [Hlt Hnd Hnone Honce Hclt Hsort]. split; simpl; try done.
    + intros k H%Hlt. lia.
    + intros k H. apply Hnone. destruct H; [auto|right; lia].
    + eapply Forall_impl; [exact Hclt|]. simpl. intros; lia.
  - apply (view_ok_emit
             {| v_terminals := map_delete k (v_terminals v); v_next := v_next v;
                v_emitted := v_emitted v |}); [done..|].
    by apply view_ok_delete.
  - by apply view_ok_emit.
Qed.

Lemma view_ok_reaches v v' : reaches v v' → view_ok v → view_ok v'.
Proof.
  intros [l ->]. revert v. induction l as [|a l IH]; intros v Hv; simpl; [done|].
  by apply IH, view_ok_act.
Qed.


(** ** Operations that neither allocate an id nor touch the store *)

Lemma quietly_refl v : quietly v v.
Proof. by exists []. Qed.

Lemma quietly_trans v1 v2 v3 : quietly v1 v2 → quietly v2 v3 → quietly v1 v3.
Proof.
  intros (l1 & H1 & ->) (l2 & H2 & ->). exists (l1 ++ l2). split.
  - by apply Forall_app.
  - by rewrite fold_left_app.
Qed.

Lemma quietly_act v a : quiet a → quietly v (act v a).
Proof. intros H. exists [a]. split; [by apply Forall_singleton|done]. Qed.

Lemma quietly_reaches v v' : quietly v v' → reaches v v'.
Proof. intros (l & _ & ->). by exists l. Qed.

Lemma quietly_next v v' : quietly v v' → v_next v' = v_next v.
Proof.
  intros (l & Hl & ->). revert v. induction Hl as [|a l Ha _ IH]; intros v; [done|].
  simpl. rewrite IH. by destruct a.
Qed.

Lemma quietly_registered v v' k :
  quietly v v' → k ∈ v_terminals v' → k ∈ v_terminals v.
Proof.
  intros (l & Hl & ->). revert v. induction Hl as [|a l Ha _ IH]; intros v; [done|].
  simpl. intros H%IH. destruct a; simpl in *; try done.
  all: by apply elem_of_map_delete in H as [_ ?].
Qed.

Lemma frames_refl w : frames w w.
Proof. split; [done|apply quietly_refl]. Qed.

Lemma frames_trans w1 w2 w3 : frames w1 w2 → frames w2 w3 → frames w1 w3.
Proof.
  intros [S1 Q1] [S2 Q2]. split; [congruence|by eapply quietly_trans].
Qed.

Lemma frames_same w w' : store w' = store w → view w' = view w → frames w w'.
Proof. intros Hs Hv. split; [done|]. rewrite Hv. apply quietly_refl. Qed.

Lemma frames_fold {A} (f : World → A → World) (l : list A) (w : World) :
  (∀ w a, frames w (f w a)) → frames w (fold_left f l w).
Proof.
  intros Hf. revert w. induction l as [|a l IH]; intros w; simpl.
  - apply frames_refl.
  - eapply frames_trans; [apply Hf | apply IH].
Qed.

Lemma frames_dataHandler k d w : frames w (dataHandler k d w).
Proof.
  split; [unfold dataHandler; by case_match|].
  rewrite view_dataHandler. by apply quietly_act.
Qed.

Lemma frames_exitHandler k c s w : frames w (exitHandler k c s w).
Proof.
  split; [unfold exitHandler; by case_match|].
  rewrite view_exitHandler. by apply quietly_act.
Qed.

Lemma frames_errorHandler k e w : frames w (errorHandler k e w).
Proof.
  split; [unfold errorHandler; by case_match|].
  rewrite view_errorHandler. by apply quietly_act.
Qed.

Lemma frames_emit_data k d w : frames w (emit_data k d w).
Proof.
  unfold emit_data. destruct (store w !! k); [|apply frames_refl].
  apply frames_fold. intros. apply frames_dataHandler.
Qed.

Lemma frames_emit_exit k c s w : frames w (emit_exit k c s w).
Proof.
  unfold emit_exit. destruct (store w !! k); [|apply frames_refl].
  apply frames_fold. intros. apply frames_exitHandler.
Qed.

Lemma frames_emit_error k e w : frames w (emit_error k e w).1.
Proof.
  unfold emit_error. destruct (store w !! k) as [t|]; [|apply frames_refl].
  destruct (on_error (listeners t)) as [|h hs] eqn:E; [apply frames_refl|].
  cbn [fst]. apply frames_fold. intros. apply frames_errorHandler.
Qed.

(** ** The invariant of the world *)

Lemma world_ok_new : world_ok new_TerminalService.
Proof.
  split.
  - apply view_ok_new.
  - intros k t H. simpl in H. by rewrite lookup_empty in H.
  - intros k [t H]. simpl in H. by rewrite lookup_empty in H.
  - intros k H. by apply elem_of_nil in H.
Qed.

Lemma world_ok_frames w w' : frames w w' → world_ok w → world_ok w'.
Proof.
  intros [Hs Hq] [Hv Hi Ha Hr]. split.
  - eapply view_ok_reaches; [by apply quietly_reaches|done].
  - rewrite Hs. done.
  - rewrite Hs. intros k H. apply Ha in H.
    apply quietly_next in Hq. simpl in Hq. lia.
  - rewrite Hs. intros k H. apply Hr.
    by apply (quietly_registered _ _ _ Hq).
Qed.

Lemma world_ok_same w w' :
  store w' = store w → view w' = view w → world_ok w → world_ok w'.
Proof. intros. eapply world_ok_frames; [by apply frames_same|done]. Qed.

(** Replacing an instance of the store *)
Lemma world_ok_put k t t' w :
  store w !! k = Some t → instance_ok k t' → world_ok w → world_ok (put k t' w).
Proof.
  intros Hk Ht [Hv Hi Ha Hr]. split; simpl.
  - done.
  - intros k' t''. rewrite lookup_insert. case_decide; [|by apply Hi].
    intros [= <-]. by subst.
  - intros k' H. apply Ha. rewrite lookup_insert in H.
    case_decide; [subst; by rewrite Hk|done].
  - intros k' H. rewrite lookup_insert. case_decide; [done|by apply Hr].
Qed.


(** ** dispose *)

Lemma sigterms_set_pty_listeners d e r p t :
  sigterms (set_pty (Some (pty_listeners d e r p)) t) = sigterms (set_pty (Some p) t).
Proof. done. Qed.

Lemma dispose_listener_keeps d t :
  _id (dispose_listener d t) = _id t
  ∧ _isDisposed (dispose_listener d t) = _isDisposed t
  ∧ sigterms (dispose_listener d t) = sigterms t
  ∧ sigkills (dispose_listener d t) = sigkills t.
Proof.
  unfold dispose_listener, sigterms, sigkills.
  destruct (_pty t) eqn:E; [|by rewrite E]. by destruct d.
Qed.

Lemma dispose_listeners_keep ds t :
  let t' := fold_left (λ t d, dispose_listener d t) ds t in
  _id t' = _id t ∧ _isDisposed t' = _isDisposed t
  ∧ sigterms t' = sigterms t ∧ sigkills t' = sigkills t.
Proof.
  revert t. induction ds as [|d ds IH]; intros t; simpl; [done|].
  destruct (IH (dispose_listener d t)) as (-> & -> & -> & ->).
  destruct (dispose_listener_keeps d t) as (-> & -> & -> & ->). done.
Qed.

Lemma filter_snoc {A} (f : A → bool) l x :
  List.filter f (l ++ [x]) = List.filter f l ++ (if f x then [x] else []).
Proof. rewrite List.filter_app. simpl. by destruct (f x). Qed.

(** What a disposal that runs does: the instance is replaced by a disposed
    one that received exactly one more SIGTERM, a timer is armed, and neither
    the registry nor the emitted events change. *)
Lemma dispose_runs k w t :
  store w !! k = Some t → _isDisposed t = false →
  ∃ t' w',
    dispose k w = put k t' w' ∧ store w' = store w ∧ view w' = view w
    ∧ _id t' = _id t ∧ _isDisposed t' = true
    ∧ sigterms t' = match _pty t with Some _ => S (sigterms t) | None => 0 end.
Proof.
  intros Hk Hd. unfold dispose. rewrite Hk, Hd.
  set (t1 := match _handlers (set_isDisposed true t) with
             | Some h => _ | None => _ end).
  assert (_id t1 = _id t ∧ _isDisposed t1 = true ∧ _pty t1 = _pty t)
    as (I1 & D1 & P1).
  { unfold t1. by destruct (_handlers _). }
  clearbody t1. rewrite P1.
  destruct (_pty t) as [p|] eqn:Ep.
  - unfold kill.
    destruct (pty_kill p SIGTERM) as [e1|];
      [destruct (pty_kill (pty_killed SIGTERM p) SIGKILL) as [e2|]|].
    all: eexists _, _; split; [reflexivity|]; split; [done|]; split; [done|].
    all: match goal with
         | |- context [fold_left _ ?ds ?t0] =>
             destruct (dispose_listeners_keep ds t0) as (Hi & Hdd & Hs & _);
             set (t2 := fold_left _ ds t0) in *; clearbody t2
         end.
    all: simpl in Hi, Hdd, Hs.
    all: assert (∀ t3, _id t3 = _id t2 → _isDisposed t3 = _isDisposed t2 →
                   sigterms t3 = sigterms t2 →
                   _id t3 = _id t ∧ _isDisposed t3 = true ∧
                   sigterms t3 = S (sigterms t)) as Hfin
           by (intros t3 -> -> ->; rewrite Hi, Hdd, Hs, I1, D1;
               unfold sigterms; simpl; rewrite Ep; simpl;
               rewrite ?filter_snoc, ?length_app; simpl;
               rewrite ?Nat.add_0_r; split_and!; try done; lia).
    all: apply Hfin; destruct (_pty (set_disposables [] t2)) eqn:E2;
      simpl in *; try done.
    all: unfold sigterms; simpl; simpl in E2; by rewrite E2.
  - eexists _, _. split; [reflexivity|]. split; [done|]. split; [done|].
    match goal with
    | |- context [fold_left _ ?ds ?t0] =>
        pose proof (dispose_listeners_keep ds t0) as (Hi & Hdd & Hs & _);
        set (t2 := fold_left _ ds t0) in *; clearbody t2
    end.
    simpl in *.
    assert (sigterms t1 = 0) as S1 by (unfold sigterms; by rewrite P1).
    destruct (_pty t2) eqn:E2; simpl; rewrite ?Hi, ?Hdd, ?I1, ?D1; split_and!; try done.
    + unfold sigterms in *. simpl. rewrite E2 in Hs. lia.
    + unfold sigterms in *. simpl. rewrite E2 in *. lia.
Qed.


Lemma world_ok_dispose k w : world_ok w → world_ok (dispose k w).
Proof.
  intros Hw. destruct (store w !! k) as [t|] eqn:Hk.
  2: { unfold dispose. by rewrite Hk. }
  destruct (_isDisposed t) eqn:Hd.
  { unfold dispose. by rewrite Hk, Hd. }
  destruct (dispose_runs k w t Hk Hd) as (t' & w' & -> & Hs & Hv & Hi & Hd' & Hn).
  destruct (ok_instance w Hw k t Hk) as [Hid _ Hact].
  apply (world_ok_put k t); [by rewrite Hs| |by apply (world_ok_same w)].
  split; [congruence| |congruence].
  rewrite Hn. destruct (_pty t); [|lia].
  destruct (Hact Hd) as [-> _ _ _]. lia.
Qed.

Lemma world_ok_run_task k w : world_ok w → world_ok (run_task k w).
Proof.
  intros Hw. destruct k as [k|k|k]; simpl.
  - unfold run_killTimeout. destruct (store w !! k) as [t|] eqn:Hk; [|done].
    destruct (ok_instance w Hw k t Hk) as [Hid Hle Hact].
    destruct (_pty t) as [p|] eqn:Ep; [|by apply (world_ok_same w)].
    assert (instance_ok k (set_pty (Some (pty_killed SIGKILL p)) t)) as Hok.
    { split; [done| |].
      - unfold sigterms in *. simpl. rewrite Ep in Hle.
        rewrite filter_snoc, length_app. simpl. lia.
      - simpl. intros Hd. destruct (Hact Hd) as [Hs Hh Hl (p' & Hp & ? & ? & ?)].
        rewrite Ep in Hp. injection Hp as <-. split; try done.
        + unfold sigterms in *. simpl. rewrite Ep in Hs.
          rewrite filter_snoc, length_app. simpl. lia.
        + by exists (pty_killed SIGKILL p). }
    unfold kill. destruct (pty_kill p SIGKILL).
    + eapply world_ok_same; [| |by apply (world_ok_put k t)]; done.
    + by apply (world_ok_put k t).
  - by apply world_ok_dispose.
  - unfold run_immediateDisposeUnlessDisposed.
    destruct (store w !! k) as [t|]; [|done].
    destruct (_isDisposed t); [done|]. by apply world_ok_dispose.
Qed.

(** A call on the process handle that leaves the kill log and the listeners
    as they were keeps the instance well formed. *)
Lemma instance_ok_pty k t p p' c r :
  _pty t = Some p → killLog p' = killLog p → dataListener p' = dataListener p →
  exitListener p' = exitListener p → errorListener p' = errorListener p →
  instance_ok k t → instance_ok k (set_pty (Some p') (set_dimensions c r t)).
Proof.
  intros Ep Hk H1 H2 H3 [Hid Hle Hact]. split; [done| |].
  - unfold sigterms in *. simpl. rewrite Ep in Hle. by rewrite Hk.
  - simpl. intros Hd. destruct (Hact Hd) as [Hs Hh Hl (p0 & Hp & ? & ? & ?)].
    rewrite Ep in Hp. injection Hp as <-. split; try done.
    + unfold sigterms in *. simpl. rewrite Ep in Hs. by rewrite Hk.
    + exists p'. simpl. split_and!; congruence.
Qed.

Lemma instance_ok_pty' k t p p' :
  _pty t = Some p → killLog p' = killLog p → dataListener p' = dataListener p →
  exitListener p' = exitListener p → errorListener p' = errorListener p →
  instance_ok k t → instance_ok k (set_pty (Some p') t).
Proof.
  intros. replace t with (set_dimensions (_cols t) (_rows t) t) by by destruct t.
  by apply (instance_ok_pty k t p).
Qed.

Lemma world_ok_write k d w : world_ok w → world_ok (write k d w).1.
Proof.
  intros Hw. unfold write. destruct (store w !! k) as [t|] eqn:Hk; [|done].
  destruct (_isDisposed t) eqn:Hd; [done|].
  destruct (_pty t) as [p|] eqn:Ep; [|done].
  pose proof (ok_instance w Hw k t Hk) as Hok.
  destruct (pty_write p d) as [e|]; simpl.
  - eapply world_ok_frames; [apply frames_emit_error|].
    set (w1 := log _ _).
    assert (world_ok w1) as H1.
    { eapply world_ok_same; [| |apply (world_ok_put k t); [done| |done]]; try done.
      by apply (instance_ok_pty' k t p). }
    destruct (broken_channel e); [|done]. by apply (world_ok_same w1).
  - apply (world_ok_put k t); [done| |done]. by apply (instance_ok_pty' k t p).
Qed.

Lemma world_ok_resize k c r w : world_ok w → world_ok (resize k c r w).1.
Proof.
  intros Hw. unfold resize. destruct (store w !! k) as [t|] eqn:Hk; [|done].
  destruct (_isDisposed t) eqn:Hd; [done|].
  destruct (_pty t) as [p|] eqn:Ep; [|done].
  pose proof (ok_instance w Hw k t Hk) as Hok.
  destruct (pty_resize p c r) as [e|]; simpl.
  - eapply world_ok_frames; [apply frames_emit_error|].
    set (w1 := log _ _).
    assert (world_ok w1) as H1.
    { eapply world_ok_same; [| |apply (world_ok_put k t); [done| |done]]; try done.
      by apply (instance_ok_pty k t p). }
    destruct (broken_channel e); [|done]. by apply (world_ok_same w1).
  - apply (world_ok_put k t); [done| |done]. by apply (instance_ok_pty k t p).
Qed.

Lemma world_ok_pty_emits_data k d w : world_ok w → world_ok (pty_emits_data k d w).
Proof.
  intros Hw. unfold pty_emits_data, onDataListener_cb.
  repeat case_match; try done.
  eapply world_ok_frames; [apply frames_emit_data|done].
Qed.

Lemma world_ok_pty_emits_exit k c s w :
  world_ok w → world_ok (pty_emits_exit k c s w).
Proof.
  intros Hw. unfold pty_emits_exit.
  destruct (store w !! k) as [t|] eqn:Hk; [|done].
  destruct (_pty t) as [p|] eqn:Ep; [|done].
  assert (world_ok (put k (set_pty (Some (pty_exited p)) t) w)) as H1.
  { apply (world_ok_put k t); [done| |done].
    apply (instance_ok_pty' k t p); try done. by apply (ok_instance w Hw). }
  destruct (exitListener p); [|done].
  unfold onExitListener_cb. repeat case_match; try done.
  match goal with
  | |- world_ok (schedule ?x (emit_exit ?a ?b ?c ?w0)) =>
      apply (world_ok_same (emit_exit a b c w0)); [done..|];
      apply (world_ok_frames w0); [apply frames_emit_exit|];
      by apply (world_ok_same (put k (set_pty (Some (pty_exited p)) t) w))
  end.
Qed.

Lemma world_ok_pty_emits_error k e w :
  world_ok w → world_ok (pty_emits_error k e w).
Proof.
  intros Hw. unfold pty_emits_error, errorHandler_cb.
  repeat case_match; try done.
  eapply world_ok_frames; [apply frames_emit_error|]. by apply (world_ok_same w).
Qed.


(** ** createTerminal *)

Lemma spawnShell_frame sp cwd o w :
  store (spawnShell sp cwd o w).1 = store w
  ∧ view (spawnShell sp cwd o w).1 = view w
  ∧ tasks (spawnShell sp cwd o w).1 = tasks w.
Proof. unfold spawnShell. by repeat case_match; simplify_eq. Qed.

(** The instance that createTerminal registers for a process handle. *)
Lemma new_instance_ok k p sp cwd :
  let t := new_TerminalInstance k (Some (spawned p)) sp cwd in
  let l := listeners t in
  instance_ok k
    (set_handlers (Some {| h_data := k; h_exit := k; h_error := k |})
       (set_listeners
          {| on_data := on_data l ++ [k]; on_exit := on_exit l ++ [k];
             on_error := on_error l ++ [k] |} t)).
Proof.
  split; simpl; [done|unfold sigterms; simpl; lia|].
  intros _. split; try done. by eexists.
Qed.

(** A creation that returns: the id is the counter's value, the counter
    moves by one, the id is registered and bound to a fresh instance that is
    not disposed, and terminal-created is emitted. *)
Lemma createTerminal_returns pn cwd o w w' k :
  createTerminal pn cwd o w = (w', Return k) →
  k = _nextTerminalId w
  ∧ _nextTerminalId w' = (k + 1)%Z
  ∧ _terminals w' = map_set k (_terminals w)
  ∧ tasks w' = tasks w
  ∧ ∃ t, store w' = <[k := t]> (store w) ∧ instance_ok k t
         ∧ _isDisposed t = false ∧ sigterms t = 0 ∧ sigkills t = 0
         ∧ dimensions t = (JNum 80, JNum 30)
         ∧ emitted w' =
           emitted w ++ [terminal_created k (shellName t)
                           (js_or (js_default cwd JNull) (JStr process_cwd))].
Proof.
  unfold createTerminal.
  destruct (spawn_options _ _) as [so|e]; [|done].
  set (w1 := set_nextTerminalId _ w).
  destruct (spawnShell_frame (js_default pn JNull)
              (js_or (js_default cwd JNull) (JStr process_cwd)) so w1)
    as (Hs & Hv & Ht).
  unfold spawnShell in *.
  set (cfg := if truthy (js_default pn JNull) then _ else _) in *.
  destruct cfg as [cfg w2]. simpl in *.
  destruct (pty_spawn _ _ _ _); [done|]. simpl in *.
  intros [= <- <-]. simpl. unfold view in Hv. simpl in Hv.
  injection Hv as -> -> ->. rewrite Hs, Ht.
  split_and!; try done. eexists. split; [reflexivity|].
  split; [apply new_instance_ok|]. done.
Qed.

(** A creation that throws: the counter has moved by one, nothing else that
    the host observes has changed, and the failure is logged. *)
Lemma createTerminal_throws pn cwd o w w' e :
  createTerminal pn cwd o w = (w', Throw e) →
  _nextTerminalId w' = (_nextTerminalId w + 1)%Z
  ∧ _terminals w' = _terminals w
  ∧ store w' = store w
  ∧ emitted w' = emitted w
  ∧ tasks w' = tasks w
  ∧ last (console w') = Some (error_failed_to_create e).
Proof.
  unfold createTerminal.
  destruct (spawn_options _ _) as [so|e'].
  - set (w1 := set_nextTerminalId _ w).
    destruct (spawnShell_frame (js_default pn JNull)
                (js_or (js_default cwd JNull) (JStr process_cwd)) so w1)
      as (Hs & Hv & Ht).
    destruct (spawnShell _ _ _ w1) as [w2 [p|e']]; [done|]. simpl in *.
    intros [= <- <-]. simpl. unfold view in Hv. simpl in Hv.
    injection Hv as -> -> ->. rewrite Hs, Ht. split_and!; try done.
    apply last_snoc.
  - intros [= <- <-]. simpl. split_and!; try done. apply last_snoc.
Qed.

Lemma world_ok_createTerminal pn cwd o w :
  world_ok w → world_ok (createTerminal pn cwd o w).1.
Proof.
  intros Hw. pose proof Hw as [Hv Hi Ha Hr].
  assert (view_ok (view (createTerminal pn cwd o w).1)) as Hv'.
  { eapply view_ok_reaches; [apply reaches_createTerminal|done]. }
  destruct (createTerminal pn cwd o w) as [w' [k|e]] eqn:E; simpl in *.
  - apply createTerminal_returns in E
      as (-> & Hn & Hreg & _ & t & Hs & Hok & _).
    split; [done|..]; rewrite ?Hs, ?Hn, ?Hreg.
    + intros k t'. rewrite lookup_insert. case_decide; [|by apply Hi].
      by intros [= <-]; subst.
    + intros k. rewrite lookup_insert. case_decide; [lia|].
      intros Hk%Ha. lia.
    + intros k. rewrite lookup_insert. case_decide; [done|].
      unfold map_set. case_bool_decide; [by apply Hr|].
      intros [?| ->%list_elem_of_singleton]%elem_of_app; [by apply Hr|done].
  - apply createTerminal_throws in E as (Hn & Hreg & Hs & _).
    split; [done|..]; rewrite ?Hs, ?Hn, ?Hreg; try done.
    intros k Hk%Ha. lia.
Qed.


(** ** The service operations keep the invariant *)

Lemma world_ok_delete k w :
  world_ok w → world_ok (set_terminals (map_delete k (_terminals w)) w).
Proof.
  intros [Hv Hi Ha Hr]. split; simpl; try done.
  - by apply (view_ok_delete (view w)).
  - intros k' [_ H]%elem_of_map_delete. by apply Hr.
Qed.

Lemma world_ok_emit ev w :
  is_exit ev = false → is_created ev = false → world_ok w → world_ok (emit ev w).
Proof.
  intros He Hc [Hv Hi Ha Hr]. split; simpl; try done.
  by apply (view_ok_emit (view w)).
Qed.

Lemma world_ok_closeTerminal k w : world_ok w → world_ok (closeTerminal k w).1.
Proof.
  intros Hw. unfold closeTerminal. destruct (getTerminal k w); simpl.
  - set (w1 := dispose k (log (log_closing k) w)).
    apply (world_ok_same (emit (terminal_closed k)
             (set_terminals (map_delete k (_terminals w1)) w1))); [done..|].
    apply world_ok_emit; [done..|]. apply world_ok_delete, world_ok_dispose.
    by apply (world_ok_same w).
  - by apply (world_ok_same w).
Qed.

Lemma world_ok_fold {A} (f : World → A → World) (l : list A) (w : World) :
  (∀ w a, world_ok w → world_ok (f w a)) →
  world_ok w → world_ok (fold_left f l w).
Proof.
  intros Hf. revert w. induction l as [|a l IH]; intros w Hw; simpl; [done|].
  by apply IH, Hf.
Qed.

Lemma world_ok_closeAllTerminals w : world_ok w → world_ok (closeAllTerminals w).
Proof.
  unfold closeAllTerminals. apply world_ok_fold. intros. by apply world_ok_closeTerminal.
Qed.

Lemma world_ok_restore_entry d w : world_ok w → world_ok (restore_entry d w).
Proof.
  intros Hw. unfold restore_entry. destruct (get_prop d "shellProfile") as [sp|e].
  - pose proof (world_ok_createTerminal sp (prop d "cwd")
                  (JObj [("cols", prop d "cols"); ("rows", prop d "rows")]) w Hw) as H.
    destruct (createTerminal _ _ _ w) as [w' [k|e]]; [done|]. simpl in H.
    by apply (world_ok_same w').
  - by apply (world_ok_same w).
Qed.

Lemma world_ok_restoreTerminals st w :
  world_ok w → world_ok (restoreTerminals st w).1.
Proof.
  intros Hw. unfold restoreTerminals.
  destruct (negb (truthy st)); [done|].
  destruct (negb (truthy (prop st "terminals"))); [done|].
  set (w1 := if truthy (prop st "config") then _ else w).
  assert (world_ok w1) as H1.
  { unfold w1. destruct (truthy _); [|done]. by apply (world_ok_same w). }
  clearbody w1. destruct (prop st "terminals"); try done. simpl.
  apply world_ok_fold; [intros; by apply world_ok_restore_entry|done].
Qed.

Lemma world_ok_updateConfig u w : world_ok w → world_ok (updateConfig u w).
Proof.
  intros Hw. unfold updateConfig. apply world_ok_emit; [done..|].
  by apply (world_ok_same w).
Qed.

Lemma world_ok_step w e : world_ok w → world_ok (step w e).
Proof.
  intros Hw. destruct e; simpl.
  - by apply world_ok_createTerminal.
  - by apply world_ok_closeTerminal.
  - by apply world_ok_closeAllTerminals.
  - by apply world_ok_restoreTerminals.
  - by apply world_ok_updateConfig.
  - by apply world_ok_closeAllTerminals.
  - by apply world_ok_write.
  - by apply world_ok_resize.
  - by apply world_ok_dispose.
  - by apply world_ok_pty_emits_data.
  - by apply world_ok_pty_emits_exit.
  - by apply world_ok_pty_emits_error.
  - destruct (tasks w !! n); [|done].
    apply world_ok_run_task. by apply (world_ok_same w).
Qed.

Lemma world_ok_run evs w : world_ok w → world_ok (run evs w).
Proof. apply world_ok_fold. intros. by apply world_ok_step. Qed.

(** Every world that a run of the service reaches is well formed. *)
Lemma world_ok_reachable evs : world_ok (run evs new_TerminalService).
Proof. apply world_ok_run, world_ok_new. Qed.


(** ** Disposed is final *)

Lemma keeps_refl k w : keeps k w w.
Proof. intros t Ht. by exists t. Qed.

Lemma keeps_trans k w1 w2 w3 : keeps k w1 w2 → keeps k w2 w3 → keeps k w1 w3.
Proof.
  intros H12 H23 t Ht. destruct (H12 t Ht) as (t2 & Ht2 & H2).
  destruct (H23 t2 Ht2) as (t3 & Ht3 & H3). exists t3. split; [done|].
  intros Hd. destruct (H2 Hd) as [Hd2 Hs2]. destruct (H3 Hd2) as [Hd3 Hs3].
  split; [done|congruence].
Qed.

Lemma keeps_same k w w' : store w' = store w → keeps k w w'.
Proof. intros Hs t Ht. exists t. by rewrite Hs. Qed.

Lemma keeps_frames k w w' : frames w w' → keeps k w w'.
Proof. intros [Hs _]. by apply keeps_same. Qed.

(** Replacing the instance at [k'] by one that is as disposed as it was *)
Lemma keeps_put k k' t0 t1 w :
  store w !! k' = Some t0 →
  (_isDisposed t0 = true → _isDisposed t1 = true ∧ sigterms t1 = sigterms t0) →
  keeps k w (put k' t1 w).
Proof.
  intros H0 H1 t Ht. simpl. rewrite lookup_insert. case_decide.
  - subst k'. rewrite Ht in H0. injection H0 as <-. by exists t1.
  - by exists t.
Qed.

Lemma keeps_dispose k k' w : keeps k w (dispose k' w).
Proof.
  destruct (store w !! k') as [t0|] eqn:H0.
  2: { unfold dispose. rewrite H0. apply keeps_refl. }
  destruct (_isDisposed t0) eqn:Hd.
  { unfold dispose. rewrite H0, Hd. apply keeps_refl. }
  destruct (dispose_runs k' w t0 H0 Hd) as (t' & w' & -> & Hs & _).
  apply (keeps_trans k w w'); [by apply keeps_same|].
  apply (keeps_put k k' t0); [by rewrite Hs|congruence].
Qed.

Lemma keeps_run_task k j w : keeps k w (run_task j w).
Proof.
  destruct j as [k'|k'|k']; simpl.
  - unfold run_killTimeout. destruct (store w !! k') as [t0|] eqn:H0;
      [|apply keeps_refl].
    destruct (_pty t0) as [p|] eqn:Ep; [|by apply keeps_same].
    assert (keeps k w (put k' (set_pty (Some (pty_killed SIGKILL p)) t0) w)) as H.
    { apply (keeps_put k k' t0); [done|]. intros Hd. split; [done|].
      unfold sigterms. simpl. rewrite Ep, filter_snoc, length_app. simpl. lia. }
    unfold kill. destruct (pty_kill p SIGKILL); [|done].
    eapply keeps_trans; [exact H|by apply keeps_same].
  - apply keeps_dispose.
  - unfold run_immediateDisposeUnlessDisposed.
    destruct (store w !! k') as [t0|]; [|apply keeps_refl].
    destruct (_isDisposed t0); [apply keeps_refl|apply keeps_dispose].
Qed.

Lemma keeps_write k k' d w : keeps k w (write k' d w).1.
Proof.
  unfold write. destruct (store w !! k') as [t0|] eqn:H0; [|apply keeps_refl].
  destruct (_isDisposed t0) eqn:Hd; [apply keeps_refl|].
  destruct (_pty t0) as [p|] eqn:Ep; [|apply keeps_refl].
  destruct (pty_write p d) as [e|]; simpl.
  - eapply keeps_trans; [|apply keeps_frames, frames_emit_error].
    eapply keeps_trans; [apply (keeps_put k k' t0 (set_pty (Some (pty_failed p)) t0));
                           [done|congruence]|].
    apply keeps_same. by destruct (broken_channel e).
  - apply (keeps_put k k' t0); [done|congruence].
Qed.

Lemma keeps_resize k k' c r w : keeps k w (resize k' c r w).1.
Proof.
  unfold resize. destruct (store w !! k') as [t0|] eqn:H0; [|apply keeps_refl].
  destruct (_isDisposed t0) eqn:Hd; [apply keeps_refl|].
  destruct (_pty t0) as [p|] eqn:Ep; [|apply keeps_refl].
  destruct (pty_resize p c r) as [e|]; simpl.
  - eapply keeps_trans; [|apply keeps_frames, frames_emit_error].
    eapply keeps_trans;
      [apply (keeps_put k k' t0
                (set_pty (Some (pty_failed p)) (set_dimensions c r t0)));
         [done|congruence]|].
    apply keeps_same. by destruct (broken_channel e).
  - apply (keeps_put k k' t0); [done|congruence].
Qed.

Lemma keeps_pty_emits_exit k k' c s w : keeps k w (pty_emits_exit k' c s w).
Proof.
  unfold pty_emits_exit. destruct (store w !! k') as [t0|] eqn:H0; [|apply keeps_refl].
  destruct (_pty t0) as [p|] eqn:Ep; [|apply keeps_refl].
  assert (keeps k w (put k' (set_pty (Some (pty_exited p)) t0) w)) as H.
  { apply (keeps_put k k' t0); [done|]. intros Hd. split; [done|].
    unfold sigterms. simpl. by rewrite Ep. }
  destruct (exitListener p); [|done].
  eapply keeps_trans; [exact H|]. unfold onExitListener_cb.
  repeat case_match; try apply keeps_refl.
  apply keeps_same. simpl. by destruct (frames_emit_exit k' c s
    (log (log_process_exited k' c s) (put k' (set_pty (Some (pty_exited p)) t0) w))).
Qed.

Lemma keeps_createTerminal k pn cwd o w :
  world_ok w → keeps k w (createTerminal pn cwd o w).1.
Proof.
  intros Hw t Ht. destruct (createTerminal pn cwd o w) as [w' [j|e]] eqn:E; simpl.
  - apply createTerminal_returns in E as (-> & _ & _ & _ & t' & -> & _).
    exists t. split; [|done]. rewrite lookup_insert_ne; [done|].
    intros <-. pose proof (ok_allocated w Hw _ (mk_is_Some _ _ Ht)). lia.
  - apply createTerminal_throws in E as (_ & _ & -> & _). by exists t.
Qed.

Lemma keeps_closeTerminal k k' w : keeps k w (closeTerminal k' w).1.
Proof.
  unfold closeTerminal. destruct (getTerminal k' w); simpl; [|by apply keeps_same].
  eapply keeps_trans; [|apply keeps_same; reflexivity].
  eapply keeps_trans; [|apply (keeps_dispose k k')]. by apply keeps_same.
Qed.

Lemma keeps_fold {A} k (f : World → A → World) (l : list A) (w : World) :
  (∀ w a, world_ok w → world_ok (f w a)) →
  (∀ w a, world_ok w → keeps k w (f w a)) →
  world_ok w → keeps k w (fold_left f l w).
Proof.
  intros Hok Hf. revert w. induction l as [|a l IH]; intros w Hw; simpl.
  - apply keeps_refl.
  - eapply keeps_trans; [by apply Hf|]. by apply IH, Hok.
Qed.

Lemma keeps_restore_entry k d w : world_ok w → keeps k w (restore_entry d w).
Proof.
  intros Hw. unfold restore_entry. destruct (get_prop d "shellProfile") as [sp|e].
  - pose proof (keeps_createTerminal k sp (prop d "cwd")
                  (JObj [("cols", prop d "cols"); ("rows", prop d "rows")]) w Hw) as H.
    destruct (createTerminal _ _ _ w) as [w' [j|e]]; [done|]. simpl in H.
    eapply keeps_trans; [exact H|by apply keeps_same].
  - by apply keeps_same.
Qed.

Lemma keeps_step k w e : world_ok w → keeps k w (step w e).
Proof.
  intros Hw. destruct e; simpl.
  - by apply keeps_createTerminal.
  - apply keeps_closeTerminal.
  - apply keeps_fold; [intros; by apply world_ok_closeTerminal| |done].
    intros. apply keeps_closeTerminal.
  - unfold restoreTerminals.
    destruct (negb (truthy state)); [apply keeps_refl|].
    destruct (negb (truthy (prop state "terminals"))); [apply keeps_refl|].
    set (w1 := if truthy (prop state "config") then _ else w).
    assert (world_ok w1 ∧ keeps k w w1) as [H1 K1].
    { unfold w1. destruct (truthy _); [|split; [done|apply keeps_refl]].
      split; [by apply (world_ok_same w)|by apply keeps_same]. }
    clearbody w1. eapply keeps_trans; [exact K1|].
    destruct (prop state "terminals"); try apply keeps_refl. simpl.
    apply keeps_fold; [intros; by apply world_ok_restore_entry| |done].
    intros. by apply keeps_restore_entry.
  - by apply keeps_same.
  - apply keeps_fold; [intros; by apply world_ok_closeTerminal| |done].
    intros. apply keeps_closeTerminal.
  - apply keeps_write.
  - apply keeps_resize.
  - apply keeps_dispose.
  - apply keeps_frames. unfold pty_emits_data, onDataListener_cb.
    repeat case_match; try apply frames_refl. apply frames_emit_data.
  - apply keeps_pty_emits_exit.
  - unfold pty_emits_error, errorHandler_cb.
    repeat case_match; try apply keeps_refl.
    eapply keeps_trans; [|apply keeps_frames, frames_emit_error]. by apply keeps_same.
  - destruct (tasks w !! n); [|apply keeps_refl].
    eapply keeps_trans; [|apply keeps_run_task]. by apply keeps_same.
Qed.

(** In every continuation of a run, an instance is still in the store, and
    if it was disposed it is disposed and has received no further SIGTERM. *)
Lemma keeps_run k evs w : world_ok w → keeps k w (run evs w).
Proof.
  apply keeps_fold; intros; [by apply world_ok_step|by apply keeps_step].
Qed.

(** ** Disposed instances *)

(** C8: on a disposed instance [write(data)] and [resize(cols, rows)] are
    silent no-ops: each call returns normally and the world after the call
    is the world before it, so nothing is emitted, logged or scheduled and
    the stored dimensions, the disposed flag and the process handle of the
    instance are unchanged. *)
Theorem write_resize_disposed_noop this data cols rows w t :
  store w !! this = Some t → _isDisposed t = true →
  write this data w = (w, Return ()) ∧ resize this cols rows w = (w, Return ()).
Proof.
  intros Hk Hd. unfold write, resize. by rewrite Hk, Hd.
Qed.

(** C2: in every world that a run reaches, an instance has received at most
    one SIGTERM, and none while it is not disposed: a disposal sequence (which
    sends SIGTERM exactly once) has run at most once, whatever calls of
    dispose the run made (explicit, closeTerminal, after a process exit, after
    a broken channel).  On a disposed instance dispose and the two delayed
    disposals change nothing at all, a disposed instance stays disposed and
    receives no further SIGTERM in any continuation of the run, and dispose
    never emits an event of the service. *)
Theorem dispose_at_most_once evs k t :
  let w := run evs new_TerminalService in
  store w !! k = Some t →
  sigterms t ≤ 1
  ∧ (_isDisposed t = false →
     sigterms t = 0
     ∧ ∃ t', store (dispose k w) !! k = Some t'
             ∧ _isDisposed t' = true ∧ sigterms t' = 1)
  ∧ (_isDisposed t = true →
     dispose k w = w
     ∧ run_task (immediateDispose k) w = w
     ∧ run_task (immediateDisposeUnlessDisposed k) w = w
     ∧ ∀ evs', ∃ t', store (run evs' w) !! k = Some t'
                     ∧ _isDisposed t' = true ∧ sigterms t' = sigterms t)
  ∧ emitted (dispose k w) = emitted w.
Proof.
  intros w Hk. pose proof (world_ok_reachable evs) as Hw. fold w in Hw.
  destruct (ok_instance w Hw k t Hk) as [Hid Hle Hact].
  split_and!.
  - done.
  - intros Hd. destruct (Hact Hd) as [Hs _ _ (p & Hp & _)]. split; [done|].
    destruct (dispose_runs k w t Hk Hd) as (t' & w' & -> & _ & _ & _ & Hd' & Hn).
    exists t'. simpl. rewrite lookup_insert_eq. rewrite Hp, Hs in Hn. done.
  - intros Hd. simpl. unfold run_immediateDisposeUnlessDisposed, dispose.
    rewrite Hk, Hd. split_and!; try done.
    intros evs'. destruct (keeps_run k evs' w Hw t Hk) as (t' & Ht' & H).
    exists t'. by destruct (H Hd).
  - pose proof (view_dispose k w) as Hv. unfold view in Hv. by injection Hv.
Qed.


(** ** Terminal ids *)

Lemma reaches_next v v' : reaches v v' → (v_next v ≤ v_next v')%Z.
Proof.
  intros [l ->]. revert v. induction l as [|a l IH]; intros v; simpl; [done|].
  etrans; [|apply IH]. destruct a; simpl; lia.
Qed.

Lemma next_run evs w : (_nextTerminalId w ≤ _nextTerminalId (run evs w))%Z.
Proof. apply (reaches_next (view w) (view (run evs w))), reaches_run. Qed.

Lemma StronglySorted_lt_NoDup (l : list Z) : StronglySorted Z.lt l → NoDup l.
Proof.
  induction 1 as [|x l Hs IH Hx]; constructor; [|done].
  intros Hin. rewrite Forall_forall in Hx. apply Hx in Hin. lia.
Qed.

(** C7: the ids that a run of the service assigns, in creation order (the
    ids of its terminal-created events), are strictly increasing, hence
    pairwise distinct, whatever the run does between two creations (closing
    terminals included); and a creation in the world reached returns an id
    above all of them, which it appends to the ids assigned. *)
Theorem created_ids_increasing evs pn cwd o :
  let w := run evs new_TerminalService in
  let ids := created_ids (emitted w) in
  StronglySorted Z.lt ids
  ∧ NoDup ids
  ∧ Forall (λ k, k < _nextTerminalId w)%Z ids
  ∧ match createTerminal pn cwd o w with
    | (w', Return k) =>
        k = _nextTerminalId w ∧ Forall (λ k', k' < k)%Z ids
        ∧ created_ids (emitted w') = ids ++ [k]
    | (_, Throw _) => True
    end.
Proof.
  intros w ids. destruct (world_ok_reachable evs) as [[_ _ _ _ Hlt Hs] _ _ _].
  fold w in Hlt, Hs. simpl in Hlt, Hs. fold ids in Hlt, Hs.
  split_and!; [done|by apply StronglySorted_lt_NoDup|done|].
  destruct (createTerminal pn cwd o w) as [w' [k|e]] eqn:E; [|done].
  apply createTerminal_returns in E as (-> & _ & _ & _ & t & _ & _ & _ & _ & _ & _ & ->).
  split_and!; [done|done|]. by rewrite created_ids_snoc.
Qed.

(** The outcome of spawnShell is the outcome of the call of node-pty's spawn
    that it makes. *)
Lemma spawnShell_outcome sp cwd o w :
  ∃ sh a opts,
    (spawnShell sp cwd o w).2 =
    match pty_spawn (spawnCount w) sh a opts with
    | None => Return (spawned opts)
    | Some e => Throw e
    end.
Proof.
  unfold spawnShell.
  destruct (truthy sp); [destruct (List.find _ _)|].
  all: simpl.
  all: match goal with
       | |- context [pty_spawn ?n ?sh ?a ?opts] =>
           exists sh, a, opts; by destruct (pty_spawn n sh a opts)
       end.
Qed.

Lemma spawn_options_returns o :
  o ≠ JNull → ∃ so, spawn_options process_env (js_default o (JObj [])) = Return so.
Proof. intros Ho. unfold spawn_options. destruct o; try done; simpl; by eexists. Qed.

(** The outcome of spawnShell is the outcome of the call of spawn that it
    makes, and so is the outcome of createTerminal. *)
Lemma spawnShell_call sp cwd o w sh a opts :
  spawn_call sp cwd o = (sh, a, opts) →
  (spawnShell sp cwd o w).2 =
  match pty_spawn (spawnCount w) sh a opts with
  | None => Return (spawned opts)
  | Some e => Throw e
  end.
Proof.
  unfold spawn_call, spawnShell. intros [= <- <- <-].
  destruct (truthy sp); [destruct (List.find _ _)|]; simpl;
    by destruct (pty_spawn _ _ _ _).
Qed.

Lemma createTerminal_call_outcome pn cwd o w sh a opts :
  createTerminal_call pn cwd o = Some (sh, a, opts) →
  (createTerminal pn cwd o w).2 =
  match pty_spawn (spawnCount w) sh a opts with
  | None => Return (_nextTerminalId w)
  | Some e => Throw e
  end.
Proof.
  unfold createTerminal_call, createTerminal.
  destruct (spawn_options _ _) as [so|]; [|done]. intros Hc%(inj Some).
  set (w1 := set_nextTerminalId _ w).
  pose proof (spawnShell_call _ _ _ w1 _ _ _ Hc) as Hout.
  change (spawnCount w1) with (spawnCount w) in Hout.
  destruct (spawnShell _ _ _ w1) as [w2 [p|e']]; simpl in *;
    destruct (pty_spawn _ _ _ _); by simplify_eq.
Qed.

(** C10: when the call of spawn that a createTerminal call makes throws,
    the call rethrows the error, the registry and the object store are as
    before, and the id counter has moved by one; so a creation that returned
    [k1] before the failed call and a creation that returns [k2] after it
    differ by more than one, whatever happens in between. *)
Theorem failed_spawn_consumes_id pn cwd o w sh a opts e :
  createTerminal_call pn cwd o = Some (sh, a, opts) →
  pty_spawn (spawnCount w) sh a opts = Some e →
  ∃ w',
    createTerminal pn cwd o w = (w', Throw e)
    ∧ _terminals w' = _terminals w
    ∧ store w' = store w
    ∧ _nextTerminalId w' = (_nextTerminalId w + 1)%Z
    ∧ ∀ w0 pn1 cwd1 o1 w1 k1 evs1 evs2 pn2 cwd2 o2 w2 k2,
        createTerminal pn1 cwd1 o1 w0 = (w1, Return k1) →
        w = run evs1 w1 →
        createTerminal pn2 cwd2 o2 (run evs2 w') = (w2, Return k2) →
        (k1 + 1 < k2)%Z.
Proof.
  intros Hc Hspawn.
  pose proof (createTerminal_call_outcome pn cwd o w sh a opts Hc) as Hr.
  rewrite Hspawn in Hr.
  destruct (createTerminal pn cwd o w) as [w' r] eqn:E. simpl in Hr. subst r.
  exists w'. apply createTerminal_throws in E as (Hn & Hr & Hs & _).
  split_and!; try done.
  intros w0 pn1 cwd1 o1 w1 k1 evs1 evs2 pn2 cwd2 o2 w2 k2 E1 Hw E2.
  apply createTerminal_returns in E1 as (_ & Hn1 & _).
  apply createTerminal_returns in E2 as (-> & _).
  pose proof (next_run evs1 w1). pose proof (next_run evs2 w'). subst w. lia.
Qed.


(** ** After a terminal is retired *)

(** An id that was allocated and is not registered is never registered
    again, and no data, exit or error notification carries it from then on. *)
Lemma retired_act k v a f :
  (∀ ev, f ev = true → is_notification_of k ev = true) →
  k ∉ v_terminals v → (k < v_next v)%Z →
  (k ∉ v_terminals (act v a)) ∧ (k < v_next (act v a))%Z
  ∧ count f (v_emitted (act v a)) = count f (v_emitted v).
Proof.
  intros Hf Hk Hlt.
  assert (∀ ev, is_notification_of k ev = false →
                count f (v_emitted v ++ [ev]) = count f (v_emitted v)) as Hsnoc.
  { intros ev Hev. rewrite count_snoc. destruct (f ev) eqn:E; [|lia].
    apply Hf in E. congruence. }
  destruct a as [k' d|k' c s|k' e|n cwd| |k'|c]; simpl.
  - split_and!; [done..|]. case_bool_decide as Hin; [|done].
    apply Hsnoc. simpl. apply bool_decide_eq_false_2. by intros ->.
  - split_and!; [by intros [_ ?]%elem_of_map_delete|done|].
    case_bool_decide as Hin; [|done].
    apply Hsnoc. simpl. apply bool_decide_eq_false_2. by intros ->.
  - split_and!; [done..|]. case_bool_decide as Hin; [|done].
    apply Hsnoc. simpl. apply bool_decide_eq_false_2. by intros ->.
  - split_and!; [|lia|by apply Hsnoc].
    unfold map_set. case_bool_decide; [done|].
    intros [?| ->%list_elem_of_singleton]%elem_of_app; [done|lia].
  - split_and!; [done|lia|done].
  - split_and!; [by intros [_ ?]%elem_of_map_delete|done|by apply Hsnoc].
  - split_and!; [done|done|by apply Hsnoc].
Qed.

Lemma retired_reaches k v v' f :
  (∀ ev, f ev = true → is_notification_of k ev = true) →
  reaches v v' → k ∉ v_terminals v → (k < v_next v)%Z →
  (k ∉ v_terminals v') ∧ count f (v_emitted v') = count f (v_emitted v).
Proof.
  intros Hf [l ->]. revert v. induction l as [|a l IH]; intros v Hk Hlt; [done|].
  simpl. destruct (retired_act k v a f Hf Hk Hlt) as (Hk' & Hlt' & <-).
  by apply IH.
Qed.

Lemma retired_run k w evs f :
  (∀ ev, f ev = true → is_notification_of k ev = true) →
  k ∉ _terminals w → (k < _nextTerminalId w)%Z →
  (k ∉ _terminals (run evs w))
  ∧ count f (emitted (run evs w)) = count f (emitted w).
Proof.
  intros Hf Hk Hlt.
  apply (retired_reaches k (view w) (view (run evs w)) f); try done.
  apply reaches_run.
Qed.

Lemma not_elem_of_map_delete k l : k ∉ map_delete k l.
Proof. by intros [? _]%elem_of_map_delete. Qed.

(** What closeTerminal does for a registered id and for any other id. *)
Lemma closeTerminal_registered k w :
  world_ok w → k ∈ _terminals w →
  closeTerminal k w =
  (log (log_closed_and_removed k)
     (emit (terminal_closed k)
        (set_terminals (map_delete k (_terminals w))
           (log (log_disposed_successfully k)
              (dispose k (log (log_closing k) w))))), true).
Proof.
  intros Hw Hk. unfold closeTerminal, getTerminal, has.
  rewrite bool_decide_eq_true_2 by done.
  destruct (ok_registered w Hw k Hk) as [t ->].
  pose proof (view_dispose k (log (log_closing k) w)) as Hv.
  unfold view in Hv. simpl in Hv. injection Hv as Hr _ _.
  f_equal. simpl. by rewrite Hr.
Qed.

Lemma closeTerminal_unregistered k w :
  k ∉ _terminals w →
  closeTerminal k w = (log (warn_not_found_for_closing k) w, false).
Proof.
  intros Hk. unfold closeTerminal, getTerminal, has.
  by rewrite bool_decide_eq_false_2.
Qed.

Lemma store_dispose_log k l w : store (dispose k (log l w)) = store (dispose k w).
Proof. unfold dispose, kill. simpl. by repeat case_match; simplify_eq. Qed.

(** C4: for a registered id, closeTerminal returns true, has run dispose on
    the instance (the object store is the one that dispose leaves, and the
    instance is disposed) and has removed the id from the registry when it
    returns, without any further event of the process; getTerminal then finds
    nothing, and in every continuation of the run no terminal-data for the id
    is emitted and getTerminal still finds nothing.  For an id that is not
    registered closeTerminal returns false and the registry is unchanged. *)
Theorem closeTerminal_retires evs k :
  let w := run evs new_TerminalService in
  (k ∈ _terminals w →
   ∃ w',
     closeTerminal k w = (w', true)
     ∧ store w' = store (dispose k w)
     ∧ (∃ t, store w' !! k = Some t ∧ _isDisposed t = true)
     ∧ (k ∉ _terminals w')
     ∧ getTerminal k w' = None
     ∧ ∀ evs',
         count (is_data_of k) (emitted (run evs' w')) = count (is_data_of k) (emitted w)
         ∧ getTerminal k (run evs' w') = None)
  ∧ (k ∉ _terminals w →
     (closeTerminal k w).2 = false
     ∧ _terminals (closeTerminal k w).1 = _terminals w).
Proof.
  intros w. pose proof (world_ok_reachable evs) as Hw. fold w in Hw. split.
  - intros Hk. eexists. split; [by apply closeTerminal_registered|].
    set (w' := log _ _).
    assert (k ∉ _terminals w') as Hout by apply not_elem_of_map_delete.
    assert (k < _nextTerminalId w')%Z as Hlt.
    { pose proof (view_dispose k (log (log_closing k) w)) as Hv.
      unfold view in Hv. simpl in Hv. injection Hv as _ Hn _.
      simpl. rewrite Hn. by apply (registered_lt _ (ok_view w Hw)). }
    assert (∀ w'', k ∉ _terminals w'' → getTerminal k w'' = None) as Hget.
    { intros w'' H. unfold getTerminal, has. by rewrite bool_decide_eq_false_2. }
    split_and!; [apply store_dispose_log| |done|by apply Hget|].
    + change (store w') with (store (dispose k (log (log_closing k) w))).
      rewrite store_dispose_log.
      destruct (ok_registered w Hw k Hk) as [t Ht].
      destruct (_isDisposed t) eqn:Hd.
      * exists t. unfold dispose. by rewrite Ht, Hd.
      * destruct (dispose_runs k w t Ht Hd) as (t' & w1 & -> & _ & _ & _ & Hd' & _).
        exists t'. simpl. by rewrite lookup_insert_eq.
    + intros evs'.
      destruct (retired_run k w' evs' (is_data_of k)) as [Hk' Hc]; [|done..|].
      { intros [] H; simpl in *; done. }
      split; [|by apply Hget]. rewrite Hc. unfold w'. simpl.
      rewrite count_snoc. simpl.
      pose proof (view_dispose k (log (log_closing k) w)) as Hv.
      unfold view in Hv. simpl in Hv. injection Hv as _ _ ->. lia.
  - intros Hk. by rewrite closeTerminal_unregistered.
Qed.


(** ** terminal-exit *)

(** C3 (as amended): terminal-exit is emitted at most once per id in every
    run.  It is emitted exactly once, with the id, the exit code and the
    signal, when the process exits while its terminal is registered and not
    disposed, and the id is then removed from the registry.  It is not
    emitted when the process of a disposed instance exits.  closeTerminal
    of a registered terminal emits terminal-closed, with the id, and nothing
    else, and terminal-exit is never emitted for the id from then on. *)
Theorem terminal_exit_at_most_once evs k :
  let w := run evs new_TerminalService in
  count (is_exit_of k) (emitted w) ≤ 1
  ∧ (∀ t c s,
       k ∈ _terminals w → store w !! k = Some t → _isDisposed t = false →
       emitted (step w (PtyExit k c s)) = emitted w ++ [terminal_exit k c s]
       ∧ (k ∉ _terminals (step w (PtyExit k c s))))
  ∧ (∀ t c s,
       store w !! k = Some t → _isDisposed t = true →
       emitted (step w (PtyExit k c s)) = emitted w)
  ∧ (k ∈ _terminals w →
     emitted (closeTerminal k w).1 = emitted w ++ [terminal_closed k]
     ∧ ∀ evs', count (is_exit_of k) (emitted (run evs' (closeTerminal k w).1)) = 0).
Proof.
  intros w. pose proof (world_ok_reachable evs) as Hw. fold w in Hw.
  pose proof (ok_view w Hw) as Hv. split_and!.
  - apply (exit_once _ Hv).
  - intros t c s Hk Ht Hd.
    destruct (ok_instance w Hw k t Ht) as [_ _ Hact].
    destruct (Hact Hd) as [_ _ Hl (p & Hp & _ & He & _)].
    simpl. unfold pty_emits_exit. rewrite Ht, Hp, He.
    unfold onExitListener_cb. simpl. rewrite lookup_insert_eq. simpl. rewrite Hd.
    unfold emit_exit. simpl. rewrite lookup_insert_eq. simpl. rewrite Hl. simpl.
    unfold exitHandler, has. simpl. rewrite bool_decide_eq_true_2 by done.
    simpl. split; [done|apply not_elem_of_map_delete].
  - intros t c s Ht Hd. simpl. unfold pty_emits_exit. rewrite Ht.
    destruct (_pty t) as [p|]; [|done].
    unfold onExitListener_cb. simpl. rewrite lookup_insert_eq. simpl. rewrite Hd.
    by destruct (exitListener p).
  - intros Hk. rewrite (closeTerminal_registered k w Hw Hk). cbn [fst].
    set (w' := log _ _). split.
    { unfold w'. simpl.
      pose proof (view_dispose k (log (log_closing k) w)) as Hvd.
      unfold view in Hvd. simpl in Hvd. by injection Hvd as _ _ ->. }
    intros evs'.
    destruct (retired_run k w' evs' (is_exit_of k)) as [_ ->].
    + intros [] H; simpl in *; done.
    + apply not_elem_of_map_delete.
    + pose proof (view_dispose k (log (log_closing k) w)) as Hvd.
      unfold view in Hvd. simpl in Hvd. injection Hvd as _ Hn _.
      simpl. rewrite Hn. by apply (registered_lt _ Hv).
    + unfold w'. simpl. rewrite count_snoc. simpl.
      pose proof (view_dispose k (log (log_closing k) w)) as Hvd.
      unfold view in Hvd. simpl in Hvd. injection Hvd as _ _ ->.
      pose proof (exit_none _ Hv k (or_introl Hk)) as H0. simpl in H0.
      rewrite H0. done.
Qed.


(** ** Snapshots *)

(** C5 (as amended): the descriptor that getState produces for an instance
    has the keys id, shellProfile, cwd, cols and rows, in this order, its id
    is the id of the instance, and the snapshot of getTerminalState is
    [{ terminals: [descriptor, ...], config: {...} }] with one such
    descriptor per registered instance. *)
Theorem descriptor_shape w t :
  keys (getState t) = ["id"; "shellProfile"; "cwd"; "cols"; "rows"]
  ∧ prop (getState t) "id" = JNum (_id t)
  ∧ prop (getState t) "cols" = _cols t
  ∧ prop (getState t) "rows" = _rows t
  ∧ prop (getState t) "cwd" = _cwd t
  ∧ ∃ ds,
      getTerminalState w = JObj [("terminals", JArr ds); ("config", JObj (_config w))]
      ∧ ds = getState <$> getAllTerminals w
      ∧ Forall (λ d, keys d = ["id"; "shellProfile"; "cwd"; "cols"; "rows"]) ds.
Proof.
  split_and!; try done. eexists. split_and!; [done..|].
  apply Forall_fmap, Forall_true. done.
Qed.

(** ** resize *)

Lemma console_emit_error x k e w :
  x ∈ console w → x ∈ console (emit_error k e w).1.
Proof.
  unfold emit_error. destruct (store w !! k) as [t|]; [|done].
  destruct (on_error (listeners t)) as [|h hs]; [done|]. cbn [fst].
  generalize (h :: hs). clear. intros l. revert w.
  induction l as [|h l IH]; intros w H; simpl; [done|].
  apply IH. unfold errorHandler. by case_match.
Qed.

(** C6 (as amended): on an instance that is not disposed, resize(cols, rows)
    stores the requested dimensions whether or not the resize of the process
    succeeds.  When it succeeds the process has the new size; when it throws,
    the process keeps its size, the failure is logged, and the stored
    dimensions are the requested ones all the same. *)
Theorem resize_stores_dimensions this cols rows w t p :
  store w !! this = Some t → _isDisposed t = false → _pty t = Some p →
  ∃ t' p',
    store (resize this cols rows w).1 !! this = Some t'
    ∧ dimensions t' = (cols, rows)
    ∧ _pty t' = Some p'
    ∧ match pty_resize p cols rows with
      | None => size p' = (cols, rows) ∧ (resize this cols rows w).2 = Return ()
      | Some e =>
          size p' = size p
          ∧ error_resizing this (message e) ∈ console (resize this cols rows w).1
      end.
Proof.
  intros Ht Hd Hp. unfold resize. rewrite Ht, Hd, Hp.
  destruct (pty_resize p cols rows) as [e|].
  - set (w1 := if broken_channel e then _ else _).
    destruct (frames_emit_error this e w1) as [Hs _].
    assert (store w1 = <[this := set_pty (Some (pty_failed p))
                                   (set_dimensions cols rows t)]> (store w)) as Hs1.
    { unfold w1. by destruct (broken_channel e). }
    assert (error_resizing this (message e) ∈ console w1) as Hc1.
    { unfold w1. destruct (broken_channel e); simpl; apply elem_of_app; right;
        by apply list_elem_of_singleton. }
    eexists _, _. rewrite Hs, Hs1, lookup_insert_eq. split_and!; try done.
    by apply console_emit_error.
  - eexists _, _. simpl. rewrite lookup_insert_eq. done.
Qed.


(** ** restoreTerminals *)

Lemma spawnShell_set_config c sp cwd o w :
  spawnShell sp cwd o (set_config c w) =
  (set_config c (spawnShell sp cwd o w).1, (spawnShell sp cwd o w).2).
Proof.
  unfold spawnShell.
  destruct (truthy sp); [destruct (List.find _ _)|]; simpl.
  all: by destruct (pty_spawn _ _ _ _).
Qed.

Lemma createTerminal_set_config c pn cwd o w :
  createTerminal pn cwd o (set_config c w) =
  (set_config c (createTerminal pn cwd o w).1, (createTerminal pn cwd o w).2).
Proof.
  unfold createTerminal. destruct (spawn_options _ _); [|done].
  change (set_nextTerminalId ?n (set_config c w))
    with (set_config c (set_nextTerminalId n w)).
  rewrite spawnShell_set_config.
  by destruct (spawnShell _ _ _ _) as [w2 [p|e]].
Qed.

Lemma restore_entry_set_config c d w :
  restore_entry d (set_config c w) = set_config c (restore_entry d w).
Proof.
  unfold restore_entry. destruct (get_prop d "shellProfile"); [|done].
  rewrite createTerminal_set_config.
  by destruct (createTerminal _ _ _ w) as [w' [k|e]].
Qed.

Lemma restores_set_config c d w : restores d (set_config c w) = restores d w.
Proof.
  unfold restores. destruct (get_prop d "shellProfile"); [|done].
  by rewrite createTerminal_set_config.
Qed.

Lemma restored_set_config c ds w : restored ds (set_config c w) = restored ds w.
Proof.
  revert w. induction ds as [|d ds IH]; intros w; simpl; [done|].
  by rewrite restores_set_config, restore_entry_set_config, IH.
Qed.

Lemma fold_restore_entry_set_config c ds w :
  fold_left (λ w d, restore_entry d w) ds (set_config c w) =
  set_config c (fold_left (λ w d, restore_entry d w) ds w).
Proof.
  revert w. induction ds as [|d ds IH]; intros w; simpl; [done|].
  by rewrite restore_entry_set_config, IH.
Qed.

(** One entry: a terminal is registered under the next id, or the entry is
    skipped and the failure logged. *)
Lemma restore_entry_effect d w :
  world_ok w →
  if restores d w then
    _terminals (restore_entry d w) = _terminals w ++ [_nextTerminalId w]
    ∧ ∃ t, store (restore_entry d w) = <[_nextTerminalId w := t]> (store w)
           ∧ _isDisposed t = false
  else
    _terminals (restore_entry d w) = _terminals w
    ∧ store (restore_entry d w) = store w
    ∧ emitted (restore_entry d w) = emitted w
    ∧ ∃ e, last (console (restore_entry d w)) = Some (error_failed_to_restore e).
Proof.
  intros Hw. unfold restores, restore_entry.
  destruct (get_prop d "shellProfile") as [sp|e].
  - destruct (createTerminal _ _ _ w) as [w' [k|e]] eqn:E; simpl.
    + apply createTerminal_returns in E as (-> & _ & -> & _ & t & -> & _ & Hd & _).
      split; [|by exists t]. apply map_set_fresh.
      intros H%(registered_lt _ (ok_view w Hw)). simpl in H. lia.
    + apply createTerminal_throws in E as (_ & -> & -> & -> & _).
      split_and!; try done. exists e. apply last_snoc.
  - simpl. split_and!; try done. exists e. apply last_snoc.
Qed.

Lemma restore_entries_length ds w :
  world_ok w →
  length (_terminals (fold_left (λ w d, restore_entry d w) ds w)) =
  length (_terminals w) + restored ds w.
Proof.
  revert w. induction ds as [|d ds IH]; intros w Hw; simpl; [lia|].
  rewrite IH by by apply world_ok_restore_entry.
  pose proof (restore_entry_effect d w Hw) as H.
  destruct (restores d w).
  - destruct H as [-> _]. rewrite length_app. simpl. lia.
  - destruct H as [-> _]. lia.
Qed.

(** C9 (as amended): restoreTerminals goes through every entry of the
    snapshot, whatever happens to the entries before it, and the registry
    grows by the number of entries whose createTerminal call returns.  Such
    an entry is registered under a fresh id (the next of the counter).  An
    entry whose processing throws is skipped: the failure is logged, and the
    registry, the object store and the emitted events are as before.  A null
    or undefined entry throws.  For any other entry createTerminal calls
    spawn: the entry is restored exactly when this call returns, and it is
    skipped, with the error of the call logged, when the call throws.  No
    field of the entry is checked before the call: spawn gets the shell of
    the profile that shellProfile names, or the default shell when the name
    is falsy or unknown, and the columns, the rows and the working directory
    of the entry as they are, unless they are falsy, when it gets 80, 30,
    and the current or the home directory. *)
Theorem restore_skips_throwing_entries evs ds cfg :
  let w := run evs new_TerminalService in
  let st := JObj [("terminals", JArr ds); ("config", cfg)] in
  (restoreTerminals st w).2 = Return ()
  ∧ length (_terminals (restoreTerminals st w).1)
    = length (_terminals w) + restored ds w
  ∧ restored ds w ≤ length ds
  ∧ (∀ d w0, world_ok w0 → restores d w0 = true →
       _terminals (restore_entry d w0) = _terminals w0 ++ [_nextTerminalId w0]
       ∧ (_nextTerminalId w0 ∉ _terminals w0)
       ∧ is_Some (getTerminal (_nextTerminalId w0) (restore_entry d w0)))
  ∧ (∀ d w0, world_ok w0 → restores d w0 = false →
       _terminals (restore_entry d w0) = _terminals w0
       ∧ store (restore_entry d w0) = store w0
       ∧ emitted (restore_entry d w0) = emitted w0
       ∧ ∃ e, last (console (restore_entry d w0)) = Some (error_failed_to_restore e))
  ∧ (∀ w0, restores JNull w0 = false ∧ restores JUndefined w0 = false)
  ∧ (∀ d, d ≠ JNull → d ≠ JUndefined →
       ∃ sh a opts,
         restore_call d = Some (sh, a, opts)
         ∧ (∀ w0, restores d w0 = true ↔ pty_spawn (spawnCount w0) sh a opts = None)
         ∧ (∀ w0 e, pty_spawn (spawnCount w0) sh a opts = Some e →
              restores d w0 = false
              ∧ last (console (restore_entry d w0)) = Some (error_failed_to_restore e))
         ∧ (sh, a) =
           match (if truthy (prop d "shellProfile")
                  then List.find (name_is (prop d "shellProfile")) availableShells
                  else None) with
           | Some s => (shell s, args s)
           | None => (cfg_shell defaultShell, cfg_args defaultShell)
           end
         ∧ prop opts "cols" = js_or (prop d "cols") (JNum 80)
         ∧ prop opts "rows" = js_or (prop d "rows") (JNum 30)
         ∧ prop opts "cwd" =
           js_or (js_or (prop d "cwd") (JStr process_cwd)) (JStr os_homedir)).
Proof.
  intros w st. pose proof (world_ok_reachable evs) as Hw. fold w in Hw.
  assert (∀ w0, restored ds w0 ≤ length ds) as Hle.
  { clear. induction ds as [|d ds IH]; intros w0; simpl; [lia|].
    specialize (IH (restore_entry d w0)). destruct (restores d w0); lia. }
  split_and!.
  - done.
  - unfold restoreTerminals. simpl.
    destruct (truthy cfg); simpl.
    + rewrite fold_restore_entry_set_config. simpl.
      by apply restore_entries_length.
    + by apply restore_entries_length.
  - apply Hle.
  - intros d w0 H0 Hr. pose proof (restore_entry_effect d w0 H0) as H.
    rewrite Hr in H. destruct H as (Hreg & t & Hs & _). split_and!; [done| |].
    + intros H%(registered_lt _ (ok_view w0 H0)). simpl in H. lia.
    + unfold getTerminal, has. rewrite Hreg, bool_decide_eq_true_2.
      * rewrite Hs, lookup_insert_eq. done.
      * apply elem_of_app. right. by apply list_elem_of_singleton.
  - intros d w0 H0 Hr. pose proof (restore_entry_effect d w0 H0) as H.
    by rewrite Hr in H.
  - done.
  - intros d Hn Hu.
    assert (get_prop d "shellProfile" = Return (prop d "shellProfile")) as Eg
      by by destruct d.
    set (o := JObj [("cols", prop d "cols"); ("rows", prop d "rows")]).
    assert (restore_call d =
            Some (spawn_call (js_default (prop d "shellProfile") JNull)
                    (js_or (js_default (prop d "cwd") JNull) (JStr process_cwd))
                    (JObj [("cols", js_or (prop d "cols") (JNum 80));
                           ("rows", js_or (prop d "rows") (JNum 30));
                           ("env", js_or JUndefined process_env);
                           ("useConpty", JBool true)]))) as Ec.
    { unfold restore_call. by rewrite Eg. }
    destruct (spawn_call _ _ _) as [[sh a] opts] eqn:Es.
    exists sh, a, opts. split; [done|].
    assert (∀ w0, (createTerminal (prop d "shellProfile") (prop d "cwd") o w0).2 =
                  match pty_spawn (spawnCount w0) sh a opts with
                  | None => Return (_nextTerminalId w0)
                  | Some e => Throw e
                  end) as Hout.
    { intros w0. apply createTerminal_call_outcome.
      unfold restore_call in Ec. by rewrite Eg in Ec. }
    unfold spawn_call in Es. injection Es as Hsh Ha Hopts.
    split_and!.
    + intros w0. unfold restores. rewrite Eg. fold o. rewrite Hout.
      by destruct (pty_spawn _ _ _ _).
    + intros w0 e He. split.
      * unfold restores. rewrite Eg. fold o. by rewrite Hout, He.
      * unfold restore_entry. rewrite Eg. fold o.
        specialize (Hout w0). rewrite He in Hout.
        destruct (createTerminal _ _ _ w0) as [w' r]. simpl in Hout. subst r.
        apply last_snoc.
    + rewrite <- Hsh, <- Ha. clear.
      destruct (prop d "shellProfile"); simpl; try done;
        repeat case_match; done.
    + rewrite <- Hopts. clear. vm_compute. reflexivity.
    + rewrite <- Hopts. clear. vm_compute. reflexivity.
    + rewrite <- Hopts. clear. destruct (prop d "cwd"); vm_compute; reflexivity.
Qed.


(** * Further properties of the service *)

(** ** One instance at a time *)

Lemma touches_only_refl k w : touches_only k w w.
Proof. by intros k' _. Qed.

Lemma touches_only_trans k w1 w2 w3 :
  touches_only k w1 w2 → touches_only k w2 w3 → touches_only k w1 w3.
Proof. intros H1 H2 k' Hk. by rewrite H2, H1. Qed.

Lemma touches_only_same k w w' : store w' = store w → touches_only k w w'.
Proof. intros Hs k' _. by rewrite Hs. Qed.

Lemma touches_only_put k t w : touches_only k w (put k t w).
Proof. intros k' Hk. simpl. by rewrite lookup_insert_ne. Qed.

Lemma touches_only_dispose k w : touches_only k w (dispose k w).
Proof.
  destruct (store w !! k) as [t|] eqn:Hk.
  2: { unfold dispose. rewrite Hk. apply touches_only_refl. }
  destruct (_isDisposed t) eqn:Hd.
  { unfold dispose. rewrite Hk, Hd. apply touches_only_refl. }
  destruct (dispose_runs k w t Hk Hd) as (t' & w' & -> & Hs & _).
  eapply touches_only_trans; [by apply touches_only_same|apply touches_only_put].
Qed.

Lemma touches_only_run_task j w :
  touches_only (task_instance j) w (run_task j w).
Proof.
  destruct j as [k|k|k]; simpl.
  - unfold run_killTimeout, kill.
    destruct (store w !! k) as [t|]; [|apply touches_only_refl].
    destruct (_pty t) as [p|]; [|by apply touches_only_same].
    destruct (pty_kill p SIGKILL); [|apply touches_only_put].
    apply (touches_only_trans k w (put k (set_pty (Some (pty_killed SIGKILL p)) t) w));
      [apply touches_only_put|by apply touches_only_same].
  - apply touches_only_dispose.
  - unfold run_immediateDisposeUnlessDisposed.
    repeat case_match; try apply touches_only_refl. apply touches_only_dispose.
Qed.

Lemma store_emit_error k e w : store (emit_error k e w).1 = store w.
Proof. by destruct (frames_emit_error k e w). Qed.

Lemma store_emit_exit k c s w : store (emit_exit k c s w) = store w.
Proof. by destruct (frames_emit_exit k c s w). Qed.

Lemma store_emit_data k d w : store (emit_data k d w) = store w.
Proof. by destruct (frames_emit_data k d w). Qed.

Lemma touches_only_write k d w : touches_only k w (write k d w).1.
Proof.
  unfold write. repeat case_match; try apply touches_only_refl.
  all: try apply touches_only_put.
  all: intros k' Hk; rewrite store_emit_error; simpl; by rewrite lookup_insert_ne.
Qed.

Lemma touches_only_resize k c r w : touches_only k w (resize k c r w).1.
Proof.
  unfold resize. repeat case_match; try apply touches_only_refl.
  all: try apply touches_only_put.
  all: intros k' Hk; rewrite store_emit_error; simpl; by rewrite lookup_insert_ne.
Qed.

Lemma touches_only_pty_emits_exit k c s w :
  touches_only k w (pty_emits_exit k c s w).
Proof.
  unfold pty_emits_exit, onExitListener_cb.
  repeat case_match; try apply touches_only_refl; try apply touches_only_put.
  intros k' Hk. simpl. rewrite store_emit_exit. simpl. by rewrite lookup_insert_ne.
Qed.

(** X1: an event addressed to one instance (a call of closeTerminal, write,
    resize or dispose, an event of its process, one of its pending
    callbacks) leaves every other instance of the store exactly as it was,
    whatever the calls on node-pty do. *)
Theorem other_instances_untouched w e k k' :
  target w e = Some k → k' ≠ k → store (step w e) !! k' = store w !! k'.
Proof.
  intros Ht Hk. revert k' Hk. change (touches_only k w (step w e)).
  destruct e; simpl in Ht; try done; simpl.
  - injection Ht as ->. unfold closeTerminal.
    destruct (getTerminal k w); simpl; [|by apply touches_only_same].
    intros k' Hk. simpl.
    rewrite (touches_only_dispose k (log (log_closing k) w) k' Hk). done.
  - injection Ht as ->. apply touches_only_write.
  - injection Ht as ->. apply touches_only_resize.
  - injection Ht as ->. apply touches_only_dispose.
  - injection Ht as ->. apply touches_only_same.
    unfold pty_emits_data, onDataListener_cb.
    repeat case_match; try done. apply store_emit_data.
  - injection Ht as ->. apply touches_only_pty_emits_exit.
  - injection Ht as ->. apply touches_only_same.
    unfold pty_emits_error, errorHandler_cb.
    repeat case_match; try done. by rewrite store_emit_error.
  - destruct (tasks w !! n) as [j|] eqn:Hn; [|done].
    injection Ht as <-.
    apply (touches_only_trans _ w (set_tasks (delete n (tasks w)) w));
      [by apply touches_only_same|apply touches_only_run_task].
Qed.

(** ** Events that create no terminal *)

Lemma quietly_eq v v' : v' = v → quietly v v'.
Proof. intros ->. apply quietly_refl. Qed.

Lemma quietly_fold {A} (f : World → A → World) (l : list A) (w : World) :
  (∀ w a, quietly (view w) (view (f w a))) →
  quietly (view w) (view (fold_left f l w)).
Proof.
  intros Hf. revert w. induction l as [|a l IH]; intros w; simpl.
  - apply quietly_refl.
  - eapply quietly_trans; [apply Hf | apply IH].
Qed.

Lemma quietly_emit_error k e w : quietly (view w) (view (emit_error k e w).1).
Proof. by destruct (frames_emit_error k e w). Qed.

Lemma quietly_write k d w : quietly (view w) (view (write k d w).1).
Proof.
  unfold write. repeat case_match; try apply quietly_refl.
  all: eapply quietly_trans; [|apply quietly_emit_error]; by apply quietly_eq.
Qed.

Lemma quietly_resize k c r w : quietly (view w) (view (resize k c r w).1).
Proof.
  unfold resize. repeat case_match; try apply quietly_refl.
  all: eapply quietly_trans; [|apply quietly_emit_error]; by apply quietly_eq.
Qed.

Lemma quietly_closeTerminal k w : quietly (view w) (view (closeTerminal k w).1).
Proof.
  rewrite view_closeTerminal. destruct (closeTerminal k w).2.
  - by apply quietly_act.
  - apply quietly_refl.
Qed.

Lemma quietly_closeAllTerminals w : quietly (view w) (view (closeAllTerminals w)).
Proof.
  unfold closeAllTerminals. apply quietly_fold. intros. apply quietly_closeTerminal.
Qed.

Lemma quietly_step w e : creating e = false → quietly (view w) (view (step w e)).
Proof.
  intros He. destruct e; try done; simpl.
  - apply quietly_closeTerminal.
  - apply quietly_closeAllTerminals.
  - unfold updateConfig. exists [changes_config (spread (_config w) updates)].
    split; [by apply Forall_singleton|done].
  - apply quietly_closeAllTerminals.
  - apply quietly_write.
  - apply quietly_resize.
  - apply quietly_eq, view_dispose.
  - unfold pty_emits_data, onDataListener_cb.
    repeat case_match; try apply quietly_refl.
    by destruct (frames_emit_data this data w).
  - unfold pty_emits_exit, onExitListener_cb.
    repeat case_match; try apply quietly_refl.
    match goal with
    | |- quietly _ (view (schedule _ (emit_exit ?a ?b ?c ?w0))) =>
        change (quietly (view w0) (view (emit_exit a b c w0)));
        by destruct (frames_emit_exit a b c w0)
    end.
  - unfold pty_emits_error, errorHandler_cb.
    repeat case_match; try apply quietly_refl.
    match goal with
    | |- quietly _ (view (emit_error ?a ?b ?w0).1) =>
        change (quietly (view w0) (view (emit_error a b w0).1));
        apply quietly_emit_error
    end.
  - destruct (tasks w !! n); [|apply quietly_refl].
    apply quietly_eq. by rewrite view_run_task.
Qed.

(** X2: only createTerminal and restoreTerminals allocate ids and register
    terminals.  Every other event (closing, writing, resizing, disposing,
    events of a process, pending callbacks, configuration updates) leaves the
    id counter as it is and registers nothing: the registry after it is a
    part of the registry before it. *)
Theorem only_creation_registers w e k :
  creating e = false →
  _nextTerminalId (step w e) = _nextTerminalId w
  ∧ (k ∈ _terminals (step w e) → k ∈ _terminals w).
Proof.
  intros He. pose proof (quietly_step w e He) as Hq. split.
  - apply (quietly_next _ _ Hq).
  - apply (quietly_registered _ _ k Hq).
Qed.

(** ** The history invariant *)

Lemma created_first_snoc l ev :
  created_first l →
  (∀ k, is_notification_of k ev = true → k ∈ created_ids l) →
  created_first (l ++ [ev]).
Proof.
  intros Hl Hev l1 ev' l2 k Heq Hn.
  destruct l2 as [|x l2 _] using rev_ind.
  - apply app_inj_tail in Heq as [<- <-]. by apply Hev.
  - rewrite app_comm_cons, app_assoc in Heq.
    apply app_inj_tail in Heq as [-> _]. by apply (Hl l1 ev' l2).
Qed.

Lemma StronglySorted_filter (P : Z → Prop) `{∀ x, Decision (P x)} (l : list Z) :
  StronglySorted Z.lt l → StronglySorted Z.lt (filter P l).
Proof.
  induction 1 as [|x l Hs IH Hx]; [constructor|].
  rewrite filter_cons. case_decide; [|done].
  constructor; [done|]. rewrite Forall_forall in *.
  intros y [_ Hy]%list_elem_of_filter. by apply Hx.
Qed.

Lemma history_ok_new : history_ok (view new_TerminalService).
Proof.
  split; simpl.
  - constructor.
  - intros k H. by apply elem_of_nil in H.
  - done.
  - constructor.
  - intros l1 ev l2 k H. by destruct l1.
Qed.

Lemma history_ok_act v a : view_ok v → history_ok v → history_ok (act v a).
Proof.
  intros [Hlt _ _ _ Hclt _] [Hs Hc Hn Hp Hf].
  assert (∀ ev, is_created ev = false →
            created_ids (v_emitted v ++ [ev]) = created_ids (v_emitted v)) as Hids.
  { intros ev He. rewrite created_ids_snoc. destruct ev; try done; apply app_nil_r. }
  assert (∀ k' ev, k' ∈ v_terminals v →
            (∀ k, is_notification_of k ev = true → k = k') →
            created_first (v_emitted v ++ [ev])) as Hguard.
  { intros k' ev Hk' Hev. apply created_first_snoc; [done|].
    intros k ->%Hev. by apply Hc. }
  destruct a as [k d|k c s|k e|n cwd| |k|c]; simpl.
  - case_bool_decide as Hk; [|by destruct v]. split; simpl; rewrite ?Hids; try done.
    apply (Hguard k); [done|]. simpl. intros k'. by case_bool_decide.
  - assert (StronglySorted Z.lt (map_delete k (v_terminals v))) as Hs'
      by by apply StronglySorted_filter.
    case_bool_decide as Hk; split; simpl; rewrite ?Hids; try done.
    + intros k' [_ ?]%elem_of_map_delete. by apply Hc.
    + apply (Hguard k); [done|]. simpl. intros k'. by case_bool_decide.
    + intros k' [_ ?]%elem_of_map_delete. by apply Hc.
  - case_bool_decide as Hk; [|by destruct v]. split; simpl; rewrite ?Hids; try done.
    apply (Hguard k); [done|]. simpl. intros k'. by case_bool_decide.
  - assert (v_next v ∉ v_terminals v) as Hfresh.
    { intros H%Hlt. lia. }
    rewrite (map_set_fresh _ _ Hfresh). split; simpl; rewrite ?created_ids_snoc.
    + apply StronglySorted_app. split_and!; [|done|repeat constructor].
      intros x1 x2 Hx1 ->%list_elem_of_singleton. by apply Hlt.
    + intros k [H| ->%list_elem_of_singleton]%elem_of_app; apply elem_of_app.
      * left. by apply Hc.
      * right. by apply list_elem_of_singleton.
    + lia.
    + apply Forall_app. split; [done|]. by apply Forall_singleton.
    + apply created_first_snoc; [done|]. done.
  - split; simpl; try done. lia.
  - split; simpl; rewrite ?Hids; try done.
    + by apply StronglySorted_filter.
    + intros k' [_ ?]%elem_of_map_delete. by apply Hc.
    + apply created_first_snoc; [done|]. done.
  - split; simpl; rewrite ?Hids; try done.
    apply created_first_snoc; [done|]. done.
Qed.

Lemma history_ok_reaches v v' : reaches v v' → view_ok v → history_ok v → history_ok v'.
Proof.
  intros [l ->]. revert v. induction l as [|a l IH]; intros v Hv Hh; simpl; [done|].
  apply IH; [by apply view_ok_act|by apply history_ok_act].
Qed.

Lemma history_ok_reachable evs : history_ok (view (run evs new_TerminalService)).
Proof.
  eapply history_ok_reaches;
    [apply reaches_run|apply view_ok_new|apply history_ok_new].
Qed.

(** X3: in every world that a run reaches, the registry lists its ids in
    strictly increasing order (so without repetition), every registered id
    is at least 1 and below the id counter, getTerminal finds an instance
    exactly for the registered ids, the instance it finds has the id asked
    for, and getAllTerminals lists the instances of getAllTerminalIds in the
    same order. *)
Theorem registry_consistent evs :
  let w := run evs new_TerminalService in
  StronglySorted Z.lt (getAllTerminalIds w)
  ∧ NoDup (getAllTerminalIds w)
  ∧ Forall (λ k, 1 ≤ k < _nextTerminalId w)%Z (getAllTerminalIds w)
  ∧ (∀ k, k ∈ getAllTerminalIds w ↔ is_Some (getTerminal k w))
  ∧ (∀ k t, getTerminal k w = Some t → _id t = k)
  ∧ _id <$> getAllTerminals w = getAllTerminalIds w.
Proof.
  intros w. pose proof (world_ok_reachable evs) as Hw. fold w in Hw.
  pose proof (history_ok_reachable evs) as Hh. fold w in Hh.
  destruct Hw as [Hv Hi Ha Hr]. destruct Hh as [Hs Hc Hn Hp _].
  unfold getAllTerminalIds, getAllTerminals, getTerminal, has. simpl in *.
  split_and!.
  - done.
  - apply (registered_NoDup _ Hv).
  - apply Forall_forall. intros k Hk. split.
    + apply Hc in Hk. rewrite Forall_forall in Hp. by apply Hp.
    + by apply (registered_lt _ Hv).
  - intros k. case_bool_decide as Hk.
    + split; [intros _; by apply Hr|done].
    + split; [done|by intros [? ?]].
  - intros k t. case_bool_decide; [|done]. intros Ht. by destruct (Hi k t Ht).
  - generalize (_terminals w) Hr Hi. clear. intros l Hr Hi.
    induction l as [|k l IH]; [done|]. simpl.
    destruct (Hr k) as [t Ht]; [apply list_elem_of_here|].
    rewrite Ht. simpl. f_equal.
    + by destruct (Hi k t Ht).
    + apply IH. intros k' Hk'. apply Hr. by apply list_elem_of_further.
Qed.

(** X4: in every run, a terminal-data, terminal-exit or terminal-error event
    comes after the terminal-created event of its id, every registered id
    has its terminal-created event, and the ids created are at least 1. *)
Theorem notifications_follow_creation evs :
  let w := run evs new_TerminalService in
  created_first (emitted w)
  ∧ (∀ k, (k ∈ _terminals w) → k ∈ created_ids (emitted w))
  ∧ Forall (λ k, 1 ≤ k)%Z (created_ids (emitted w)).
Proof.
  intros w. destruct (history_ok_reachable evs) as [_ Hc _ Hp Hf]. done.
Qed.

(** ** createTerminal *)

Lemma createTerminal_instance pn cwd o w w' k :
  world_ok w →
  createTerminal pn cwd o w = (w', Return k) →
  k = _nextTerminalId w
  ∧ (k ∉ _terminals w)
  ∧ _terminals w' = _terminals w ++ [k]
  ∧ (∀ k', k' ≠ k → store w' !! k' = store w !! k')
  ∧ ∃ t, getTerminal k w' = Some t
         ∧ _id t = k
         ∧ _isDisposed t = false
         ∧ _cwd t = js_or (js_default cwd JNull) (JStr process_cwd)
         ∧ dimensions t = (JNum 80, JNum 30)
         ∧ (size <$> _pty t) =
           Some (js_or (prop (js_default o (JObj [])) "cols") (JNum 80),
                 js_or (prop (js_default o (JObj [])) "rows") (JNum 30))
         ∧ emitted w' = emitted w ++ [terminal_created k (shellName t) (_cwd t)].
Proof.
  intros Hw E.
  assert (_nextTerminalId w ∉ _terminals w) as Hfresh.
  { intros H%(registered_lt _ (ok_view w Hw)). simpl in H. lia. }
  revert E. unfold createTerminal.
  destruct (spawn_options _ _) as [so|e] eqn:Eso; [|done].
  set (w1 := set_nextTerminalId _ w).
  destruct (spawnShell_frame (js_default pn JNull)
              (js_or (js_default cwd JNull) (JStr process_cwd)) so w1)
    as (Hs & Hv & Ht).
  unfold spawnShell in *.
  set (cfg := if truthy (js_default pn JNull) then _ else _) in *.
  destruct cfg as [cfg w2]. simpl in *.
  destruct (pty_spawn _ _ _ _); [done|]. simpl in *.
  intros [= <- <-]. simpl. unfold view in Hv. simpl in Hv.
  injection Hv as H1 H2 H3. rewrite ?H1, ?H2, ?H3, ?Hs.
  split_and!; try done.
  - by apply map_set_fresh.
  - intros k' Hk'. by rewrite lookup_insert_ne.
  - eexists. unfold getTerminal, has. simpl.
    rewrite ?H1, ?H2, ?H3, ?Hs, bool_decide_eq_true_2, lookup_insert_eq.
    2: { rewrite map_set_fresh by done. apply elem_of_app. right.
         by apply list_elem_of_singleton. }
    split_and!; try done. simpl.
    unfold spawn_options in Eso.
    destruct (js_default o (JObj [])) eqn:Eo; simpl in Eso; try done.
    all: by injection Eso as <-.
Qed.

(** X5: a creation that returns registers the new id at the end of the
    registry and binds it to a fresh instance that getTerminal finds: the
    instance is not disposed, its working directory is the one asked for, or
    the working directory of the host process when none is given, and its
    stored dimensions are 80x30 whatever size was asked for, while the
    process is spawned with the size asked for (80 columns and 30 rows where
    the option is missing); terminal-created is emitted with the shell name
    and the working directory, and no other instance changes. *)
Theorem createTerminal_registers evs pn cwd o w' k :
  let w := run evs new_TerminalService in
  createTerminal pn cwd o w = (w', Return k) →
  k = _nextTerminalId w
  ∧ (k ∉ _terminals w)
  ∧ _terminals w' = _terminals w ++ [k]
  ∧ (∀ k', k' ≠ k → store w' !! k' = store w !! k')
  ∧ ∃ t, getTerminal k w' = Some t
         ∧ _id t = k
         ∧ _isDisposed t = false
         ∧ _cwd t = js_or (js_default cwd JNull) (JStr process_cwd)
         ∧ dimensions t = (JNum 80, JNum 30)
         ∧ (size <$> _pty t) =
           Some (js_or (prop (js_default o (JObj [])) "cols") (JNum 80),
                 js_or (prop (js_default o (JObj [])) "rows") (JNum 30))
         ∧ emitted w' = emitted w ++ [terminal_created k (shellName t) (_cwd t)].
Proof.
  intros w E. apply (createTerminal_instance pn cwd o w w' k); [|done].
  apply world_ok_reachable.
Qed.

(** ** Output and input of an active terminal *)

Lemma pty_emits_data_active k d w t :
  world_ok w → k ∈ _terminals w → store w !! k = Some t → _isDisposed t = false →
  pty_emits_data k d w = emit (terminal_data k d) w.
Proof.
  intros Hw Hk Ht Hd. destruct (ok_instance w Hw k t Ht) as [_ _ Hact].
  destruct (Hact Hd) as [_ _ Hl (p & Hp & Hdl & _)].
  unfold pty_emits_data, onDataListener_cb, emit_data.
  rewrite Ht, Hp, Hdl, Hd, Hl. simpl. unfold dataHandler, has.
  by rewrite bool_decide_eq_true_2.
Qed.

Lemma run_cons e evs w : run (e :: evs) w = run evs (step w e).
Proof. done. Qed.

(** X6: the output of the process of a registered terminal that is not
    disposed is forwarded as terminal-data events of its id, one per chunk
    and in the order of the chunks, and nothing else is emitted or changed
    in the registry. *)
Theorem output_forwarded_in_order evs k t ds :
  let w := run evs new_TerminalService in
  k ∈ _terminals w → store w !! k = Some t → _isDisposed t = false →
  emitted (run (PtyData k <$> ds) w) = emitted w ++ (terminal_data k <$> ds)
  ∧ _terminals (run (PtyData k <$> ds) w) = _terminals w
  ∧ store (run (PtyData k <$> ds) w) = store w.
Proof.
  intros w Hk Ht Hd. pose proof (world_ok_reachable evs) as Hw. fold w in Hw.
  clearbody w. revert w Hw Hk Ht.
  induction ds as [|d ds IH]; intros w Hw Hk Ht.
  { simpl. by rewrite app_nil_r. }
  rewrite fmap_cons, run_cons.
  pose proof (world_ok_step w (PtyData k d) Hw) as Hw'.
  change (step w (PtyData k d)) with (pty_emits_data k d w) in *.
  rewrite (pty_emits_data_active k d w t) in * by done.
  destruct (IH (emit (terminal_data k d) w) Hw' Hk Ht) as (-> & -> & ->).
  simpl. by rewrite <- app_assoc.
Qed.

Lemma write_active k d w t p :
  store w !! k = Some t → _isDisposed t = false → _pty t = Some p →
  pty_write p d = None →
  write k d w = (put k (set_pty (Some (pty_wrote d p)) t) w, Return ()).
Proof. intros Ht Hd Hp Hwr. unfold write. by rewrite Ht, Hd, Hp, Hwr. Qed.

(** X7: while the writes of the process succeed, the data written to an
    instance that is not disposed reaches its process chunk by chunk in the
    order of the calls; nothing is emitted, logged or scheduled, the instance
    stays as it is but for its process, and no other instance changes. *)
Theorem writes_reach_process_in_order k ds w t p :
  (∀ p d, pty_write p d = None) →
  store w !! k = Some t → _isDisposed t = false → _pty t = Some p →
  ∃ t' p',
    store (run (Write k <$> ds) w) !! k = Some t'
    ∧ _pty t' = Some p'
    ∧ written p' = written p ++ ds
    ∧ killLog p' = killLog p
    ∧ _isDisposed t' = false
    ∧ dimensions t' = dimensions t
    ∧ listeners t' = listeners t
    ∧ emitted (run (Write k <$> ds) w) = emitted w
    ∧ console (run (Write k <$> ds) w) = console w
    ∧ tasks (run (Write k <$> ds) w) = tasks w
    ∧ _terminals (run (Write k <$> ds) w) = _terminals w
    ∧ ∀ k', k' ≠ k → store (run (Write k <$> ds) w) !! k' = store w !! k'.
Proof.
  intros Hok. revert w t p. induction ds as [|d ds IH]; intros w t p Ht Hd Hp.
  { exists t, p. simpl. rewrite app_nil_r. split_and!; done. }
  rewrite fmap_cons, run_cons.
  change (step w (Write k d)) with (write k d w).1.
  rewrite (write_active k d w t p) by done. cbn [fst].
  destruct (IH (put k (set_pty (Some (pty_wrote d p)) t) w)
              (set_pty (Some (pty_wrote d p)) t) (pty_wrote d p))
    as (t' & p' & Hs & Hp' & Hwr & Hkl & Hd' & Hdim & Hl & He & Hc & Hta & Hr & Ho).
  { simpl. by rewrite lookup_insert_eq. }
  { done. }
  { done. }
  exists t', p'. split_and!; try done.
  - rewrite Hwr. simpl. by rewrite <- app_assoc.
  - intros k' Hk'. rewrite Ho by done. simpl. by rewrite lookup_insert_ne.
Qed.

(** ** Failures of the channel, exit of the process *)

Lemma run_last_task j w :
  step (schedule j w) (RunTask (length (tasks w))) = run_task j w.
Proof.
  simpl. rewrite list_lookup_middle by done. simpl.
  rewrite delete_middle, app_nil_r. by destruct w.
Qed.

Lemma emit_error_active k e w t :
  store w !! k = Some t → on_error (listeners t) = [k] → k ∈ _terminals w →
  emit_error k e w = (emit (terminal_error k e) w, Return ()).
Proof.
  intros Ht Hl Hk. unfold emit_error. rewrite Ht, Hl. simpl.
  unfold errorHandler, has. by rewrite bool_decide_eq_true_2.
Qed.

(** X8: when the write of the process of a registered terminal that is not
    disposed throws, write does not throw: the failure is logged, one
    terminal-error with the id and the error is emitted, the registry is
    unchanged and the instance stays active.  A self-disposal is scheduled
    exactly when the error is ERR_STREAM_DESTROYED or mentions EPIPE; once it
    has run the instance is disposed and still registered (getTerminal
    returns the disposed instance), nothing further has been emitted, and
    every other instance is as it was. *)
Theorem write_failure_isolated evs k t p d e :
  let w := run evs new_TerminalService in
  let w1 := (write k d w).1 in
  let w2 := step w1 (RunTask (length (tasks w))) in
  k ∈ _terminals w → store w !! k = Some t → _isDisposed t = false →
  _pty t = Some p → pty_write p d = Some e →
  (write k d w).2 = Return ()
  ∧ emitted w1 = emitted w ++ [terminal_error k e]
  ∧ console w1 = console w ++ [error_writing k (message e)]
  ∧ _terminals w1 = _terminals w
  ∧ (∃ t1, store w1 !! k = Some t1 ∧ _isDisposed t1 = false)
  ∧ tasks w1 =
    tasks w ++ (if broken_channel e then [immediateDisposeUnlessDisposed k] else [])
  ∧ (broken_channel e = true →
     (∃ t2, getTerminal k w2 = Some t2 ∧ _isDisposed t2 = true)
     ∧ emitted w2 = emitted w1
     ∧ _terminals w2 = _terminals w
     ∧ ∀ k', k' ≠ k → store w2 !! k' = store w !! k').
Proof.
  intros w w1 w2 Hk Ht Hd Hp Hwr.
  pose proof (world_ok_reachable evs) as Hw. fold w in Hw.
  destruct (ok_instance w Hw k t Ht) as [_ _ Hact].
  destruct (Hact Hd) as [_ _ Hl _].
  assert (write k d w =
          (emit (terminal_error k e)
             ((if broken_channel e
               then schedule (immediateDisposeUnlessDisposed k) else id)
                (log (error_writing k (message e))
                   (put k (set_pty (Some (pty_failed p)) t) w))), Return ())) as E.
  { unfold write. rewrite Ht, Hd, Hp, Hwr.
    destruct (broken_channel e); simpl.
    - apply (emit_error_active k e _ (set_pty (Some (pty_failed p)) t)); try done.
      + simpl. by rewrite lookup_insert_eq.
      + simpl. by rewrite Hl.
    - apply (emit_error_active k e _ (set_pty (Some (pty_failed p)) t)); try done.
      + simpl. by rewrite lookup_insert_eq.
      + simpl. by rewrite Hl. }
  unfold w2, w1. rewrite E. cbn [fst snd].
  split_and!.
  - done.
  - by destruct (broken_channel e).
  - by destruct (broken_channel e).
  - by destruct (broken_channel e).
  - exists (set_pty (Some (pty_failed p)) t).
    destruct (broken_channel e); simpl; by rewrite lookup_insert_eq.
  - destruct (broken_channel e); simpl; [done|by rewrite app_nil_r].
  - intros ->.
    set (w0 := log _ _).
    change (emit (terminal_error k e) (schedule (immediateDisposeUnlessDisposed k) w0))
      with (schedule (immediateDisposeUnlessDisposed k) (emit (terminal_error k e) w0)).
    change (length (tasks w)) with (length (tasks (emit (terminal_error k e) w0))).
    rewrite run_last_task. simpl. unfold run_immediateDisposeUnlessDisposed. simpl.
    rewrite lookup_insert_eq. simpl. rewrite Hd.
    set (w3 := emit _ w0).
    assert (store w3 !! k = Some (set_pty (Some (pty_failed p)) t)) as H3.
    { simpl. by rewrite lookup_insert_eq. }
    destruct (dispose_runs k w3 _ H3 Hd) as (t' & w' & -> & Hs & Hv & _ & Hd' & _).
    unfold view in Hv. simpl in Hv. injection Hv as Hr _ He.
    split_and!.
    + exists t'. unfold getTerminal, has. simpl. rewrite Hr.
      rewrite bool_decide_eq_true_2 by done. by rewrite lookup_insert_eq.
    + simpl. by rewrite He.
    + simpl. by rewrite Hr.
    + intros k' Hk'. simpl. rewrite lookup_insert_ne by done. rewrite Hs. simpl.
      by rewrite lookup_insert_ne.
Qed.

(** ** What a disposal leaves *)

Local Abbreviation signalled := (signalled pty_kill).
Local Abbreviation disposed_instance := (disposed_instance pty_kill).

Lemma dispose_listeners_detach ds t p :
  _pty t = Some p →
  fold_left (λ t d, dispose_listener d t) ds t =
  set_pty (Some (pty_listeners
                   (dataListener p && negb (bool_decide (onDataListener ∈ ds)))
                   (exitListener p && negb (bool_decide (onExitListener ∈ ds)))
                   (errorListener p && negb (bool_decide (errorDisposable ∈ ds)))
                   p)) t.
Proof.
  revert t p. induction ds as [|d ds IH]; intros t p Hp; simpl.
  { rewrite !andb_true_r. destruct t, p. simpl in *. by subst. }
  assert (∀ (x : Disposable) b,
            b && negb (bool_decide (x ∈ d :: ds)) =
            (b && negb (bool_decide (x = d))) && negb (bool_decide (x ∈ ds))) as Hb.
  { intros x b. rewrite <- andb_assoc, <- negb_orb. do 2 f_equal.
    apply eq_true_iff_eq. rewrite orb_true_iff, !bool_decide_eq_true.
    apply elem_of_cons. }
  rewrite !Hb. unfold dispose_listener at 2. rewrite Hp.
  destruct d; erewrite IH by done; simpl.
  all: rewrite ?andb_true_r, ?andb_false_r; simpl; done.
Qed.

(** dispose on an instance that is not disposed: the instance is replaced
    by [disposed_instance], the escalation timer is armed when there is a
    process handle, and the view is unchanged. *)
Lemma dispose_instance k w t :
  store w !! k = Some t → _isDisposed t = false →
  store (dispose k w) = <[k := disposed_instance t]> (store w)
  ∧ view (dispose k w) = view w
  ∧ tasks (dispose k w) =
    tasks w ++ match _pty t with Some _ => [killTimeout k] | None => [] end.
Proof.
  intros Hk Hd. split; [|split; [apply view_dispose|]].
  - unfold dispose. rewrite Hk, Hd.
    destruct t as [i [p|] sp cwd c r dis ds hs ls]; simpl in *.
    + unfold disposed_instance, signalled, kill. simpl.
      destruct hs as [h|]; simpl.
      all: destruct (pty_kill p SIGTERM) as [e1|]; simpl.
      all: try destruct (pty_kill (pty_killed SIGTERM p) SIGKILL) as [e2|]; simpl.
      all: erewrite dispose_listeners_detach by (simpl; reflexivity); simpl.
      all: rewrite ?andb_false_r; reflexivity.
    + unfold disposed_instance. simpl.
      assert (∀ t0, _pty t0 = None →
                fold_left (λ t d, dispose_listener d t) ds t0 = t0) as Hfold.
      { clear. induction ds as [|d ds IH]; intros t0 H0; simpl; [done|].
        unfold dispose_listener at 2. rewrite H0. by apply IH. }
      destruct hs as [h|]; simpl; rewrite Hfold by done; reflexivity.
  - unfold dispose. rewrite Hk, Hd.
    destruct t as [i [p|] sp cwd c r dis ds hs ls]; simpl in *.
    + unfold kill. destruct hs as [h|]; simpl.
      all: destruct (pty_kill p SIGTERM) as [e1|]; simpl.
      all: try destruct (pty_kill (pty_killed SIGTERM p) SIGKILL) as [e2|]; simpl.
      all: reflexivity.
    + destruct hs as [h|]; simpl; by rewrite app_nil_r.
Qed.

(** ** The life of an instance *)

Local Abbreviation lifecycle_ok := (lifecycle_ok pty_kill).

Lemma timers_app k q1 q2 : timers k (q1 ++ q2) = timers k q1 + timers k q2.
Proof. unfold timers. by rewrite filter_app, length_app. Qed.

Lemma timers_snoc k j q :
  timers k (q ++ [j]) = timers k q + (if bool_decide (j = killTimeout k) then 1 else 0).
Proof.
  rewrite timers_app. unfold timers. rewrite filter_cons, filter_nil.
  case_decide; by case_bool_decide.
Qed.

Lemma timers_cons k j q :
  timers k (j :: q) = (if bool_decide (j = killTimeout k) then 1 else 0) + timers k q.
Proof.
  unfold timers. rewrite filter_cons. case_decide; by case_bool_decide.
Qed.

Lemma timers_delete k n q j :
  q !! n = Some j →
  timers k q = timers k (delete n q) + (if bool_decide (j = killTimeout k) then 1 else 0).
Proof.
  revert n. induction q as [|a q IH]; intros [|n] Hn; try done; simpl in *.
  - injection Hn as ->. rewrite timers_cons. lia.
  - rewrite !timers_cons, (IH n Hn). lia.
Qed.

Lemma tasks_emit_data k d w : tasks (emit_data k d w) = tasks w.
Proof.
  unfold emit_data. destruct (store w !! k) as [t|]; [|done].
  generalize (on_data (listeners t)). intros l. revert w.
  induction l as [|h l IH]; intros w; simpl; [done|].
  rewrite IH. unfold dataHandler. by case_match.
Qed.

Lemma tasks_emit_exit' k c s w : tasks (emit_exit k c s w) = tasks w.
Proof.
  unfold emit_exit. destruct (store w !! k) as [t|]; [|done].
  generalize (on_exit (listeners t)). intros l. revert w.
  induction l as [|h l IH]; intros w; simpl; [done|].
  rewrite IH. unfold exitHandler. by case_match.
Qed.

Lemma tasks_emit_error k e w : tasks (emit_error k e w).1 = tasks w.
Proof.
  unfold emit_error. destruct (store w !! k) as [t|]; [|done].
  destruct (on_error (listeners t)) as [|h hs]; [done|]. cbn [fst].
  generalize (h :: hs). clear. intros l. revert w.
  induction l as [|h l IH]; intros w; simpl; [done|].
  rewrite IH. unfold errorHandler. by case_match.
Qed.

Lemma lifecycle_ok_new : lifecycle_ok new_TerminalService.
Proof.
  split; simpl; try done.
Qed.

Lemma lifecycle_ok_same w w' :
  store w' = store w → tasks w' = tasks w → lifecycle_ok w → lifecycle_ok w'.
Proof. intros Hs Ht [H1 H2 H3 H4]. split; rewrite ?Hs, ?Ht; done. Qed.

(** A callback other than the escalation timer is scheduled. *)
Lemma lifecycle_ok_schedule j w :
  (∀ k, j ≠ killTimeout k) → lifecycle_ok w → lifecycle_ok (schedule j w).
Proof.
  intros Hj [H1 H2 H3 H4].
  assert (∀ k, timers k (tasks w ++ [j]) = timers k (tasks w)) as Ht.
  { intros k. rewrite timers_snoc, bool_decide_eq_false_2 by apply Hj. lia. }
  split; simpl; intros; rewrite ?Ht; eauto.
Qed.

(** A pending callback other than the escalation timer is taken. *)
Lemma lifecycle_ok_take n j w :
  tasks w !! n = Some j → (∀ k, j ≠ killTimeout k) →
  lifecycle_ok w → lifecycle_ok (set_tasks (delete n (tasks w)) w).
Proof.
  intros Hn Hj [H1 H2 H3 H4].
  assert (∀ k, timers k (delete n (tasks w)) = timers k (tasks w)) as Ht.
  { intros k. rewrite (timers_delete k n (tasks w) j Hn).
    rewrite bool_decide_eq_false_2 by apply Hj. lia. }
  split; simpl; intros; rewrite ?Ht; eauto.
Qed.

(** A call on the process handle that sends no signal and leaves the
    listeners as they are. *)
Lemma lifecycle_ok_pty k t p p' c r w :
  store w !! k = Some t → _pty t = Some p → killLog p' = killLog p →
  dataListener p' = dataListener p → exitListener p' = exitListener p →
  errorListener p' = errorListener p →
  lifecycle_ok w →
  lifecycle_ok (put k (set_pty (Some p') (set_dimensions c r t)) w).
Proof.
  intros Hk Hp Hkl Hd He Hr [H1 H2 H3 H4].
  assert (signals (set_pty (Some p') (set_dimensions c r t)) = signals t) as Hsig.
  { unfold signals. simpl. by rewrite Hp. }
  split; simpl.
  - intros k' t'. rewrite lookup_insert. case_decide; [|by apply H1].
    by intros [= <-].
  - intros k' t'. rewrite lookup_insert. case_decide; [|by apply H2].
    intros [= <-]. subst k'. simpl. rewrite Hsig. by apply H2.
  - intros k' t'. rewrite lookup_insert. case_decide; [|by apply H3].
    intros [= <-]. subst k'. simpl. rewrite Hsig. intros Hdis.
    destruct (H3 k t Hk Hdis) as [[R1 R2 R3 R4] Hn]. split; [|done].
    split; try done. simpl. intros p0 [= <-].
    destruct (R4 p Hp) as (? & ? & ?). split_and!; congruence.
  - intros k'. rewrite lookup_insert. case_decide; [done|by apply H4].
Qed.

Lemma lifecycle_ok_pty' k t p p' w :
  store w !! k = Some t → _pty t = Some p → killLog p' = killLog p →
  dataListener p' = dataListener p → exitListener p' = exitListener p →
  errorListener p' = errorListener p →
  lifecycle_ok w → lifecycle_ok (put k (set_pty (Some p') t) w).
Proof.
  intros. replace t with (set_dimensions (_cols t) (_rows t) t) at 2 by by destruct t.
  by apply (lifecycle_ok_pty k t p).
Qed.

Lemma lifecycle_ok_dispose k w : lifecycle_ok w → lifecycle_ok (dispose k w).
Proof.
  intros Hl. destruct (store w !! k) as [t|] eqn:Hk.
  2: { unfold dispose. by rewrite Hk. }
  destruct (_isDisposed t) eqn:Hd.
  { unfold dispose. by rewrite Hk, Hd. }
  destruct (dispose_instance k w t Hk Hd) as (Hs & _ & Ht).
  destruct Hl as [H1 H2 H3 H4].
  destruct (H1 k t Hk) as [p Hp]. rewrite Hp in Ht.
  destruct (H2 k t Hk Hd) as (Hds & Hsig & Htm).
  assert (∀ k', timers k' (tasks (dispose k w)) =
                timers k' (tasks w) + (if bool_decide (k' = k) then 1 else 0)) as Htm'.
  { intros k'. rewrite Ht, timers_snoc. f_equal.
    case_bool_decide as E1; case_bool_decide as E2; try done; congruence. }
  split; rewrite ?Hs.
  - intros k' t'. rewrite lookup_insert. case_decide; [|by apply H1].
    intros [= <-]. unfold disposed_instance. simpl. rewrite Hp. by eexists.
  - intros k' t'. rewrite lookup_insert. case_decide; [by intros [= <-]|].
    intros Hk' Hd'. rewrite Htm', bool_decide_eq_false_2 by done.
    rewrite Nat.add_0_r. by apply H2.
  - intros k' t'. rewrite lookup_insert. case_decide as E.
    + intros [= <-] _. subst k'. rewrite Htm', bool_decide_eq_true_2, Htm by done.
      split.
      * split; try done. unfold disposed_instance. simpl. rewrite Hp, Hds. simpl.
        intros p0 [= <-]. simpl. by rewrite !andb_false_r.
      * unfold signals in *. unfold disposed_instance, signalled. simpl.
        rewrite Hp in *. simpl.
        destruct (pty_kill p SIGTERM) eqn:Ekill; simpl; rewrite Hsig.
        -- exists 1. split_and!; [done|lia|lia|]. intros Hnever.
           by rewrite Hnever in Ekill.
        -- exists 0. split_and!; [done|lia|lia|done].
    + intros Hk' Hd'. rewrite Htm', bool_decide_eq_false_2 by done.
      rewrite Nat.add_0_r. by apply H3.
  - intros k'. rewrite lookup_insert. case_decide; [done|].
    intros Hk'. rewrite Htm', bool_decide_eq_false_2 by done.
    rewrite Nat.add_0_r. by apply H4.
Qed.

Lemma lifecycle_ok_run_timer n k w :
  tasks w !! n = Some (killTimeout k) →
  lifecycle_ok w →
  lifecycle_ok (run_task (killTimeout k) (set_tasks (delete n (tasks w)) w)).
Proof.
  intros Hn Hl. pose proof Hl as [H1 H2 H3 H4].
  pose proof (timers_delete k n (tasks w) _ Hn) as Hk.
  rewrite bool_decide_eq_true_2 in Hk by done.
  assert (∀ k', k' ≠ k → timers k' (delete n (tasks w)) = timers k' (tasks w)) as Ho.
  { intros k' Hk'. rewrite (timers_delete k' n (tasks w) _ Hn).
    rewrite bool_decide_eq_false_2; [lia|]. by intros [= ->]. }
  destruct (store w !! k) as [t|] eqn:Ht.
  2: { pose proof (H4 k Ht). lia. }
  destruct (_isDisposed t) eqn:Hd.
  2: { destruct (H2 k t Ht Hd) as (_ & _ & ?). lia. }
  destruct (H1 k t Ht) as [p Hp].
  destruct (H3 k t Ht Hd) as (Hrel & m & Hsig & Hm & Hnever).
  simpl. unfold run_killTimeout, kill. simpl. rewrite Ht, Hp.
  assert (lifecycle_ok
            (put k (set_pty (Some (pty_killed SIGKILL p)) t)
               (set_tasks (delete n (tasks w)) w))) as Hgoal.
  { split; simpl.
    - intros k' t'. rewrite lookup_insert. case_decide; [|by apply H1].
      by intros [= <-].
    - intros k' t'. rewrite lookup_insert. case_decide.
      { intros [= <-] Hd'. simpl in Hd'. congruence. }
      intros Hk' Hd'. rewrite Ho by done. by apply H2.
    - intros k' t'. rewrite lookup_insert. case_decide as E.
      + intros [= <-] _. subst k'. split.
        * destruct Hrel as [R1 R2 R3 R4]. split; try done. simpl.
          intros p0 [= <-]. simpl. by apply (R4 p Hp).
        * exists (S m). unfold signals in *. simpl. rewrite Hp in Hsig.
          rewrite Hsig. split_and!.
          -- simpl. f_equal. by rewrite <- replicate_S_end.
          -- lia.
          -- lia.
          -- intros Hx. specialize (Hnever Hx). lia.
      + intros Hk' Hd'. rewrite Ho by done. by apply H3.
    - intros k'. rewrite lookup_insert. case_decide; [done|].
      intros Hk'. rewrite Ho by done. by apply H4. }
  destruct (pty_kill p SIGKILL); [|done].
  by eapply lifecycle_ok_same; [| |exact Hgoal].
Qed.

Lemma lifecycle_ok_write k d w : lifecycle_ok w → lifecycle_ok (write k d w).1.
Proof.
  intros Hl. unfold write. destruct (store w !! k) as [t|] eqn:Hk; [|done].
  destruct (_isDisposed t) eqn:Hd; [done|].
  destruct (_pty t) as [p|] eqn:Ep; [|done].
  destruct (pty_write p d) as [e|]; simpl.
  - set (w1 := log _ _).
    assert (lifecycle_ok w1) as H1.
    { eapply lifecycle_ok_same;
        [| |apply (lifecycle_ok_pty' k t p (pty_failed p) w)]; done. }
    eapply lifecycle_ok_same; [apply store_emit_error|apply tasks_emit_error|].
    destruct (broken_channel e); [|done].
    by apply lifecycle_ok_schedule.
  - by apply (lifecycle_ok_pty' k t p).
Qed.

Lemma lifecycle_ok_resize k c r w : lifecycle_ok w → lifecycle_ok (resize k c r w).1.
Proof.
  intros Hl. unfold resize. destruct (store w !! k) as [t|] eqn:Hk; [|done].
  destruct (_isDisposed t) eqn:Hd; [done|].
  destruct (_pty t) as [p|] eqn:Ep; [|done].
  destruct (pty_resize p c r) as [e|]; simpl.
  - set (w1 := log _ _).
    assert (lifecycle_ok w1) as H1.
    { eapply lifecycle_ok_same;
        [| |apply (lifecycle_ok_pty k t p (pty_failed p) c r w)]; done. }
    eapply lifecycle_ok_same; [apply store_emit_error|apply tasks_emit_error|].
    destruct (broken_channel e); [|done].
    by apply lifecycle_ok_schedule.
  - by apply (lifecycle_ok_pty k t p).
Qed.

Lemma lifecycle_ok_pty_emits_exit k c s w :
  lifecycle_ok w → lifecycle_ok (pty_emits_exit k c s w).
Proof.
  intros Hl. unfold pty_emits_exit.
  destruct (store w !! k) as [t|] eqn:Hk; [|done].
  destruct (_pty t) as [p|] eqn:Ep; [|done].
  assert (lifecycle_ok (put k (set_pty (Some (pty_exited p)) t) w)) as H1
    by by apply (lifecycle_ok_pty' k t p).
  destruct (exitListener p); [|done].
  unfold onExitListener_cb. repeat case_match; try done.
  apply lifecycle_ok_schedule; [done|].
  eapply lifecycle_ok_same; [apply store_emit_exit|apply tasks_emit_exit'|].
  by eapply lifecycle_ok_same; [| |exact H1].
Qed.

Lemma lifecycle_ok_createTerminal pn cwd o w :
  world_ok w → lifecycle_ok w → lifecycle_ok (createTerminal pn cwd o w).1.
Proof.
  intros Hw [H1 H2 H3 H4].
  assert (store w !! _nextTerminalId w = None) as Hnone.
  { destruct (store w !! _nextTerminalId w) eqn:E; [|done].
    pose proof (ok_allocated w Hw _ (mk_is_Some _ _ E)). lia. }
  destruct (createTerminal pn cwd o w) as [w' r] eqn:E.
  destruct r as [k|e]; simpl.
  - revert E. unfold createTerminal.
    destruct (spawn_options _ _) as [so|e]; [|done].
    set (w1 := set_nextTerminalId _ w).
    destruct (spawnShell_frame (js_default pn JNull)
                (js_or (js_default cwd JNull) (JStr process_cwd)) so w1)
      as (Hs & _ & Ht).
    unfold spawnShell in *.
    set (cfg := if truthy (js_default pn JNull) then _ else _) in *.
    destruct cfg as [cfg w2]. simpl in *.
    destruct (pty_spawn _ _ _ _); [done|]. simpl in *.
    intros [= <- <-].
    split; simpl; rewrite ?Hs, ?Ht; simpl.
    + intros k t. rewrite lookup_insert. case_decide; [|by apply H1].
      by intros [= <-].
    + intros k t. rewrite lookup_insert. case_decide; [|by apply H2].
      intros [= <-] _. subst k. split_and!; try done. by apply H4.
    + intros k t. rewrite lookup_insert. case_decide; [by intros [= <-]|].
      by apply H3.
    + intros k. rewrite lookup_insert. case_decide; [done|by apply H4].
  - apply createTerminal_throws in E as (_ & _ & Hs & _ & Ht & _).
    split; rewrite ?Hs, ?Ht; done.
Qed.

Lemma lifecycle_ok_closeTerminal k w : lifecycle_ok w → lifecycle_ok (closeTerminal k w).1.
Proof.
  intros Hl. unfold closeTerminal. destruct (getTerminal k w); simpl.
  - eapply lifecycle_ok_same; [| |apply (lifecycle_ok_dispose k (log (log_closing k) w))].
    + done.
    + done.
    + by eapply lifecycle_ok_same; [| |exact Hl].
  - by eapply lifecycle_ok_same; [| |exact Hl].
Qed.

Lemma both_ok_fold {A} (f : World → A → World) (l : list A) (w : World) :
  (∀ w a, world_ok w → world_ok (f w a)) →
  (∀ w a, world_ok w → lifecycle_ok w → lifecycle_ok (f w a)) →
  world_ok w → lifecycle_ok w → lifecycle_ok (fold_left f l w).
Proof.
  intros Hok Hf. revert w. induction l as [|a l IH]; intros w Hw Hl; simpl; [done|].
  apply IH; [by apply Hok|by apply Hf].
Qed.

Lemma lifecycle_ok_restore_entry d w :
  world_ok w → lifecycle_ok w → lifecycle_ok (restore_entry d w).
Proof.
  intros Hw Hl. unfold restore_entry. destruct (get_prop d "shellProfile") as [sp|e].
  - pose proof (lifecycle_ok_createTerminal sp (prop d "cwd")
                  (JObj [("cols", prop d "cols"); ("rows", prop d "rows")]) w Hw Hl) as H.
    destruct (createTerminal _ _ _ w) as [w' [j|e]]; [done|]. simpl in H.
    by eapply lifecycle_ok_same; [| |exact H].
  - by eapply lifecycle_ok_same; [| |exact Hl].
Qed.

Lemma lifecycle_ok_step w e : world_ok w → lifecycle_ok w → lifecycle_ok (step w e).
Proof.
  intros Hw Hl. destruct e; simpl.
  - by apply lifecycle_ok_createTerminal.
  - by apply lifecycle_ok_closeTerminal.
  - apply both_ok_fold; try done; intros.
    + by apply world_ok_closeTerminal.
    + by apply lifecycle_ok_closeTerminal.
  - unfold restoreTerminals.
    destruct (negb (truthy state)); [done|].
    destruct (negb (truthy (prop state "terminals"))); [done|].
    set (w1 := if truthy (prop state "config") then _ else w).
    assert (world_ok w1 ∧ lifecycle_ok w1) as [H1 L1].
    { unfold w1. destruct (truthy _); [|done].
      split; [by apply (world_ok_same w)|by eapply lifecycle_ok_same; [| |exact Hl]]. }
    clearbody w1. destruct (prop state "terminals"); try done. simpl.
    apply both_ok_fold; try done; intros.
    + by apply world_ok_restore_entry.
    + by apply lifecycle_ok_restore_entry.
  - by eapply lifecycle_ok_same; [| |exact Hl].
  - apply both_ok_fold; try done; intros.
    + by apply world_ok_closeTerminal.
    + by apply lifecycle_ok_closeTerminal.
  - by apply lifecycle_ok_write.
  - by apply lifecycle_ok_resize.
  - by apply lifecycle_ok_dispose.
  - eapply lifecycle_ok_same; [| |exact Hl].
    + unfold pty_emits_data, onDataListener_cb.
      repeat case_match; try done. apply store_emit_data.
    + unfold pty_emits_data, onDataListener_cb.
      repeat case_match; try done. apply tasks_emit_data.
  - by apply lifecycle_ok_pty_emits_exit.
  - eapply lifecycle_ok_same; [| |exact Hl].
    + unfold pty_emits_error, errorHandler_cb.
      repeat case_match; try done. by rewrite store_emit_error.
    + unfold pty_emits_error, errorHandler_cb.
      repeat case_match; try done. by rewrite tasks_emit_error.
  - destruct (tasks w !! n) as [j|] eqn:Hn; [|done].
    destruct j as [k|k|k].
    + by apply lifecycle_ok_run_timer.
    + simpl. apply lifecycle_ok_dispose. by apply (lifecycle_ok_take n _ w Hn).
    + simpl. unfold run_immediateDisposeUnlessDisposed.
      pose proof (lifecycle_ok_take n _ w Hn ltac:(done) Hl) as Hl'.
      repeat case_match; try done. by apply lifecycle_ok_dispose.
Qed.

Lemma lifecycle_ok_reachable evs : lifecycle_ok (run evs new_TerminalService).
Proof.
  assert (∀ w, world_ok w → lifecycle_ok w → lifecycle_ok (run evs w)) as H.
  { induction evs as [|e evs IH]; intros w Hw Hl; [done|].
    rewrite run_cons. apply IH; [by apply world_ok_step|by apply lifecycle_ok_step]. }
  apply H; [apply world_ok_new|apply lifecycle_ok_new].
Qed.

(** X9: the signals of an instance, in every world that a run reaches.  An
    instance that is not disposed has sent no signal and has no escalation
    timer pending.  A disposed instance has sent SIGTERM first and only
    SIGKILL after it; the SIGKILLs sent and the timers still pending count at
    least 1 and at most 2 together, and exactly 1 when sending SIGTERM never
    throws: every disposal leads to a forced termination, sent or pending,
    whatever the process does. *)
Theorem kill_protocol evs k t :
  let w := run evs new_TerminalService in
  store w !! k = Some t →
  (_isDisposed t = false → signals t = [] ∧ timers k (tasks w) = 0)
  ∧ (_isDisposed t = true →
     ∃ n, signals t = SIGTERM :: replicate n SIGKILL
          ∧ 1 ≤ n + timers k (tasks w) ≤ 2
          ∧ ((∀ p, pty_kill p SIGTERM = None) → n + timers k (tasks w) = 1)).
Proof.
  intros w Ht. destruct (lifecycle_ok_reachable evs) as [_ H2 H3 _]. fold w in H2, H3.
  split.
  - intros Hd. by destruct (H2 k t Ht Hd) as (_ & ? & ?).
  - intros Hd. by destruct (H3 k t Ht Hd) as (_ & ?).
Qed.

(** X10: a disposed instance holds no subscription, in every world that a
    run reaches: it has no listener, no handlers and no disposables, and no
    listener of its own is attached to its process handle.  Output and errors
    of its process then change nothing at all, and the exit of its process
    only marks the handle as exited. *)
Theorem disposed_is_released evs k t :
  let w := run evs new_TerminalService in
  store w !! k = Some t → _isDisposed t = true →
  released t
  ∧ (∀ d, step w (PtyData k d) = w)
  ∧ (∀ e, step w (PtyError k e) = w)
  ∧ (∀ c s, ∃ p, _pty t = Some p
                 ∧ step w (PtyExit k c s) = put k (set_pty (Some (pty_exited p)) t) w).
Proof.
  intros w Ht Hd. destruct (lifecycle_ok_reachable evs) as [H1 _ H3 _].
  fold w in H1, H3. destruct (H3 k t Ht Hd) as [Hrel _].
  destruct (H1 k t Ht) as [p Hp].
  destruct (released_pty t Hrel p Hp) as (Hdl & Hel & Herr).
  split_and!; [done| | |].
  - intros d. simpl. unfold pty_emits_data. by rewrite Ht, Hp, Hdl.
  - intros e. simpl. unfold pty_emits_error. by rewrite Ht, Hp, Herr.
  - intros c s. exists p. split; [done|]. simpl. unfold pty_emits_exit.
    by rewrite Ht, Hp, Hel.
Qed.

(** X11: when the process of a registered terminal that is not disposed
    exits, the id leaves the registry at once (getTerminal finds nothing)
    while the instance is not yet disposed, and a disposal is scheduled; when
    it runs, the instance is disposed: SIGTERM is sent to the process that
    has exited, the escalation timer is armed, and nothing is emitted. *)
Theorem natural_exit_then_dispose evs k t c s :
  let w := run evs new_TerminalService in
  let w1 := step w (PtyExit k c s) in
  let w2 := step w1 (RunTask (length (tasks w))) in
  k ∈ _terminals w → store w !! k = Some t → _isDisposed t = false →
  getTerminal k w1 = None
  ∧ tasks w1 = tasks w ++ [immediateDispose k]
  ∧ (∃ t1 p1, store w1 !! k = Some t1 ∧ _isDisposed t1 = false
              ∧ _pty t1 = Some p1 ∧ exited p1 = true ∧ signals t1 = [])
  ∧ (∃ t2 p2, store w2 !! k = Some t2 ∧ _isDisposed t2 = true
              ∧ _pty t2 = Some p2 ∧ exited p2 = true
              ∧ (signals t2 = [SIGTERM] ∨ signals t2 = [SIGTERM; SIGKILL]))
  ∧ tasks w2 = tasks w ++ [killTimeout k]
  ∧ emitted w2 = emitted w1.
Proof.
  intros w w1 w2 Hk Ht Hd.
  pose proof (world_ok_reachable evs) as Hw. fold w in Hw.
  destruct (lifecycle_ok_reachable evs) as [_ H2 _ _]. fold w in H2.
  destruct (H2 k t Ht Hd) as (_ & Hsig & _).
  destruct (ok_instance w Hw k t Ht) as [_ _ Hact].
  destruct (Hact Hd) as [_ _ Hl (p & Hp & _ & He & _)].
  unfold signals in Hsig. rewrite Hp in Hsig.
  set (t1 := set_pty (Some (pty_exited p)) t).
  set (w0 := exitHandler k c s (log (log_process_exited k c s) (put k t1 w))).
  assert (w1 = schedule (immediateDispose k) w0) as E1.
  { unfold w1. simpl. unfold pty_emits_exit. rewrite Ht, Hp, He.
    unfold onExitListener_cb. simpl. rewrite lookup_insert_eq. simpl. rewrite Hd.
    unfold emit_exit. simpl. rewrite lookup_insert_eq. simpl. by rewrite Hl. }
  assert (store w0 = <[k := t1]> (store w) ∧ tasks w0 = tasks w) as [Hs0 Ht0].
  { unfold w0, exitHandler. by case_match. }
  assert (k ∉ _terminals w0) as Hr0.
  { unfold w0, exitHandler. simpl. apply not_elem_of_map_delete. }
  assert (w2 = dispose k w0) as E2.
  { unfold w2. rewrite E1, <- Ht0. by rewrite run_last_task. }
  assert (store w0 !! k = Some t1) as Hk0 by (rewrite Hs0; apply lookup_insert_eq).
  destruct (dispose_instance k w0 t1 Hk0 Hd) as (Hs2 & Hv2 & Ht2).
  rewrite E2, E1. split_and!.
  - unfold getTerminal, has. simpl. by rewrite bool_decide_eq_false_2.
  - change (tasks w0 ++ [immediateDispose k] = tasks w ++ [immediateDispose k]).
    by rewrite Ht0.
  - exists t1, (pty_exited p).
    change (store (schedule (immediateDispose k) w0)) with (store w0).
    rewrite Hs0, lookup_insert_eq. split_and!; try done.
  - rewrite Hs2, lookup_insert_eq.
    unfold disposed_instance, signalled, signals. simpl.
    destruct (pty_kill (pty_exited p) SIGTERM); eexists _, _.
    all: split; [reflexivity|]; simpl; rewrite Hsig; split_and!; try done; auto.
  - rewrite Ht2, Ht0. done.
  - unfold view in Hv2. injection Hv2 as _ _ ->. done.
Qed.

(** ** Closing every terminal *)

Lemma closeTerminals_registered l w :
  world_ok w → NoDup l → (∀ k, k ∈ l → k ∈ _terminals w) →
  let w' := fold_left (λ w id, (closeTerminal id w).1) l w in
  (∀ k, k ∈ _terminals w' → k ∈ _terminals w ∧ k ∉ l)
  ∧ emitted w' = emitted w ++ (terminal_closed <$> l)
  ∧ (∀ k, k ∈ l → ∃ t, store w' !! k = Some t ∧ _isDisposed t = true)
  ∧ (∀ k, k ∉ l → store w' !! k = store w !! k)
  ∧ _nextTerminalId w' = _nextTerminalId w.
Proof.
  revert w. induction l as [|k l IH]; intros w Hw Hnd Hin; simpl.
  { rewrite app_nil_r. split_and!; try done.
    - intros k Hk. split; [done|]. apply not_elem_of_nil.
    - intros k Hk. by apply elem_of_nil in Hk. }
  apply NoDup_cons in Hnd as [Hk Hnd].
  assert (k ∈ _terminals w) as Hreg by (apply Hin; apply list_elem_of_here).
  pose proof (closeTerminal_registered k w Hw Hreg) as E.
  pose proof (world_ok_closeTerminal k w Hw) as Hw1.
  set (w1 := (closeTerminal k w).1) in *.
  assert (view w1 = act (view w) (closes k)) as Hv1.
  { unfold w1. rewrite view_closeTerminal, E. done. }
  unfold view in Hv1. simpl in Hv1. injection Hv1 as Hr1 Hn1 He1.
  assert (store w1 = store (dispose k w)) as Hs1.
  { unfold w1. rewrite E. simpl. apply store_dispose_log. }
  destruct (IH w1 Hw1 Hnd) as (Hr & He & Hd & Ho & Hn).
  { intros k' Hk'. rewrite Hr1. apply elem_of_map_delete. split.
    - by intros ->.
    - apply Hin. by apply list_elem_of_further. }
  split_and!.
  - intros k' [Hk1 Hk2]%Hr. rewrite Hr1 in Hk1.
    apply elem_of_map_delete in Hk1 as [? ?]. split; [done|].
    intros [?|?]%elem_of_cons; done.
  - rewrite He, He1. by rewrite <- app_assoc.
  - intros k' [->|Hk']%elem_of_cons; [|by apply Hd].
    rewrite (Ho k Hk), Hs1.
    destruct (ok_registered w Hw k Hreg) as [t Ht].
    destruct (_isDisposed t) eqn:Hdis.
    + exists t. unfold dispose. by rewrite Ht, Hdis.
    + destruct (dispose_instance k w t Ht Hdis) as (-> & _).
      eexists. by rewrite lookup_insert_eq.
  - intros k' Hk'. apply not_elem_of_cons in Hk' as [Hne Hk'].
    rewrite (Ho k' Hk'), Hs1. by apply touches_only_dispose.
  - by rewrite Hn, Hn1.
Qed.

(** X12: closeAllTerminals, and dispose of the service, close every
    registered terminal: afterwards the registry is empty, every instance
    that was registered is disposed, one terminal-closed was emitted per
    registered id, in registry order, instances that were not registered are
    untouched, and the id counter is unchanged. *)
Theorem closeAllTerminals_closes_all evs :
  let w := run evs new_TerminalService in
  let w' := closeAllTerminals w in
  service_dispose pty_kill w = w'
  ∧ _terminals w' = []
  ∧ emitted w' = emitted w ++ (terminal_closed <$> _terminals w)
  ∧ (∀ k, (k ∈ _terminals w) → ∃ t, store w' !! k = Some t ∧ _isDisposed t = true)
  ∧ (∀ k, (k ∉ _terminals w) → store w' !! k = store w !! k)
  ∧ _nextTerminalId w' = _nextTerminalId w.
Proof.
  intros w w'. pose proof (world_ok_reachable evs) as Hw. fold w in Hw.
  destruct (closeTerminals_registered (_terminals w) w Hw)
    as (Hr & He & Hd & Ho & Hn).
  { apply (registered_NoDup _ (ok_view w Hw)). }
  { done. }
  split_and!; try done.
  apply elem_of_nil_inv. intros k Hk. by destruct (Hr k Hk).
Qed.

(** ** Unknown profiles *)

Local Abbreviation getShellByProfile := (getShellByProfile availableShells).

Lemma spawnShell_default_log l cwd o w :
  spawnShell JNull cwd o (log l w) =
  (log l (spawnShell JNull cwd o w).1, (spawnShell JNull cwd o w).2).
Proof. unfold spawnShell. simpl. by destruct (pty_spawn _ _ _ _). Qed.

(** X13: a profile name that no available shell has is not an error: the
    call logs a warning and spawns the default shell, exactly as a call
    without profile does; it returns or throws as that call does, with the
    same id, and the instance created reports the shell name "Shell". *)
Theorem unknown_profile_falls_back pn cwd o w :
  truthy pn = true → getShellByProfile pn = None → o ≠ JNull →
  spawnShell pn cwd o w = spawnShell JNull cwd o (log (warn_profile_not_found pn) w)
  ∧ (createTerminal pn cwd o w).2 = (createTerminal JNull cwd o w).2
  ∧ warn_profile_not_found pn ∈ console (createTerminal pn cwd o w).1
  ∧ ∀ k, (createTerminal pn cwd o w).2 = Return k →
         shellName <$> (store (createTerminal pn cwd o w).1 !! k) = Some "Shell".
Proof.
  intros Hpn Hnone Ho.
  assert (js_default pn JNull = pn) as Hdef by by destruct pn.
  assert (∀ cwd o w, spawnShell pn cwd o w =
            spawnShell JNull cwd o (log (warn_profile_not_found pn) w)) as Hsp.
  { intros. unfold spawnShell. unfold getShellByProfile in Hnone.
    rewrite Hpn, Hnone. reflexivity. }
  split; [apply Hsp|].
  unfold createTerminal. rewrite Hdef, Hpn, Hnone. simpl (js_default JNull JNull).
  destruct (spawn_options_returns o Ho) as [so ->].
  rewrite Hsp, spawnShell_default_log.
  set (w1 := set_nextTerminalId _ w).
  destruct (spawnShell_frame JNull (js_or (js_default cwd JNull) (JStr process_cwd))
              so w1) as (Hs & _ & _).
  assert (∀ x, x ∈ console w1 ++ [warn_profile_not_found pn] →
               x ∈ console (log (warn_profile_not_found pn)
                              (spawnShell JNull
                                 (js_or (js_default cwd JNull) (JStr process_cwd))
                                 so w1).1)) as Hc.
  { intros x. unfold spawnShell. simpl. by destruct (pty_spawn _ _ _ _). }
  destruct (spawnShell JNull _ so w1) as [w2 [p|e]]; simpl in *.
  - split_and!; [done| |].
    + apply Hc. apply elem_of_app. right. by apply list_elem_of_singleton.
    + intros k [= <-]. by rewrite lookup_insert_eq.
  - split_and!; [done| |done].
    apply elem_of_app. left. apply Hc. apply elem_of_app. right.
    by apply list_elem_of_singleton.
Qed.

(** ** The configuration *)

Lemma assoc_None k fs : assoc k fs = None ↔ k ∉ fs.*1.
Proof.
  induction fs as [|[k0 v0] fs IH]; simpl.
  - split; [intros _; apply not_elem_of_nil|done].
  - rewrite not_elem_of_cons. case_bool_decide as E.
    + split; [done|]. intros [? _]. congruence.
    + rewrite IH. split; [intros ?; split; [congruence|done]|by intros [_ ?]].
Qed.

Lemma assoc_replace_prop k k' v fs :
  is_Some (assoc k' fs) →
  assoc k (replace_prop k' v fs) = if bool_decide (k' = k) then Some v else assoc k fs.
Proof.
  induction fs as [|[k0 v0] fs IH]; simpl; [by intros [? ?]|].
  destruct (decide (k0 = k')) as [->|E0].
  - rewrite (bool_decide_eq_true_2 (k' = k')) by done. simpl. intros _.
    by case_bool_decide.
  - rewrite (bool_decide_eq_false_2 (k0 = k')) by done. simpl. intros Hs.
    rewrite IH by done. repeat case_bool_decide; congruence.
Qed.

Lemma assoc_insert_prop k k' v fs :
  assoc k' fs = None →
  assoc k (insert_prop k' v fs) = if bool_decide (k' = k) then Some v else assoc k fs.
Proof.
  induction fs as [|[k0 v0] fs IH]; simpl; [done|].
  destruct (decide (k0 = k')) as [->|E0].
  { by rewrite (bool_decide_eq_true_2 (k' = k')). }
  rewrite (bool_decide_eq_false_2 (k0 = k')) by done. intros Hn.
  destruct (precedes k' k0); simpl; [done|].
  rewrite IH by done. repeat case_bool_decide; congruence.
Qed.

Lemma assoc_set_prop k k' v fs :
  assoc k (set_prop k' v fs) = if bool_decide (k' = k) then Some v else assoc k fs.
Proof.
  unfold set_prop. destruct (assoc k' fs) eqn:E.
  - apply assoc_replace_prop. by rewrite E.
  - by apply assoc_insert_prop.
Qed.

Lemma assoc_snoc k l k' v' :
  assoc k (l ++ [(k', v')]) =
  match assoc k l with
  | Some v => Some v
  | None => if bool_decide (k' = k) then Some v' else None
  end.
Proof.
  induction l as [|[k0 v0] l IH]; simpl; [done|].
  destruct (bool_decide (k0 = k)); simpl; [done|apply IH].
Qed.

(** The value of a key in [{...a, ...b}]: the last value that [b] gives it,
    or the value in [a] when [b] does not have the key. *)
Lemma assoc_spread_props k a ps :
  assoc k (fold_left (λ acc kv, set_prop kv.1 kv.2 acc) ps a) =
  match assoc k (reverse ps) with
  | Some v => Some v
  | None => assoc k a
  end.
Proof.
  revert a. induction ps as [|[k' v'] ps IH]; intros a; simpl; [done|].
  rewrite IH, reverse_cons, assoc_snoc, assoc_set_prop.
  destruct (assoc k (reverse ps)); simpl; [done|].
  by destruct (bool_decide (k' = k)).
Qed.

(** The keys after a property is defined *)
Lemma keys_replace_prop k v fs : (replace_prop k v fs).*1 = fs.*1.
Proof.
  induction fs as [|[k0 v0] fs IH]; simpl; [done|].
  case_bool_decide as E; csimpl; [by rewrite E|by f_equal].
Qed.

Lemma elem_of_keys_insert_prop x k v fs :
  x ∈ (insert_prop k v fs).*1 ↔ x = k ∨ x ∈ fs.*1.
Proof.
  induction fs as [|[k0 v0] fs IH]; simpl.
  - by rewrite elem_of_cons.
  - destruct (precedes k k0); simpl.
    + by rewrite elem_of_cons.
    + rewrite !elem_of_cons, IH. tauto.
Qed.

Lemma sublist_insert_prop k v fs : fs.*1 `sublist_of` (insert_prop k v fs).*1.
Proof.
  induction fs as [|[k0 v0] fs IH]; simpl.
  - apply sublist_nil_l.
  - destruct (precedes k k0); simpl; [by apply sublist_cons|by apply sublist_skip].
Qed.

Lemma NoDup_insert_prop k v fs :
  k ∉ fs.*1 → NoDup fs.*1 → NoDup (insert_prop k v fs).*1.
Proof.
  induction fs as [|[k0 v0] fs IH]; simpl.
  - intros _ _. apply NoDup_singleton.
  - intros [Hk Hk']%not_elem_of_cons [H0 Hn]%NoDup_cons.
    destruct (precedes k k0); simpl.
    + apply NoDup_cons. split; [|by apply NoDup_cons].
      by intros [?|?]%elem_of_cons.
    + apply NoDup_cons. split; [|by apply IH].
      rewrite elem_of_keys_insert_prop. intros [?|?]; [congruence|done].
Qed.

Lemma precedes_key_order k k0 k' :
  precedes k k0 = true → key_order k0 k' → key_order k k'.
Proof.
  unfold precedes, key_order.
  destruct (array_index k), (array_index k0), (array_index k'); try done.
  intros ?%N.ltb_lt ?. lia.
Qed.

Lemma precedes_true_key_order k k0 : precedes k k0 = true → key_order k k0.
Proof.
  unfold precedes, key_order.
  destruct (array_index k), (array_index k0); try done.
  intros ?%N.ltb_lt. lia.
Qed.

Lemma precedes_false_key_order k k0 : precedes k k0 = false → key_order k0 k.
Proof.
  unfold precedes, key_order.
  destruct (array_index k), (array_index k0); try done.
  intros ?%N.ltb_ge. done.
Qed.

Lemma key_order_precedes k k0 : key_order k0 k → precedes k k0 = false.
Proof.
  unfold precedes, key_order.
  destruct (array_index k), (array_index k0); try done.
  intros ?. by apply N.ltb_ge.
Qed.

Lemma js_ordered_insert_prop k v fs : js_ordered fs → js_ordered (insert_prop k v fs).
Proof.
  unfold js_ordered. induction fs as [|[k0 v0] fs IH]; simpl.
  - intros _. repeat constructor.
  - intros Hs. apply StronglySorted_inv in Hs as [Hs H0].
    destruct (precedes k k0) eqn:Ep; simpl.
    + constructor; [by constructor|]. constructor.
      * by apply precedes_true_key_order.
      * eapply Forall_impl; [exact H0|]. intros k'. by apply precedes_key_order.
    + constructor; [by apply IH|].
      apply Forall_forall. intros x [->|Hx]%elem_of_keys_insert_prop.
      * by apply precedes_false_key_order.
      * rewrite Forall_forall in H0. by apply H0.
Qed.

Lemma insert_prop_last k v fs :
  Forall (λ k', precedes k k' = false) fs.*1 → insert_prop k v fs = fs ++ [(k, v)].
Proof.
  induction fs as [|[k0 v0] fs IH]; simpl; [done|].
  intros [-> H]%Forall_cons. by rewrite IH.
Qed.

Lemma insert_prop_first k v fs :
  Forall (λ k', precedes k k' = true) fs.*1 → insert_prop k v fs = (k, v) :: fs.
Proof. destruct fs as [|[k0 v0] fs]; simpl; [done|]. by intros [-> _]%Forall_cons. Qed.

Lemma sublist_set_prop k v fs : fs.*1 `sublist_of` (set_prop k v fs).*1.
Proof.
  unfold set_prop. destruct (assoc k fs).
  - by rewrite keys_replace_prop.
  - apply sublist_insert_prop.
Qed.

Lemma NoDup_set_prop k v fs : NoDup fs.*1 → NoDup (set_prop k v fs).*1.
Proof.
  unfold set_prop. destruct (assoc k fs) eqn:E.
  - by rewrite keys_replace_prop.
  - apply NoDup_insert_prop. by apply assoc_None.
Qed.

Lemma js_ordered_set_prop k v fs : js_ordered fs → js_ordered (set_prop k v fs).
Proof.
  unfold set_prop. destruct (assoc k fs).
  - unfold js_ordered. by rewrite keys_replace_prop.
  - apply js_ordered_insert_prop.
Qed.

(** The keys of [{...a, ...b}]: those of [a] in their order, among them the
    new ones; distinct and in enumeration order when those of [a] are. *)
Lemma keys_spread_props a ps :
  a.*1 `sublist_of` (fold_left (λ acc kv, set_prop kv.1 kv.2 acc) ps a).*1
  ∧ (NoDup a.*1 → NoDup (fold_left (λ acc kv, set_prop kv.1 kv.2 acc) ps a).*1)
  ∧ (js_ordered a → js_ordered (fold_left (λ acc kv, set_prop kv.1 kv.2 acc) ps a)).
Proof.
  revert a. induction ps as [|[k v] ps IH]; intros a; simpl; [done|].
  destruct (IH (set_prop k v a)) as (Hp & Hn & Ho). split_and!.
  - etrans; [apply (sublist_set_prop k v)|exact Hp].
  - intros Ha. by apply Hn, NoDup_set_prop.
  - intros Ha. by apply Ho, js_ordered_set_prop.
Qed.

Lemma spread_props_ordered a fs :
  NoDup (a ++ fs).*1 → js_ordered (a ++ fs) →
  fold_left (λ acc kv, set_prop kv.1 kv.2 acc) fs a = a ++ fs.
Proof.
  revert a. induction fs as [|[k v] fs IH]; intros a Hn Ho; simpl.
  - by rewrite app_nil_r.
  - assert (set_prop k v a = a ++ [(k, v)]) as ->.
    { unfold set_prop. unfold js_ordered in Ho. rewrite fmap_app in Hn, Ho.
      simpl in Hn, Ho.
      assert (assoc k a = None) as ->.
      { apply assoc_None. apply NoDup_app in Hn as (_ & Hn & _).
        intros Hk. apply (Hn k Hk). apply list_elem_of_here. }
      apply insert_prop_last, Forall_forall. intros k' Hk'.
      apply key_order_precedes.
      apply (StronglySorted_app_1_elem_of key_order a.*1 (k :: fs.*1)); [done..|].
      apply list_elem_of_here. }
    rewrite IH; rewrite <- ?app_assoc; done.
Qed.

(** Copying an object with [{...o}] gives its properties in their order. *)
Lemma spread_copy fs : NoDup fs.*1 → js_ordered fs → spread [] (JObj fs) = fs.
Proof. intros Hn Ho. unfold spread. simpl. by rewrite spread_props_ordered. Qed.

(** The operations that leave the configuration alone. *)
Lemma config_fold {A} (f : World → A → World) l w :
  (∀ w a, _config (f w a) = _config w) → _config (fold_left f l w) = _config w.
Proof.
  intros Hf. revert w. induction l as [|a l IH]; intros w; simpl; [done|].
  by rewrite IH.
Qed.

Lemma config_dispose k w : _config (dispose k w) = _config w.
Proof. unfold dispose, kill. by repeat case_match; simplify_eq. Qed.

Lemma config_emit_error k e w : _config (emit_error k e w).1 = _config w.
Proof.
  assert (∀ h w, _config (errorHandler h e w) = _config w) as He.
  { intros. unfold errorHandler. by case_match. }
  unfold emit_error. repeat case_match; try done. simpl.
  by rewrite config_fold, He.
Qed.

Lemma config_emit_exit k c s w : _config (emit_exit k c s w) = _config w.
Proof.
  unfold emit_exit. case_match; [|done].
  apply config_fold. intros. unfold exitHandler. by case_match.
Qed.

Lemma config_emit_data k d w : _config (emit_data k d w) = _config w.
Proof.
  unfold emit_data. case_match; [|done].
  apply config_fold. intros. unfold dataHandler. by case_match.
Qed.

Lemma config_run_task j w : _config (run_task j w) = _config w.
Proof.
  destruct j; simpl.
  - unfold run_killTimeout, kill. by repeat case_match; simplify_eq.
  - apply config_dispose.
  - unfold run_immediateDisposeUnlessDisposed.
    repeat case_match; try done. apply config_dispose.
Qed.

Lemma config_closeTerminal k w : _config (closeTerminal k w).1 = _config w.
Proof.
  unfold closeTerminal. case_match; [|done]. simpl.
  apply (config_dispose k (log (log_closing k) w)).
Qed.

Lemma config_closeAllTerminals w : _config (closeAllTerminals w) = _config w.
Proof. apply config_fold. intros. apply config_closeTerminal. Qed.

Lemma config_write k d w : _config (write k d w).1 = _config w.
Proof.
  unfold write. repeat case_match; try done.
  all: by rewrite config_emit_error.
Qed.

Lemma config_resize k c r w : _config (resize k c r w).1 = _config w.
Proof.
  unfold resize. repeat case_match; try done.
  all: by rewrite config_emit_error.
Qed.

Lemma config_pty_emits_data k d w : _config (pty_emits_data k d w) = _config w.
Proof.
  unfold pty_emits_data, onDataListener_cb. repeat case_match; try done.
  apply config_emit_data.
Qed.

Lemma config_pty_emits_exit k c s w : _config (pty_emits_exit k c s w) = _config w.
Proof.
  unfold pty_emits_exit, onExitListener_cb. repeat case_match; try done.
  simpl. by rewrite config_emit_exit.
Qed.

Lemma config_pty_emits_error k e w : _config (pty_emits_error k e w) = _config w.
Proof.
  unfold pty_emits_error, errorHandler_cb. repeat case_match; try done.
  by rewrite config_emit_error.
Qed.

Lemma config_createTerminal pn cwd o w :
  _config (createTerminal pn cwd o w).1 = _config w.
Proof.
  unfold createTerminal. destruct (spawn_options _ _); [|done].
  unfold spawnShell. by repeat case_match; simplify_eq.
Qed.

Lemma config_restore_entry d w : _config (restore_entry d w) = _config w.
Proof.
  unfold restore_entry. case_match; [|done].
  pose proof (config_createTerminal a (prop d "cwd")
                (JObj [("cols", prop d "cols"); ("rows", prop d "rows")]) w) as H'.
  by destruct (createTerminal _ _ _ w) as [w1 [?|?]].
Qed.

(** restoreTerminals merges the saved configuration when it restores. *)
Lemma config_restoreTerminals st w :
  _config (restoreTerminals st w).1 =
  if truthy st && truthy (prop st "terminals") && truthy (prop st "config")
  then spread (_config w) (prop st "config") else _config w.
Proof.
  unfold restoreTerminals.
  destruct (truthy st); [|done]. destruct (truthy (prop st "terminals")); [|done].
  simpl. destruct (truthy (prop st "config")), (prop st "terminals"); simpl; try done.
  all: by rewrite config_fold by (intros; apply config_restore_entry).
Qed.

Lemma config_step w e :
  _config (step w e) = _config w
  ∨ ∃ u, _config (step w e) = spread (_config w) u.
Proof.
  destruct e; simpl.
  - left. apply config_createTerminal.
  - left. apply config_closeTerminal.
  - left. apply config_closeAllTerminals.
  - rewrite config_restoreTerminals. case_match; eauto.
  - right. by eexists.
  - left. apply config_closeAllTerminals.
  - left. apply config_write.
  - left. apply config_resize.
  - left. apply config_dispose.
  - left. apply config_pty_emits_data.
  - left. apply config_pty_emits_exit.
  - left. apply config_pty_emits_error.
  - left. case_match; [|done]. by rewrite config_run_task.
Qed.

(** X14: updateConfig merges shallowly: after it, a key has the value that
    the update gives it (the last one, should the update list a key twice),
    and the value it had when the update does not have the key.  The keys
    that existed keep their relative order, the keys stay distinct and in
    the enumeration order of JavaScript: a new key that is an array index
    goes before every key that is not (an update with the one key 7 puts it
    first in the default configuration), any other new key goes last.  The
    new configuration is emitted as config-changed, and nothing else of the
    service changes: no terminal is touched, registered or scheduled. *)
Theorem updateConfig_merges updates w k :
  let w' := updateConfig updates w in
  assoc k (_config w') =
    match assoc k (reverse (own_props updates)) with
    | Some v => Some v
    | None => assoc k (_config w)
    end
  ∧ (_config w).*1 `sublist_of` (_config w').*1
  ∧ (NoDup (_config w).*1 → NoDup (_config w').*1)
  ∧ (js_ordered (_config w) → js_ordered (_config w'))
  ∧ (∀ k1 v1, updates = JObj [(k1, v1)] → assoc k1 (_config w) = None →
       (array_index k1 = None → _config w' = _config w ++ [(k1, v1)])
       ∧ (is_Some (array_index k1) →
          Forall (λ k', array_index k' = None) (_config w).*1 →
          _config w' = (k1, v1) :: _config w))
  ∧ emitted w' = emitted w ++ [config_changed (_config w')]
  ∧ store w' = store w
  ∧ _terminals w' = _terminals w
  ∧ _nextTerminalId w' = _nextTerminalId w
  ∧ tasks w' = tasks w.
Proof.
  intros w'. split_and!; try done.
  - apply assoc_spread_props.
  - apply keys_spread_props.
  - apply keys_spread_props.
  - apply keys_spread_props.
  - intros k1 v1 -> Hnew. subst w'. unfold updateConfig, spread, set_prop. simpl.
    rewrite Hnew. split.
    + intros Hk. apply insert_prop_last, Forall_forall. intros k' _.
      unfold precedes. by rewrite Hk.
    + intros [n Hk] Hs. apply insert_prop_first.
      eapply Forall_impl; [exact Hs|]. intros k' Hk'. simpl in Hk'.
      unfold precedes. by rewrite Hk, Hk'.
Qed.

(** X15: along any run of a new service, the configuration is an object
    with distinct keys in the enumeration order of JavaScript, it has the
    six default settings in their relative order (no operation removes a
    setting or swaps two of them), and getConfig returns a copy with the
    same properties in the same order. *)
Theorem config_keeps_defaults evs :
  let w := run evs new_TerminalService in
  NoDup (_config w).*1
  ∧ js_ordered (_config w)
  ∧ _loadConfig.*1 `sublist_of` (_config w).*1
  ∧ getConfig w = _config w.
Proof.
  intros w.
  assert (NoDup (_config w).*1 ∧ js_ordered (_config w)
          ∧ _loadConfig.*1 `sublist_of` (_config w).*1) as (Hn & Ho & Hp).
  { subst w. induction evs as [|e evs IH] using rev_ind.
    - split_and!; [|  |done].
      + apply (bool_decide_unpack _). vm_compute. reflexivity.
      + unfold js_ordered. simpl. repeat constructor.
    - assert (run (evs ++ [e]) new_TerminalService
              = step (run evs new_TerminalService) e) as ->
        by (unfold run; by rewrite fold_left_app).
      destruct IH as (Hn & Ho & Hp).
      destruct (config_step (run evs new_TerminalService) e) as [->|[u ->]];
        [done|].
      destruct (keys_spread_props (_config (run evs new_TerminalService))
                  (own_props u)) as (Hp' & Hn' & Ho').
      split_and!; [by apply Hn'|by apply Ho'|by etrans]. }
  split_and!; [done..|]. by apply spread_copy.
Qed.

(** ** main.js *)

Context (process_platform : string) (toLowerCase : string → string).

Local Abbreviation cd_command := (cd_command process_platform toLowerCase).
Local Abbreviation change_directories :=
  (change_directories pty_write process_platform toLowerCase).
Local Abbreviation changeAllTerminalsDirectory :=
  (changeAllTerminalsDirectory pty_write process_platform toLowerCase).
Local Abbreviation cd_writes := (cd_writes process_platform toLowerCase).
Local Abbreviation handle_terminal_create :=
  (handle_terminal_create availableShells defaultShell process_cwd os_homedir
     process_env pty_spawn).
Local Abbreviation on_pty_write := (on_pty_write pty_write).
Local Abbreviation on_pty_resize := (on_pty_resize pty_resize).

Lemma emit_error_returns k e w t :
  store w !! k = Some t → on_error (listeners t) = [k] →
  (emit_error k e w).2 = Return ().
Proof. intros Ht Hl. unfold emit_error. by rewrite Ht, Hl. Qed.

Lemma active_error_listener k w t :
  world_ok w → store w !! k = Some t → _isDisposed t = false →
  on_error (listeners t) = [k].
Proof.
  intros Hw Ht Hd. destruct (ok_instance w Hw k t Ht) as [_ _ Ha].
  destruct (Ha Hd) as [_ _ Hl _]. by rewrite Hl.
Qed.

(** In a well-formed world write and resize return: the error of a failed
    call goes to the listener that createTerminal attached. *)
Lemma write_returns k d w : world_ok w → (write k d w).2 = Return ().
Proof.
  intros Hw. unfold write.
  destruct (store w !! k) as [t|] eqn:Ht; [|done].
  destruct (_isDisposed t) eqn:Hd; [done|].
  destruct (_pty t) as [p|] eqn:Hp; [|done].
  destruct (pty_write p d) as [e|]; [|done].
  apply (emit_error_returns _ _ _ (set_pty (Some (pty_failed p)) t)).
  - destruct (broken_channel e); simpl; by rewrite lookup_insert_eq.
  - simpl. by eapply active_error_listener.
Qed.

Lemma resize_returns k c r w : world_ok w → (resize k c r w).2 = Return ().
Proof.
  intros Hw. unfold resize.
  destruct (store w !! k) as [t|] eqn:Ht; [|done].
  destruct (_isDisposed t) eqn:Hd; [done|].
  destruct (_pty t) as [p|] eqn:Hp; [|done].
  destruct (pty_resize p c r) as [e|]; [|done].
  apply (emit_error_returns _ _ _
           (set_pty (Some (pty_failed p)) (set_dimensions c r t))).
  - destruct (broken_channel e); simpl; by rewrite lookup_insert_eq.
  - simpl. by eapply active_error_listener.
Qed.

Lemma cd_command_nonempty n path : cd_command n path ≠ EmptyString.
Proof. unfold cd_command. by repeat case_match. Qed.

Lemma getAllTerminals_ids w : world_ok w → _id <$> getAllTerminals w = _terminals w.
Proof.
  intros [_ Hi _ Hr]. unfold getAllTerminals.
  generalize (_terminals w) Hr. clear Hr. intros l Hr.
  induction l as [|k l IH]; [done|]. simpl.
  destruct (Hr k) as [t Ht]; [apply list_elem_of_here|].
  rewrite Ht. simpl. f_equal.
  - by destruct (Hi k t Ht).
  - apply IH. intros k' Hk'. apply Hr. by apply list_elem_of_further.
Qed.

Lemma cd_writes_same path l w w' :
  (∀ k, k ∈ l → store w' !! k = store w !! k) →
  cd_writes path l w' = cd_writes path l w.
Proof.
  intros H. induction l as [|k l IH]; [done|].
  assert (cd_writes path l w' = cd_writes path l w) as IH'.
  { apply IH. intros k' Hk'. apply H. by apply list_elem_of_further. }
  unfold cd_writes in *. csimpl.
  rewrite (H k) by apply list_elem_of_here. by rewrite IH'.
Qed.

Lemma cd_writes_cons path k l w :
  cd_writes path (k :: l) w =
  match store w !! k with
  | Some t =>
      if _isDisposed t then cd_writes path l w
      else Write k (cd_command (shellName t) path) :: cd_writes path l w
  | None => cd_writes path l w
  end.
Proof.
  unfold cd_writes. csimpl.
  destruct (store w !! k) as [t|]; [destruct (_isDisposed t)|]; done.
Qed.

Lemma change_directories_run path l w :
  world_ok w → NoDup l →
  change_directories path l w = (run (cd_writes path l w) w, Return ()).
Proof.
  revert w. induction l as [|k l IH]; intros w Hw Hn; [done|].
  apply NoDup_cons in Hn as [Hk Hn]. rewrite cd_writes_cons.
  cbn [change_directories].
  destruct (store w !! k) as [t|] eqn:Ht; [|by apply IH].
  destruct (_isDisposed t) eqn:Hd; [by apply IH|].
  rewrite bool_decide_eq_false_2 by apply cd_command_nonempty.
  pose proof (write_returns k (cd_command (shellName t) path) w Hw) as Hr.
  pose proof (world_ok_write k (cd_command (shellName t) path) w Hw) as Hw'.
  pose proof (touches_only_write k (cd_command (shellName t) path) w) as Ho.
  rewrite run_cons.
  change (step w (Write k ?d)) with (write k d w).1.
  destruct (write k _ w) as [w' r]. simpl in Hr, Hw', Ho. subst r.
  rewrite IH by done. simpl. f_equal. f_equal. apply cd_writes_same.
  intros k' Hk'. apply Ho. intros ->. done.
Qed.

Lemma terminals_fold {A} (f : World → A → World) l w :
  (∀ w a, _terminals (f w a) = _terminals w) →
  _terminals (fold_left f l w) = _terminals w.
Proof.
  intros Hf. revert w. induction l as [|a l IH]; intros w; simpl; [done|].
  by rewrite IH.
Qed.

Lemma terminals_emit_error k e w : _terminals (emit_error k e w).1 = _terminals w.
Proof.
  assert (∀ h w, _terminals (errorHandler h e w) = _terminals w) as He.
  { intros. unfold errorHandler. by case_match. }
  unfold emit_error. repeat case_match; try done. simpl.
  by rewrite terminals_fold, He.
Qed.

Lemma terminals_write k d w : _terminals (write k d w).1 = _terminals w.
Proof.
  unfold write. repeat case_match; try done.
  all: by rewrite terminals_emit_error.
Qed.

Lemma terminals_resize k c r w : _terminals (resize k c r w).1 = _terminals w.
Proof.
  unfold resize. repeat case_match; try done.
  all: by rewrite terminals_emit_error.
Qed.

Lemma terminals_cd_writes path l w0 w :
  _terminals (run (cd_writes path l w0) w) = _terminals w.
Proof.
  revert w. induction l as [|k l IH]; intros w; [done|].
  rewrite cd_writes_cons. repeat case_match; try apply IH.
  rewrite run_cons, IH. apply terminals_write.
Qed.

(** X16: in every world that a run reaches, changeAllTerminalsDirectory
    does what one write to each registered terminal that is not disposed
    does, in the order of the registry, each terminal getting the command
    for its shell name; no write throws, so no terminal is skipped, and the
    function logs its success.  Off Windows the command is cd, the path in
    double quotes, and a carriage return, for every terminal; the path is
    not escaped. *)
Theorem changeAllTerminalsDirectory_writes_all evs path :
  let w := run evs new_TerminalService in
  changeAllTerminalsDirectory path w
    = (run (cd_writes path (_terminals w) w) w, [log_all_changed_directory path])
  ∧ _terminals (changeAllTerminalsDirectory path w).1 = _terminals w
  ∧ (process_platform ≠ "win32" →
     ∀ n, cd_command n path = "cd " +:+ dquote +:+ path +:+ dquote +:+ carriage_return).
Proof.
  intros w. pose proof (world_ok_reachable evs) as Hw. fold w in Hw.
  assert (changeAllTerminalsDirectory path w
    = (run (cd_writes path (_terminals w) w) w, [log_all_changed_directory path]))
    as Heq.
  { unfold changeAllTerminalsDirectory.
    rewrite getAllTerminals_ids, change_directories_run; try done.
    apply (registered_NoDup _ (ok_view w Hw)). }
  split_and!; [done| |].
  - rewrite Heq. apply terminals_cd_writes.
  - intros Hp n. unfold cd_command. by rewrite bool_decide_eq_false_2.
Qed.

Lemma cd_writes_effect path l w :
  (∀ p d, pty_write p d = None) → NoDup l →
  let w' := run (cd_writes path l w) w in
  emitted w' = emitted w ∧ tasks w' = tasks w
  ∧ (∀ k t p, k ∈ l → store w !! k = Some t → _isDisposed t = false →
       _pty t = Some p →
       store w' !! k
       = Some (set_pty (Some (pty_wrote (cd_command (shellName t) path) p)) t))
  ∧ (∀ k, k ∉ l → store w' !! k = store w !! k)
  ∧ (∀ k t, store w !! k = Some t → _isDisposed t = true →
       store w' !! k = Some t).
Proof.
  intros Hwr. revert w. induction l as [|k0 l IH]; intros w Hn w'.
  { subst w'. split_and!; try done. by intros k t p ?%elem_of_nil. }
  apply NoDup_cons in Hn as [Hk0 Hn]. subst w'. rewrite cd_writes_cons.
  assert (∀ w1, (∀ k, k ≠ k0 → store w1 !! k = store w !! k) →
            emitted w1 = emitted w → tasks w1 = tasks w →
            let w' := run (cd_writes path l w) w1 in
            emitted w' = emitted w ∧ tasks w' = tasks w
            ∧ (∀ k t p, k ∈ l → store w !! k = Some t → _isDisposed t = false →
                 _pty t = Some p →
                 store w' !! k
                 = Some (set_pty (Some (pty_wrote (cd_command (shellName t) path) p)) t))
            ∧ (∀ k, k ∉ l → store w' !! k = store w1 !! k)
            ∧ (∀ k t, store w1 !! k = Some t → _isDisposed t = true →
                 store w' !! k = Some t)) as Hrest.
  { intros w1 Hs He Hq w'. subst w'.
    rewrite <- (cd_writes_same path l w w1).
    2: { intros k Hk. apply Hs. intros ->. done. }
    destruct (IH w1 Hn) as (H1 & H2 & H3 & H4 & H5).
    split_and!; [congruence|congruence| |done|done].
    intros k t p Hk Ht Hd Hp. rewrite <- Hs in Ht by (intros ->; done).
    rewrite (H3 k t p Hk Ht Hd Hp). done. }
  destruct (store w !! k0) as [t0|] eqn:Ht0.
  2: { destruct (Hrest w) as (H1 & H2 & H3 & H4 & H5); try done.
       split_and!; try done.
       - intros k t p [->|Hk]%elem_of_cons; [congruence|]. by apply H3.
       - intros k [? ?]%not_elem_of_cons. by apply H4. }
  destruct (_isDisposed t0) eqn:Hd0.
  { destruct (Hrest w) as (H1 & H2 & H3 & H4 & H5); try done.
    split_and!; try done.
    - intros k t p [->|Hk]%elem_of_cons; [congruence|]. by apply H3.
    - intros k [? ?]%not_elem_of_cons. by apply H4. }
  rewrite run_cons. change (step w (Write k0 ?d)) with (write k0 d w).1.
  destruct (_pty t0) as [p0|] eqn:Hp0.
  - rewrite (write_active k0 _ w t0 p0) by done. simpl.
    set (t1 := set_pty _ t0).
    destruct (Hrest (put k0 t1 w)) as (H1 & H2 & H3 & H4 & H5); try done.
    { intros k Hk. simpl. by rewrite lookup_insert_ne. }
    split_and!; try done.
    + intros k t p [->|Hk]%elem_of_cons Ht Hd Hp; [|by apply (H3 k t p)].
      rewrite H4 by done. simpl. rewrite lookup_insert_eq.
      simplify_eq. done.
    + intros k [? ?]%not_elem_of_cons. rewrite H4 by done. simpl.
      by rewrite lookup_insert_ne.
    + intros k t Ht Hd. apply H5; [|done]. simpl.
      rewrite lookup_insert_ne; [done|]. intros ->. congruence.
  - assert ((write k0 (cd_command (shellName t0) path) w).1 = w) as ->.
    { unfold write. by rewrite Ht0, Hd0, Hp0. }
    destruct (Hrest w) as (H1 & H2 & H3 & H4 & H5); try done.
    split_and!; try done.
    + intros k t p [->|Hk]%elem_of_cons; [congruence|]. by apply H3.
    + intros k [? ?]%not_elem_of_cons. by apply H4.
Qed.

(** X17: while the writes of the processes succeed,
    changeAllTerminalsDirectory sends its command exactly once to the
    process of every registered terminal that is not disposed, and does
    nothing else: an instance that is disposed or not registered is as it
    was, and nothing is emitted or scheduled. *)
Theorem cd_command_reaches_each_terminal evs path :
  (∀ p d, pty_write p d = None) →
  let w := run evs new_TerminalService in
  let w' := (changeAllTerminalsDirectory path w).1 in
  emitted w' = emitted w
  ∧ tasks w' = tasks w
  ∧ (∀ k t p, k ∈ _terminals w → store w !! k = Some t → _isDisposed t = false →
       _pty t = Some p →
       ∃ t' p', store w' !! k = Some t' ∧ _pty t' = Some p'
                ∧ written p' = written p ++ [cd_command (shellName t) path]
                ∧ _isDisposed t' = false)
  ∧ (∀ k t, store w !! k = Some t → (k ∉ _terminals w) ∨ _isDisposed t = true →
       store w' !! k = Some t).
Proof.
  intros Hwr w w'. pose proof (world_ok_reachable evs) as Hw. fold w in Hw.
  assert (w' = run (cd_writes path (_terminals w) w) w) as ->.
  { subst w'. unfold changeAllTerminalsDirectory.
    rewrite getAllTerminals_ids, change_directories_run; try done.
    apply (registered_NoDup _ (ok_view w Hw)). }
  destruct (cd_writes_effect path (_terminals w) w Hwr) as (H1 & H2 & H3 & H4 & H5).
  { apply (registered_NoDup _ (ok_view w Hw)). }
  split_and!; try done.
  - intros k t p Hk Ht Hd Hp. rewrite (H3 k t p Hk Ht Hd Hp).
    eexists _, _. split_and!; done.
  - intros k t Ht [Hk|Hd]; [by rewrite H4|by apply H5].
Qed.

(** X18: the reply of the terminal:create handler.  When the handler
    returns, the terminal has the next id of the service and is registered,
    the reply carries that id, the shell name of the instance and the size
    80x30, which is also the size its process was spawned with.  The
    working directory is the one asked for, else the directory of the
    window, else the home directory (and the directory of the host process
    only when all of these are empty).  The handler writes one line to the
    console. *)
Theorem terminal_create_reply evs pn cwd wd w' reply lines :
  let w := run evs new_TerminalService in
  handle_terminal_create pn cwd wd w = (w', Return reply, lines) →
  _terminals w' = _terminals w ++ [_nextTerminalId w]
  ∧ lines = [log_creating_with_cwd (js_or (js_or cwd wd) (JStr os_homedir))]
  ∧ ∃ t, getTerminal (_nextTerminalId w) w' = Some t
         ∧ reply = JObj [("terminalId", JNum (_nextTerminalId w));
                         ("shellName", JStr (shellName t));
                         ("cols", JNum 80); ("rows", JNum 30)]
         ∧ _isDisposed t = false
         ∧ _cwd t = js_or (js_or (js_or cwd wd) (JStr os_homedir)) (JStr process_cwd)
         ∧ (size <$> _pty t) = Some (JNum 80, JNum 30).
Proof.
  intros w. pose proof (world_ok_reachable evs) as Hw. fold w in Hw.
  unfold handle_terminal_create.
  assert ((if negb (truthy (if negb (truthy cwd) then wd else cwd))
           then JStr os_homedir else if negb (truthy cwd) then wd else cwd)
          = js_or (js_or cwd wd) (JStr os_homedir)) as ->.
  { unfold js_or. destruct (truthy cwd) eqn:E1; simpl; rewrite ?E1; simpl; [done|].
    by destruct (truthy wd). }
  set (target := js_or (js_or cwd wd) (JStr os_homedir)).
  destruct (createTerminal pn target JUndefined w) as [w1 [k|e]] eqn:E.
  2: { intros H. by injection H. }
  destruct (createTerminal_instance _ _ _ _ _ _ Hw E)
    as (-> & Hfresh & Hreg & _ & t & Hget & Hid & Hd & Hcwd & Hdim & Hsz & _).
  assert (store w1 !! _nextTerminalId w = Some t) as Hst.
  { unfold getTerminal in Hget. by case_match. }
  rewrite Hst. intros [= <- <- <-]. split_and!; [done..|].
  exists t. unfold dimensions in Hdim. injection Hdim as Hc Hr.
  rewrite Hid. split_and!; try done.
  - unfold dimensions. simpl. by rewrite Hc, Hr.
  - rewrite Hcwd. unfold js_default, target.
    by destruct (js_or (js_or cwd wd) (JStr os_homedir)).
Qed.

(** X19: in every world that a run reaches, the pty:write and pty:resize
    listeners act on registered terminals only.  For an id that is not
    registered (never created, closed, or removed because its process has
    exited) nothing reaches any process: the service is as it was, and
    pty:write warns while pty:resize is silent.  For a registered id they do
    what write and resize of the instance do, and neither of them throws or
    logs in main.js. *)
Theorem pty_channels_registered_only evs k d c r :
  let w := run evs new_TerminalService in
  (k ∉ _terminals w →
     on_pty_write k d w = (w, [warn_not_found_for_write k])
     ∧ on_pty_resize k c r w = (w, []))
  ∧ (k ∈ _terminals w →
     on_pty_write k d w = ((write k d w).1, [])
     ∧ on_pty_resize k c r w = ((resize k c r w).1, [])).
Proof.
  intros w. pose proof (world_ok_reachable evs) as Hw. fold w in Hw.
  unfold on_pty_write, on_pty_resize, getTerminal, has. split; intros Hk.
  - by rewrite bool_decide_eq_false_2.
  - rewrite bool_decide_eq_true_2 by done.
    destruct (ok_registered w Hw k Hk) as [t Ht]. rewrite Ht.
    pose proof (write_returns k d w Hw) as Hwr.
    pose proof (resize_returns k c r w Hw) as Hrs.
    destruct (_isDisposed t) eqn:Hd; simpl.
    + unfold write, resize. by rewrite Ht, Hd.
    + destruct (write k d w) as [w1 r1], (resize k c r w) as [w2 r2].
      simpl in *. by subst.
Qed.

(** ** Saving and restoring *)

Lemma createTerminal_spawn_returns pn cwd o w :
  (∀ n sh a opts, pty_spawn n sh a opts = None) → o ≠ JNull →
  ∃ w' k, createTerminal pn cwd o w = (w', Return k).
Proof.
  intros Hsp Ho. destruct (spawn_options_returns o Ho) as [so Hso].
  unfold createTerminal. rewrite Hso.
  set (w1 := set_nextTerminalId _ w).
  destruct (spawnShell_outcome (js_default pn JNull)
              (js_or (js_default cwd JNull) (JStr process_cwd)) so w1)
    as (sh & a & opts & Hout).
  rewrite Hsp in Hout.
  destruct (spawnShell _ _ _ w1) as [w2 [p|e]]; simpl in Hout; [|done].
  by eexists _, _.
Qed.

(** The entry that getState saved for the instance [t] is restored as a
    new terminal. *)
Lemma restore_entry_of_state t w :
  (∀ n sh a opts, pty_spawn n sh a opts = None) → world_ok w →
  let w' := restore_entry (getState t) w in
  world_ok w'
  ∧ _terminals w' = _terminals w ++ [_nextTerminalId w]
  ∧ _nextTerminalId w' = (_nextTerminalId w + 1)%Z
  ∧ (∀ k, k ≠ _nextTerminalId w → store w' !! k = store w !! k)
  ∧ ∃ t', getTerminal (_nextTerminalId w) w' = Some t'
          ∧ _isDisposed t' = false
          ∧ _cwd t' = js_or (_cwd t) (JStr process_cwd)
          ∧ dimensions t' = (JNum 80, JNum 30)
          ∧ (size <$> _pty t') =
            Some (js_or (_cols t) (JNum 80), js_or (_rows t) (JNum 30)).
Proof.
  intros Hsp Hw w'. pose proof (world_ok_restore_entry (getState t) w Hw) as Hw'.
  subst w'. unfold restore_entry in *. simpl in *.
  set (sp := js_or _ JNull) in *.
  set (o := JObj [("cols", _cols t); ("rows", _rows t)]) in *.
  destruct (createTerminal_spawn_returns sp (_cwd t) o w Hsp) as (w1 & k & E); [done|].
  change (prop (getState t) "cwd") with (_cwd t) in *.
  change (JObj [("cols", prop (getState t) "cols"); ("rows", prop (getState t) "rows")])
    with o in *.
  rewrite E in *.
  destruct (createTerminal_instance _ _ _ _ _ _ Hw E)
    as (-> & Hfresh & Hreg & Hst & t' & Hget & Hid & Hd & Hcwd & Hdim & Hsz & _).
  destruct (createTerminal_returns _ _ _ _ _ _ E) as (_ & Hnext & _).
  split_and!; try done.
  exists t'. split_and!; try done.
  rewrite Hcwd. unfold js_default. by destruct (_cwd t).
Qed.

Lemma getTerminal_extended k t w w' k1 :
  getTerminal k w = Some t → k ≠ k1 →
  _terminals w' = _terminals w ++ [k1] →
  (∀ k', k' ≠ k1 → store w' !! k' = store w !! k') →
  getTerminal k w' = Some t.
Proof.
  unfold getTerminal, has. intros Hg Hk Hreg Hst.
  case_bool_decide as Hin; [|done].
  rewrite bool_decide_eq_true_2, Hst; [done..|].
  rewrite Hreg. apply elem_of_app. by left.
Qed.

Lemma restore_states ts w0 :
  (∀ n sh a opts, pty_spawn n sh a opts = None) → world_ok w0 →
  let w' := fold_left (λ w d, restore_entry d w) (getState <$> ts) w0 in
  world_ok w'
  ∧ _terminals w' =
    _terminals w0 ++ ((λ i, (_nextTerminalId w0 + Z.of_nat i)%Z) <$> seq 0 (length ts))
  ∧ _nextTerminalId w' = (_nextTerminalId w0 + Z.of_nat (length ts))%Z
  ∧ ∀ i t, ts !! i = Some t →
      ∃ t', getTerminal (_nextTerminalId w0 + Z.of_nat i) w' = Some t'
            ∧ _isDisposed t' = false
            ∧ _cwd t' = js_or (_cwd t) (JStr process_cwd)
            ∧ dimensions t' = (JNum 80, JNum 30)
            ∧ (size <$> _pty t') =
              Some (js_or (_cols t) (JNum 80), js_or (_rows t) (JNum 30)).
Proof.
  intros Hsp Hw0. induction ts as [|t ts IH] using rev_ind; intros w'.
  { subst w'. simpl. rewrite app_nil_r. split_and!; [done|done|lia|].
    intros i t Hi. by rewrite lookup_nil in Hi. }
  subst w'. rewrite fmap_app, fold_left_app. simpl.
  set (w1 := fold_left _ (getState <$> ts) w0) in *.
  destruct IH as (Hw1 & Hreg1 & Hnext1 & Hall1).
  destruct (restore_entry_of_state t w1 Hsp Hw1)
    as (Hw' & Hreg & Hnext & Hst & t' & Hget & Hrest).
  rewrite length_app, seq_app, fmap_app. simpl.
  split_and!; [done| |lia|].
  - rewrite Hreg, Hreg1, Hnext1, <- app_assoc. done.
  - intros i t0 Hi.
    destruct (decide (i < length ts)) as [Hlt|Hge].
    + rewrite lookup_app_l in Hi by done.
      destruct (Hall1 i t0 Hi) as (t1 & Hg1 & Hr1).
      exists t1. split; [|done].
      apply (getTerminal_extended _ _ w1 _ (_nextTerminalId w1)); try done. lia.
    + apply lookup_lt_Some in Hi as Hi'. rewrite length_app in Hi'. simpl in Hi'.
      assert (i = length ts) as -> by lia.
      rewrite list_lookup_middle in Hi by done. injection Hi as <-.
      exists t'. rewrite <- Hnext1. done.
Qed.

(** X20: restoring what getTerminalState saved, when every spawn succeeds.
    restoreTerminals returns, the saved configuration is merged into the
    configuration, and every saved terminal is created again, in the saved
    order, as a new terminal that is not disposed (even if the saved one
    was), in the saved working directory.  The saved ids are not used: the
    terminals get the next ids of the service.  The saved size goes to the
    process only: the instance reports 80x30 again. *)
Theorem snapshot_round_trip evs0 w :
  (∀ n sh a opts, pty_spawn n sh a opts = None) →
  let w0 := run evs0 new_TerminalService in
  let saved := getAllTerminals w in
  let w' := (restoreTerminals (getTerminalState w) w0).1 in
  (restoreTerminals (getTerminalState w) w0).2 = Return ()
  ∧ _config w' = spread (_config w0) (JObj (_config w))
  ∧ _terminals w' =
    _terminals w0
    ++ ((λ i, (_nextTerminalId w0 + Z.of_nat i)%Z) <$> seq 0 (length saved))
  ∧ ∀ i t, saved !! i = Some t →
      ∃ t', getTerminal (_nextTerminalId w0 + Z.of_nat i) w' = Some t'
            ∧ _isDisposed t' = false
            ∧ _cwd t' = js_or (_cwd t) (JStr process_cwd)
            ∧ dimensions t' = (JNum 80, JNum 30)
            ∧ (size <$> _pty t') =
              Some (js_or (_cols t) (JNum 80), js_or (_rows t) (JNum 30)).
Proof.
  intros Hsp w0 saved w'. pose proof (world_ok_reachable evs0) as Hw0. fold w0 in Hw0.
  set (c := spread (_config w0) (JObj (_config w))).
  assert (world_ok (set_config c w0)) as Hwc by (by apply (world_ok_same w0)).
  assert (restoreTerminals (getTerminalState w) w0
          = (fold_left (λ w d, restore_entry d w) (getState <$> saved)
               (set_config c w0), Return ())) as Heq by done.
  subst w'. rewrite Heq. simpl.
  destruct (restore_states saved (set_config c w0) Hsp Hwc) as (_ & Hreg & _ & Hall).
  split_and!; [done| |done|done].
  rewrite config_fold; [done|]. intros. apply config_restore_entry.
Qed.

(** X21: restoreTerminals without a list of terminals.  When the state or
    its terminals field is missing (null, undefined, empty, zero, false),
    restoreTerminals returns and changes nothing, not even the
    configuration that the state may carry.  When the terminals field is
    there but is not an array, restoreTerminals throws, after it has merged
    the configuration of the state.  In both cases no terminal is created,
    no id is taken and nothing is emitted. *)
Theorem restoreTerminals_without_list state w :
  (∀ items, prop state "terminals" ≠ JArr items) →
  let r := restoreTerminals state w in
  store r.1 = store w
  ∧ view r.1 = view w
  ∧ tasks r.1 = tasks w
  ∧ console r.1 = console w
  ∧ (truthy state && truthy (prop state "terminals") = false → r = (w, Return ()))
  ∧ (truthy state && truthy (prop state "terminals") = true →
     (∃ e, r.2 = Throw e)
     ∧ _config r.1 = if truthy (prop state "config")
                     then spread (_config w) (prop state "config")
                     else _config w).
Proof.
  intros Hl r. subst r. unfold restoreTerminals.
  destruct (truthy state); simpl; [|done].
  destruct (truthy (prop state "terminals")) eqn:Et; simpl; [|done].
  destruct (prop state "terminals") as [| |b|n|s|items|fs]; try done.
  all: try by destruct (Hl _ eq_refl).
  all: destruct (truthy (prop state "config")); simpl.
  all: split_and!; try done; by eauto.
Qed.

(** ** What stays of an instance *)

Lemma unchanged_refl b t : unchanged b t t.
Proof. by repeat split. Qed.

Lemma unchanged_trans b t1 t2 t3 :
  unchanged b t1 t2 → unchanged b t2 t3 → unchanged b t1 t3.
Proof.
  intros (? & ? & ? & Hd1) (? & ? & ? & Hd2). repeat split; try congruence.
  intros Hb. rewrite Hd2, Hd1; done.
Qed.

Lemma stays_refl b k w : stays b k w w.
Proof. intros t Ht. exists t. split; [done|apply unchanged_refl]. Qed.

Lemma stays_trans b k w1 w2 w3 : stays b k w1 w2 → stays b k w2 w3 → stays b k w1 w3.
Proof.
  intros H12 H23 t Ht. destruct (H12 t Ht) as (t2 & Ht2 & H2).
  destruct (H23 t2 Ht2) as (t3 & Ht3 & H3). exists t3. split; [done|].
  by apply (unchanged_trans b t t2 t3).
Qed.

Lemma stays_same b k w w' : store w' = store w → stays b k w w'.
Proof. intros Hs t Ht. exists t. rewrite Hs. split; [done|apply unchanged_refl]. Qed.

Lemma stays_other b k k' w w' : touches_only k' w w' → k ≠ k' → stays b k w w'.
Proof.
  intros Ho Hk t Ht. exists t. rewrite Ho by done. split; [done|apply unchanged_refl].
Qed.

Lemma stays_store b k k' t0 t1 w w' :
  store w' = <[k' := t1]> (store w) → store w !! k' = Some t0 →
  unchanged b t0 t1 → stays b k w w'.
Proof.
  intros Hs H0 H1 t Ht. rewrite Hs, lookup_insert. case_decide.
  - subst k'. rewrite Ht in H0. injection H0 as <-. by exists t1.
  - exists t. split; [done|apply unchanged_refl].
Qed.

Lemma stays_dispose b k k' w : stays b k w (dispose k' w).
Proof.
  destruct (store w !! k') as [t0|] eqn:H0.
  2: { unfold dispose. rewrite H0. apply stays_refl. }
  destruct (_isDisposed t0) eqn:Hd.
  { unfold dispose. rewrite H0, Hd. apply stays_refl. }
  destruct (dispose_instance k' w t0 H0 Hd) as (Hs & _).
  by apply (stays_store b k k' t0 (disposed_instance t0)).
Qed.

Lemma stays_run_task b k j w : stays b k w (run_task j w).
Proof.
  destruct j as [k'|k'|k']; simpl.
  - unfold run_killTimeout, kill. destruct (store w !! k') as [t0|] eqn:H0;
      [|apply stays_refl].
    destruct (_pty t0) as [p|] eqn:Ep; [|by apply stays_same].
    destruct (pty_kill p SIGKILL).
    all: by apply (stays_store b k k' t0 (set_pty (Some (pty_killed SIGKILL p)) t0)).
  - apply stays_dispose.
  - unfold run_immediateDisposeUnlessDisposed.
    destruct (store w !! k') as [t0|]; [|apply stays_refl].
    destruct (_isDisposed t0); [apply stays_refl|apply stays_dispose].
Qed.

Lemma stays_write b k k' d w : stays b k w (write k' d w).1.
Proof.
  unfold write. destruct (store w !! k') as [t0|] eqn:H0; [|apply stays_refl].
  destruct (_isDisposed t0) eqn:Hd; [apply stays_refl|].
  destruct (_pty t0) as [p|] eqn:Ep; [|apply stays_refl].
  destruct (pty_write p d) as [e|]; simpl.
  - apply (stays_store b k k' t0 (set_pty (Some (pty_failed p)) t0)); [|done..].
    rewrite store_emit_error. by destruct (broken_channel e).
  - by apply (stays_store b k k' t0 (set_pty (Some (pty_wrote d p)) t0)).
Qed.

Lemma stays_resize b k k' c r w :
  (b = true → k' ≠ k) → stays b k w (resize k' c r w).1.
Proof.
  intros Hb. destruct b.
  { apply (stays_other _ k k'); [apply touches_only_resize|].
    intros ->. by apply Hb. }
  unfold resize. destruct (store w !! k') as [t0|] eqn:H0; [|apply stays_refl].
  destruct (_isDisposed t0) eqn:Hd; [apply stays_refl|].
  destruct (_pty t0) as [p|] eqn:Ep; [|apply stays_refl].
  destruct (pty_resize p c r) as [e|]; simpl.
  - apply (stays_store _ k k' t0
             (set_pty (Some (pty_failed p)) (set_dimensions c r t0))); [|done..].
    rewrite store_emit_error. by destruct (broken_channel e).
  - by apply (stays_store _ k k' t0
                (set_pty (Some (pty_resized c r p)) (set_dimensions c r t0))).
Qed.

Lemma stays_pty_emits_exit b k k' c s w : stays b k w (pty_emits_exit k' c s w).
Proof.
  unfold pty_emits_exit. destruct (store w !! k') as [t0|] eqn:H0; [|apply stays_refl].
  destruct (_pty t0) as [p|] eqn:Ep; [|apply stays_refl].
  apply (stays_store b k k' t0 (set_pty (Some (pty_exited p)) t0)); [|done..].
  destruct (exitListener p); [|done]. unfold onExitListener_cb.
  repeat case_match; try done. simpl. by rewrite store_emit_exit.
Qed.

Lemma stays_createTerminal b k pn cwd o w :
  world_ok w → stays b k w (createTerminal pn cwd o w).1.
Proof.
  intros Hw t Ht. destruct (createTerminal pn cwd o w) as [w' [j|e]] eqn:E; simpl.
  - apply createTerminal_returns in E as (-> & _ & _ & _ & t' & -> & _).
    exists t. split; [|apply unchanged_refl]. rewrite lookup_insert_ne; [done|].
    intros <-. pose proof (ok_allocated w Hw _ (mk_is_Some _ _ Ht)). lia.
  - apply createTerminal_throws in E as (_ & _ & -> & _). exists t.
    split; [done|apply unchanged_refl].
Qed.

Lemma stays_closeTerminal b k k' w : stays b k w (closeTerminal k' w).1.
Proof.
  unfold closeTerminal. destruct (getTerminal k' w); simpl; [|by apply stays_same].
  eapply stays_trans; [|apply stays_same; reflexivity].
  eapply stays_trans; [|apply (stays_dispose b k k')]. by apply stays_same.
Qed.

Lemma stays_fold {A} b k (f : World → A → World) (l : list A) (w : World) :
  (∀ w a, world_ok w → world_ok (f w a)) →
  (∀ w a, world_ok w → stays b k w (f w a)) →
  world_ok w → stays b k w (fold_left f l w).
Proof.
  intros Hok Hf. revert w. induction l as [|a l IH]; intros w Hw; simpl.
  - apply stays_refl.
  - eapply stays_trans; [by apply Hf|]. by apply IH, Hok.
Qed.

Lemma stays_restore_entry b k d w : world_ok w → stays b k w (restore_entry d w).
Proof.
  intros Hw. unfold restore_entry. destruct (get_prop d "shellProfile") as [sp|e].
  - pose proof (stays_createTerminal b k sp (prop d "cwd")
                  (JObj [("cols", prop d "cols"); ("rows", prop d "rows")]) w Hw) as H.
    destruct (createTerminal _ _ _ w) as [w' [j|e]]; [done|]. simpl in H.
    eapply stays_trans; [exact H|by apply stays_same].
  - by apply stays_same.
Qed.

Lemma stays_step b k w e :
  world_ok w → (b = true → resizes k e = false) → stays b k w (step w e).
Proof.
  intros Hw Hb. destruct e; simpl.
  - by apply stays_createTerminal.
  - apply stays_closeTerminal.
  - apply stays_fold; [intros; by apply world_ok_closeTerminal| |done].
    intros. apply stays_closeTerminal.
  - unfold restoreTerminals.
    destruct (negb (truthy state)); [apply stays_refl|].
    destruct (negb (truthy (prop state "terminals"))); [apply stays_refl|].
    set (w1 := if truthy (prop state "config") then _ else w).
    assert (world_ok w1 ∧ stays b k w w1) as [H1 K1].
    { unfold w1. destruct (truthy _); [|split; [done|apply stays_refl]].
      split; [by apply (world_ok_same w)|by apply stays_same]. }
    clearbody w1. eapply stays_trans; [exact K1|].
    destruct (prop state "terminals"); try apply stays_refl. simpl.
    apply stays_fold; [intros; by apply world_ok_restore_entry| |done].
    intros. by apply stays_restore_entry.
  - by apply stays_same.
  - apply stays_fold; [intros; by apply world_ok_closeTerminal| |done].
    intros. apply stays_closeTerminal.
  - apply stays_write.
  - apply stays_resize. intros ->. specialize (Hb eq_refl). simpl in Hb.
    by apply bool_decide_eq_false in Hb.
  - apply stays_dispose.
  - apply stays_same. unfold pty_emits_data, onDataListener_cb.
    repeat case_match; try done. apply store_emit_data.
  - apply stays_pty_emits_exit.
  - apply stays_same. unfold pty_emits_error, errorHandler_cb.
    repeat case_match; try done. by rewrite store_emit_error.
  - destruct (tasks w !! n); [|apply stays_refl].
    eapply stays_trans; [|apply stays_run_task]. by apply stays_same.
Qed.

Lemma stays_run b k evs w :
  world_ok w → (b = true → Forall (λ e, resizes k e = false) evs) →
  stays b k w (run evs w).
Proof.
  revert w. induction evs as [|e evs IH]; intros w Hw Hb; [apply stays_refl|].
  rewrite run_cons. eapply stays_trans.
  - apply (stays_step b k w e Hw). intros ->. specialize (Hb eq_refl).
    by apply Forall_cons in Hb as [? _].
  - apply IH; [by apply world_ok_step|]. intros ->. specialize (Hb eq_refl).
    by apply Forall_cons in Hb as [_ ?].
Qed.

(** X22: what stays of an instance.  However a run continues, an instance
    keeps its id, its working directory, its shell profile and so its shell
    name (a cd sent by changeAllTerminalsDirectory does not update the
    working directory that getState saves); and as long as the run has no
    call of resize on that instance, it keeps its stored dimensions, and
    getState returns the same descriptor. *)
Theorem instance_identity_fixed evs evs' k t :
  let w := run evs new_TerminalService in
  store w !! k = Some t →
  ∃ t', store (run evs' w) !! k = Some t'
        ∧ _id t' = k
        ∧ _cwd t' = _cwd t
        ∧ _shellProfile t' = _shellProfile t
        ∧ shellName t' = shellName t
        ∧ (Forall (λ e, resizes k e = false) evs' →
           dimensions t' = dimensions t ∧ getState t' = getState t).
Proof.
  intros w Ht. pose proof (world_ok_reachable evs) as Hw. fold w in Hw.
  destruct (stays_run false k evs' w Hw ltac:(done) t Ht)
    as (t' & Ht' & Hi & Hc & Hp & _).
  exists t'. split_and!; try done.
  - rewrite Hi. by destruct (ok_instance w Hw k t Ht).
  - unfold shellName. by rewrite Hp.
  - intros Hr.
    destruct (stays_run true k evs' w Hw ltac:(done) t Ht)
      as (t2 & Ht2 & _ & _ & _ & Hdim).
    rewrite Ht' in Ht2. injection Ht2 as <-. specialize (Hdim eq_refl).
    split; [done|]. unfold getState. unfold dimensions in Hdim.
    injection Hdim as -> ->. by rewrite Hi, Hc, Hp.
Qed.

End Properties.

(** * Shell discovery *)

Section DiscoveryProperties.

Context (platform : string) (env_SystemRoot env_LOCALAPPDATA env_SHELL : option string)
  (existsSync : string → bool) (path_join : list string → string)
  (path_basename capitalize : string → string).

Local Abbreviation getDefaultShell :=
  (getDefaultShell platform env_SystemRoot env_SHELL existsSync path_join).
Local Abbreviation detectPowerShell7 :=
  (detectPowerShell7 env_LOCALAPPDATA existsSync path_join).
Local Abbreviation detectWindowsShells :=
  (detectWindowsShells env_SystemRoot env_LOCALAPPDATA existsSync path_join).
Local Abbreviation getAvailableShells :=
  (getAvailableShells platform env_SystemRoot env_LOCALAPPDATA env_SHELL existsSync
     path_join path_basename capitalize).
Local Abbreviation discovered :=
  (discovered platform env_SystemRoot env_LOCALAPPDATA env_SHELL existsSync
     path_join path_basename capitalize).
Local Abbreviation discovered_getShellByProfile :=
  (discovered_getShellByProfile platform env_SystemRoot env_LOCALAPPDATA env_SHELL
     existsSync path_join path_basename capitalize).
Local Abbreviation discovered_getDefaultShellProfile :=
  (discovered_getDefaultShellProfile platform env_SystemRoot env_LOCALAPPDATA
     env_SHELL existsSync path_join path_basename capitalize).

Lemma find_existsSync l p : List.find existsSync l = Some p → existsSync p = true.
Proof. by intros [_ H]%find_some. Qed.

Lemma alreadyAdded_elem shellEnv shells :
  alreadyAdded shellEnv shells = true ↔
  ∃ s, s ∈ shells ∧ shell (profile s) = shellEnv.
Proof.
  unfold alreadyAdded. rewrite existsb_exists. split.
  - intros (s & Hs%list_elem_of_In & H%bool_decide_eq_true). eauto.
  - intros (s & Hs%list_elem_of_In & H). exists s. by rewrite bool_decide_eq_true.
Qed.

(** X23: on every platform, each profile that getAvailableShells lists
    names an executable that exists on the host, and so does the path that
    detectPowerShell7 returns. *)
Theorem available_shells_exist :
  (∀ s, s ∈ getAvailableShells → existsSync (shell (profile s)) = true)
  ∧ (∀ p, detectPowerShell7 = Some p → existsSync p = true).
Proof.
  split; [|apply find_existsSync].
  intros s. unfold getAvailableShells, detectWindowsShells.
  destruct (List.find existsSync (gitBashPaths _ _)) as [g|] eqn:Eg;
    [apply find_existsSync in Eg|];
    (destruct detectPowerShell7 as [p7|] eqn:E7; [apply find_existsSync in E7|]).
  all: repeat case_match; try (rewrite andb_true_iff in *).
  all: set_unfold; intros Hs; destruct_or?; subst; simpl; try done.
  all: by destruct_and?.
Qed.

Lemma find_is_Some {A} (f : A → bool) (l : list A) x :
  x ∈ l → f x = true → is_Some (List.find f l).
Proof.
  intros Hx Hf. destruct (List.find f l) eqn:E; [done|].
  apply list_elem_of_In in Hx. rewrite (find_none f l E x Hx) in Hf. done.
Qed.

Lemma find_elem {A} (f : A → bool) (l : list A) x :
  List.find f l = Some x → x ∈ l ∧ f x = true.
Proof. intros [H ?]%find_some. by apply list_elem_of_In in H. Qed.

(** Where discovery lists anything, the default shell is listed when it
    exists. *)
Lemma default_shell_listed :
  existsSync (cfg_shell getDefaultShell) = true →
  getAvailableShells ≠ [] →
  ∃ s, s ∈ getAvailableShells ∧ shell (profile s) = cfg_shell getDefaultShell.
Proof.
  unfold getDefaultShell, getAvailableShells, detectWindowsShells.
  destruct (List.find existsSync (gitBashPaths _ _)) as [g|] eqn:Eg;
    (destruct detectPowerShell7 as [p7|] eqn:E7).
  all: repeat case_match; try (rewrite andb_true_iff in *); destruct_and?.
  all: simpl; intros He Hn; try done; try congruence.
  all: try by (eexists (shell_profile _ _ _); split; [|simpl; reflexivity];
               repeat first [apply list_elem_of_here|apply list_elem_of_further]).
  all: match goal with
       | H : negb (alreadyAdded _ _) = false |- _ =>
           apply negb_false_iff, alreadyAdded_elem in H; simpl in H; exact H
       end.
Qed.

(** X24: whatever the platform, when the executable of the default shell
    exists, the default profile is a profile of that executable: a terminal
    created without a profile name is labelled with the shell that it
    runs. *)
Theorem default_profile_runs_default_shell :
  existsSync (cfg_shell getDefaultShell) = true →
  shell discovered_getDefaultShellProfile = cfg_shell getDefaultShell.
Proof.
  intros He. unfold discovered_getDefaultShellProfile, getDefaultShellProfile.
  destruct (List.find (λ s, bool_decide (shell s = _)) discovered) as [m|] eqn:Em.
  { apply find_elem in Em as [_ Hm]. by apply bool_decide_eq_true in Hm. }
  destruct (decide (getAvailableShells = [])) as [Hnil|Hne].
  { unfold discovered. rewrite Hnil. done. }
  destruct (default_shell_listed He Hne) as (s & Hs & Heq).
  assert (is_Some (List.find (λ s, bool_decide (shell s = cfg_shell getDefaultShell))
                     discovered)) as [? Hsome].
  { apply (find_is_Some _ _ (profile s)).
    - unfold discovered. by apply list_elem_of_fmap_2.
    - by apply bool_decide_eq_true. }
  congruence.
Qed.

(** X25: on Linux without /bin/bash and without a usable $SHELL, but with
    /bin/zsh, the default shell is still /bin/bash while the default profile
    is Zsh: a terminal created without a profile name is labelled Zsh and
    spawns /bin/bash, which does not exist. *)
Theorem default_profile_differs_without_bash :
  platform = "linux" →
  (∀ s, env_SHELL = Some s → nonempty s && existsSync s = false) →
  existsSync "/bin/bash" = false →
  existsSync "/bin/zsh" = true →
  discovered_getDefaultShellProfile
    = {| name := "zsh"; displayName := "Zsh"; shell := "/bin/zsh"; args := [] |}
  ∧ cfg_shell getDefaultShell = "/bin/bash"
  ∧ existsSync (cfg_shell getDefaultShell) = false.
Proof.
  intros Hp Hsh Hbash Hzsh.
  assert (cfg_shell getDefaultShell = "/bin/bash") as Hd.
  { unfold getDefaultShell. rewrite Hp. simpl. destruct env_SHELL as [s|]; [|done].
    by rewrite (Hsh s eq_refl). }
  split_and!; [|done|by rewrite Hd].
  unfold discovered_getDefaultShellProfile, getDefaultShellProfile. rewrite Hd.
  unfold discovered, getAvailableShells. rewrite Hp. simpl. rewrite Hbash, Hzsh.
  destruct env_SHELL as [s|]; [rewrite (Hsh s eq_refl)|].
  all: by destruct (existsSync "/bin/sh").
Qed.

Lemma find_by_name l p :
  NoDup (name <$> l) → p ∈ l → List.find (name_is (JStr (name p))) l = Some p.
Proof.
  induction l as [|q l IH]; simpl; [by intros _ ?%elem_of_nil|].
  intros [Hq Hn]%NoDup_cons [->|Hp]%elem_of_cons.
  - by rewrite bool_decide_eq_true_2.
  - rewrite bool_decide_eq_false_2; [by apply IH|].
    intros E. apply Hq. rewrite E. by apply list_elem_of_fmap_2.
Qed.

(** X26: on Windows the profiles are listed in the order cmd, powershell,
    powershell-legacy, wsl, git-bash, each at most once, and isLatest marks
    the powershell profile and no other; on macOS the order is zsh, bash.
    On a platform other than Linux the names are distinct, so
    getShellByProfile with the name of a listed profile returns that
    profile. *)
Theorem profile_names_distinct p :
  platform ≠ "linux" →
  p ∈ discovered →
  discovered_getShellByProfile (JStr (name p)) = Some p
  ∧ NoDup (name <$> discovered)
  ∧ (platform = "win32" →
       sublist (name <$> discovered)
         ["cmd"; "powershell"; "powershell-legacy"; "wsl"; "git-bash"]
       ∧ ∀ s, s ∈ getAvailableShells →
              (isLatest s = true ↔ name (profile s) = "powershell"))
  ∧ (platform = "darwin" → sublist (name <$> discovered) ["zsh"; "bash"]).
Proof.
  intros Hl Hp.
  assert (platform = "win32" →
          sublist (name <$> discovered)
            ["cmd"; "powershell"; "powershell-legacy"; "wsl"; "git-bash"]) as Hw.
  { intros E. unfold discovered, getAvailableShells, detectWindowsShells.
    destruct (List.find existsSync (gitBashPaths _ _)) as [g|];
      (destruct detectPowerShell7 as [p7|]).
    all: rewrite E; simpl; repeat case_match; simpl; repeat constructor. }
  assert (platform = "darwin" → sublist (name <$> discovered) ["zsh"; "bash"]) as Hm.
  { intros E. unfold discovered, getAvailableShells. rewrite E. simpl.
    repeat case_match; simpl; repeat constructor. }
  assert (NoDup (name <$> discovered)) as Hn.
  { destruct (decide (platform = "win32")) as [E|E1].
    { eapply sublist_NoDup; [|exact (Hw E)].
      apply (bool_decide_unpack _). vm_compute. reflexivity. }
    destruct (decide (platform = "darwin")) as [E|E2].
    { eapply sublist_NoDup; [|exact (Hm E)].
      apply (bool_decide_unpack _). vm_compute. reflexivity. }
    unfold discovered, getAvailableShells.
    rewrite !bool_decide_eq_false_2 by done. apply NoDup_nil_2. }
  split_and!; [by apply find_by_name|done| |done].
  intros E. split; [by apply Hw|].
  intros s. unfold getAvailableShells, detectWindowsShells.
  destruct (List.find existsSync (gitBashPaths _ _)) as [g|];
    (destruct detectPowerShell7 as [p7|]).
  all: rewrite E; simpl; repeat case_match; simpl.
  all: set_unfold; intros Hs; destruct_or?; subst; simpl.
  all: try done.
Qed.


(** X28: when discovery finds nothing, and it finds nothing on a platform
    other than Windows, macOS and Linux, no profile name is known and the
    default profile is the placeholder named shell for the default shell,
    which is $SHELL, or /bin/bash, on those platforms. *)
Theorem no_profiles_fallback :
  getAvailableShells = [] →
  (∀ pn, discovered_getShellByProfile pn = None)
  ∧ discovered_getDefaultShellProfile
    = {| name := "shell"; displayName := "Shell";
         shell := cfg_shell getDefaultShell; args := [] |}
  ∧ (platform ≠ "win32" → platform ≠ "darwin" → platform ≠ "linux" →
     cfg_shell getDefaultShell = env_or env_SHELL "/bin/bash").
Proof.
  intros Hnil.
  unfold discovered_getShellByProfile, discovered_getDefaultShellProfile,
    getShellByProfile, getDefaultShellProfile, discovered.
  rewrite Hnil. split_and!; [done| |].
  - simpl. f_equal. unfold getDefaultShell. by repeat case_match.
  - intros. unfold getDefaultShell. by rewrite !bool_decide_eq_false_2 by done.
Qed.

Lemma unsupported_platform_lists_nothing :
  platform ≠ "win32" → platform ≠ "darwin" → platform ≠ "linux" →
  getAvailableShells = [].
Proof.
  intros. unfold getAvailableShells. by rewrite !bool_decide_eq_false_2 by done.
Qed.

End DiscoveryProperties.


(** * The properties on the example host *)

Import Host.

Lemma write_resize_disposed_noop_witness :
  ∃ t, store w_disposed !! 1%Z = Some t ∧ _isDisposed t = true
       ∧ write write_ok 1 "ls" w_disposed = (w_disposed, Return ())
       ∧ resize resize_ok 1 (JNum 120) (JNum 40) w_disposed = (w_disposed, Return ()).
Proof.
  eexists. split; [vm_compute; reflexivity|]. split; [reflexivity|].
  apply (write_resize_disposed_noop write_ok resize_ok 1 "ls" (JNum 120) (JNum 40)
           w_disposed _ ltac:(vm_compute; reflexivity) ltac:(reflexivity)).
Defined.

Lemma dispose_at_most_once_witness :
  (∃ t, store w_disposed !! 1%Z = Some t
        ∧ _isDisposed t = true
        ∧ sigterms t ≤ 1
        ∧ dispose kill_ok 1 w_disposed = w_disposed
        ∧ emitted (dispose kill_ok 1 w_disposed) = emitted w_disposed)
  ∧ (∃ t, store w_created !! 1%Z = Some t
          ∧ _isDisposed t = false
          ∧ sigterms t = 0).
Proof.
  split.
  - eexists. split; [vm_compute; reflexivity|]. split; [reflexivity|].
    destruct (dispose_at_most_once shells default_shell home home (JObj [])
                spawn_ok write_ok resize_ok kill_ok [create; Dispose 1] 1 _
                ltac:(vm_compute; reflexivity)) as (H1 & _ & H3 & H4).
    split; [exact H1|]. split; [|exact H4].
    exact (proj1 (H3 ltac:(reflexivity))).
  - eexists. split; [vm_compute; reflexivity|]. split; [reflexivity|].
    destruct (dispose_at_most_once shells default_shell home home (JObj [])
                spawn_ok write_ok resize_ok kill_ok [create] 1 _
                ltac:(vm_compute; reflexivity)) as (_ & H2 & _).
    exact (proj1 (H2 ltac:(reflexivity))).
Defined.

Lemma failed_spawn_consumes_id_witness :
  createTerminal_call shells default_shell home home (JObj [])
    JNull (JStr "/nonexistent") JUndefined
  = Some ("/bin/bash", [], pty_options (JNum 80) (JNum 30) "/nonexistent")
  ∧ spawn_checks_cwd (spawnCount w_created) "/bin/bash" []
      (pty_options (JNum 80) (JNum 30) "/nonexistent") = Some chdir_error
  ∧ spawn_checks_cwd (spawnCount w_created) "/bin/bash" []
      (pty_options (JNum 80) (JNum 30) "/home/u") = None
  ∧ (∃ w', createTerminal_with spawn_checks_cwd JNull (JStr "/nonexistent")
             JUndefined w_created = (w', Throw chdir_error)
           ∧ _terminals w' = [1%Z]
           ∧ (createTerminal_with spawn_checks_cwd JNull (JStr "/home/u")
                JUndefined w').2 = Return 3%Z
           ∧ (1 + 1 < 3)%Z)
  ∧ createTerminal_call shells default_shell home home (JObj [])
      JNull JNull JUndefined
    = Some ("/bin/bash", [], pty_options (JNum 80) (JNum 30) "/home/u")
  ∧ spawn_second_fails (spawnCount w_first) "/bin/bash" []
      (pty_options (JNum 80) (JNum 30) "/home/u") = Some spawn_error
  ∧ ∃ w', createTerminal_with spawn_second_fails JNull JNull JUndefined w_first
          = (w', Throw spawn_error)
          ∧ _terminals w' = [1%Z].
Proof.
  assert (createTerminal_call shells default_shell home home (JObj [])
            JNull (JStr "/nonexistent") JUndefined
          = Some ("/bin/bash", [], pty_options (JNum 80) (JNum 30) "/nonexistent"))
    as Hc1 by (vm_compute; reflexivity).
  assert (createTerminal_call shells default_shell home home (JObj [])
            JNull JNull JUndefined
          = Some ("/bin/bash", [], pty_options (JNum 80) (JNum 30) "/home/u"))
    as Hc2 by (vm_compute; reflexivity).
  split; [exact Hc1|]. split; [reflexivity|]. split; [reflexivity|].
  split; [|split; [exact Hc2|split; [reflexivity|]]].
  - destruct (failed_spawn_consumes_id shells default_shell home home (JObj [])
                spawn_checks_cwd write_ok resize_ok kill_ok
                JNull (JStr "/nonexistent") JUndefined w_created
                "/bin/bash" [] (pty_options (JNum 80) (JNum 30) "/nonexistent")
                chdir_error Hc1 ltac:(reflexivity))
      as (w' & E & Hr & _ & _ & Hgap).
    exists w'. split; [exact E|]. split; [by rewrite Hr|].
    assert ((createTerminal_with spawn_checks_cwd JNull (JStr "/home/u")
               JUndefined w').2 = Return 3%Z) as E3.
    { unfold createTerminal_with in E. apply (f_equal fst) in E. simpl in E.
      subst w'. vm_compute. reflexivity. }
    split; [exact E3|].
    destruct (createTerminal_with spawn_checks_cwd JNull (JStr "/home/u")
                JUndefined w') as [w2 r] eqn:E2.
    simpl in E3. subst r.
    exact (Hgap new_TerminalService JNull (JStr "/home/u") JUndefined w_created
             1%Z [] [] JNull (JStr "/home/u") JUndefined w2 3%Z
             ltac:(vm_compute; reflexivity) ltac:(reflexivity) E2).
  - destruct (failed_spawn_consumes_id shells default_shell home home (JObj [])
                spawn_second_fails write_ok resize_ok kill_ok
                JNull JNull JUndefined w_first
                "/bin/bash" [] (pty_options (JNum 80) (JNum 30) "/home/u")
                spawn_error Hc2 ltac:(reflexivity))
      as (w' & E & Hr & _).
    exists w'. split; [exact E|]. by rewrite Hr.
Defined.

Lemma closeTerminal_retires_witness :
  1%Z ∈ _terminals w_created
  ∧ (∃ w', closeTerminal kill_ok 1 w_created = (w', true)
           ∧ (1%Z ∉ _terminals w')
           ∧ getTerminal 1 w' = None
           ∧ count (is_data_of 1)
               (emitted (run_ok [PtyData 1 "late output"; RunTask 0] w')) = 0)
  ∧ (2%Z ∉ _terminals w_created)
  ∧ (closeTerminal kill_ok 2 w_created).2 = false.
Proof.
  assert (1%Z ∈ _terminals w_created) as H1 by (vm_compute; apply list_elem_of_here).
  assert (2%Z ∉ _terminals w_created) as H2.
  { vm_compute. intros H. apply list_elem_of_singleton in H. discriminate H. }
  split; [exact H1|].
  destruct (closeTerminal_retires shells default_shell home home (JObj [])
              spawn_ok write_ok resize_ok kill_ok [create] 1) as [Hreg _].
  destruct (closeTerminal_retires shells default_shell home home (JObj [])
              spawn_ok write_ok resize_ok kill_ok [create] 2) as [_ Hun].
  destruct (Hreg H1) as (w' & E & _ & _ & Hout & Hget & Hdata).
  split; [|split; [exact H2|exact (proj1 (Hun H2))]].
  exists w'. split; [exact E|]. split; [exact Hout|]. split; [exact Hget|].
  exact (proj1 (Hdata [PtyData 1 "late output"; RunTask 0])).
Defined.

Lemma terminal_exit_at_most_once_witness :
  (∃ t, 1%Z ∈ _terminals w_created ∧ store w_created !! 1%Z = Some t
        ∧ _isDisposed t = false
        ∧ emitted (run_ok [PtyExit 1 (JNum 0) JUndefined] w_created)
          = emitted w_created ++ [terminal_exit 1 (JNum 0) JUndefined])
  ∧ (∃ t, store w_disposed !! 1%Z = Some t ∧ _isDisposed t = true
          ∧ emitted (run_ok [PtyExit 1 (JNum 0) JUndefined] w_disposed)
            = emitted w_disposed)
  ∧ emitted (closeTerminal kill_ok 1 w_created).1
    = emitted w_created ++ [terminal_closed 1]
  ∧ count (is_exit_of 1)
      (emitted (run_ok [PtyExit 1 (JNum 0) JUndefined; RunTask 0]
                  (closeTerminal kill_ok 1 w_created).1)) = 0.
Proof.
  assert (1%Z ∈ _terminals w_created) as H1 by (vm_compute; apply list_elem_of_here).
  destruct (terminal_exit_at_most_once shells default_shell home home (JObj [])
              spawn_ok write_ok resize_ok kill_ok [create] 1)
    as (_ & Hnat & _ & Hclosed).
  destruct (terminal_exit_at_most_once shells default_shell home home (JObj [])
              spawn_ok write_ok resize_ok kill_ok [create; Dispose 1] 1)
    as (_ & _ & Hdisp & _).
  split; [|split; [|split]].
  - eexists. split; [exact H1|]. split; [vm_compute; reflexivity|].
    split; [reflexivity|].
    exact (proj1 (Hnat _ (JNum 0) JUndefined H1
                    ltac:(vm_compute; reflexivity) ltac:(reflexivity))).
  - eexists. split; [vm_compute; reflexivity|]. split; [reflexivity|].
    exact (Hdisp _ (JNum 0) JUndefined
             ltac:(vm_compute; reflexivity) ltac:(reflexivity)).
  - exact (proj1 (Hclosed H1)).
  - exact (proj2 (Hclosed H1) [PtyExit 1 (JNum 0) JUndefined; RunTask 0]).
Defined.

Lemma resize_stores_dimensions_witness :
  ∃ t p, store w_created !! 1%Z = Some t ∧ _isDisposed t = false ∧ _pty t = Some p
    ∧ ∃ t', store (resize resize_fails 1 (JNum 120) (JNum 40) w_created).1 !! 1%Z
            = Some t'
            ∧ dimensions t' = (JNum 120, JNum 40).
Proof.
  eexists _, _. split; [vm_compute; reflexivity|]. split; [reflexivity|].
  split; [reflexivity|].
  destruct (resize_stores_dimensions resize_fails 1 (JNum 120) (JNum 40) w_created
              _ _ ltac:(vm_compute; reflexivity) ltac:(reflexivity)
              ltac:(reflexivity)) as (t' & p' & Hs & Hd & _).
  exists t'. split; [exact Hs|exact Hd].
Defined.

Lemma restore_skips_throwing_entries_witness :
  world_ok new_TerminalService
  ∧ restore_call shells default_shell home home (JObj []) (descriptor "/nonexistent")
    = Some ("/bin/bash", [], pty_options (JNum 80) (JNum 30) "/nonexistent")
  ∧ spawn_checks_options 0 "/bin/bash" []
      (pty_options (JNum 80) (JNum 30) "/nonexistent") = Some chdir_error
  ∧ restores shells default_shell home home (JObj []) spawn_checks_options
      (descriptor "/nonexistent") new_TerminalService = false
  ∧ last (console (restore_entry shells default_shell home home (JObj [])
                     spawn_checks_options (descriptor "/nonexistent")
                     new_TerminalService))
    = Some (error_failed_to_restore chdir_error)
  ∧ restore_call shells default_shell home home (JObj []) wide
    = Some ("/bin/bash", [], pty_options (JStr "wide") (JNum 30) "/home/u")
  ∧ spawn_checks_options 0 "/bin/bash" []
      (pty_options (JStr "wide") (JNum 30) "/home/u") ≠ None
  ∧ restores shells default_shell home home (JObj []) spawn_checks_options
      wide new_TerminalService = false
  ∧ restores shells default_shell home home (JObj []) spawn_ok
      wide new_TerminalService = true
  ∧ restores shells default_shell home home (JObj []) spawn_checks_options
      (descriptor "/home/u") new_TerminalService = true
  ∧ _terminals (restore_entry shells default_shell home home (JObj [])
                  spawn_checks_options (descriptor "/home/u") new_TerminalService)
    = [1%Z]
  ∧ _terminals (restore_entry shells default_shell home home (JObj [])
                  spawn_checks_options (descriptor "/nonexistent")
                  new_TerminalService)
    = []
  ∧ length (_terminals (restoreTerminals_with spawn_checks_options (snapshot JNull)
                          new_TerminalService).1) = 4
  ∧ length (_terminals (restoreTerminals_with spawn_checks_options
                          (snapshot (descriptor "/nonexistent"))
                          new_TerminalService).1) = 4
  ∧ length (_terminals (restoreTerminals_with spawn_checks_options (snapshot wide)
                          new_TerminalService).1) = 4.
Proof.
  destruct (restore_skips_throwing_entries shells default_shell home home (JObj [])
              spawn_checks_options write_ok resize_ok kill_ok []
              (four ++ [JNull]) (JObj []))
    as (_ & Hlen1 & _ & Hyes & Hno & _ & Hcall).
  destruct (restore_skips_throwing_entries shells default_shell home home (JObj [])
              spawn_checks_options write_ok resize_ok kill_ok []
              (four ++ [descriptor "/nonexistent"]) (JObj []))
    as (_ & Hlen2 & _).
  destruct (restore_skips_throwing_entries shells default_shell home home (JObj [])
              spawn_checks_options write_ok resize_ok kill_ok []
              (four ++ [wide]) (JObj []))
    as (_ & Hlen3 & _).
  destruct (restore_skips_throwing_entries shells default_shell home home (JObj [])
              spawn_ok write_ok resize_ok kill_ok [] [] (JObj []))
    as (_ & _ & _ & _ & _ & _ & Hcall_ok).
  destruct (Hcall (descriptor "/nonexistent") ltac:(discriminate) ltac:(discriminate))
    as (sh1 & a1 & o1 & Ec1 & _ & Hthrow1 & _).
  vm_compute in Ec1. injection Ec1 as <- <- <-.
  destruct (Hcall wide ltac:(discriminate) ltac:(discriminate))
    as (sh2 & a2 & o2 & Ec2 & _ & Hthrow2 & _).
  vm_compute in Ec2. injection Ec2 as <- <- <-.
  destruct (Hcall (descriptor "/home/u") ltac:(discriminate) ltac:(discriminate))
    as (sh3 & a3 & o3 & Ec3 & Hiff3 & _).
  vm_compute in Ec3. injection Ec3 as <- <- <-.
  destruct (Hcall_ok wide ltac:(discriminate) ltac:(discriminate))
    as (sh4 & a4 & o4 & Ec4 & Hiff4 & _).
  vm_compute in Ec4. injection Ec4 as <- <- <-.
  pose proof (Hthrow1 new_TerminalService chdir_error ltac:(vm_compute; reflexivity))
    as [Hr1 Hl1].
  pose proof (Hthrow2 new_TerminalService
                {| code := None; message := "cols must be a number" |}
                ltac:(vm_compute; reflexivity)) as [Hr2 _].
  pose proof (proj2 (Hiff3 new_TerminalService) ltac:(vm_compute; reflexivity))
    as Hr3.
  pose proof (proj2 (Hiff4 new_TerminalService) ltac:(vm_compute; reflexivity))
    as Hr4.
  split; [apply world_ok_new|]. split; [vm_compute; reflexivity|].
  split; [vm_compute; reflexivity|]. split; [exact Hr1|]. split; [exact Hl1|].
  split; [vm_compute; reflexivity|]. split; [vm_compute; discriminate|].
  split; [exact Hr2|]. split; [exact Hr4|]. split; [exact Hr3|].
  split; [|split; [|split; [|split]]].
  - exact (proj1 (Hyes (descriptor "/home/u") new_TerminalService world_ok_new Hr3)).
  - exact (proj1 (Hno (descriptor "/nonexistent") new_TerminalService world_ok_new
                    Hr1)).
  - exact Hlen1.
  - exact Hlen2.
  - exact Hlen3.
Defined.

(** ** Where the code departs from the specification *)

(** C3, counterexample: terminal 1 is created, closed with closeTerminal,
    and its process then exits: the terminal is retired (it is not
    registered and its process has exited), and terminal-exit was not emitted
    once for it but never. *)
Lemma closed_terminal_emits_no_exit :
  1%Z ∈ created_ids (emitted w_timer_fired)
  ∧ getTerminal 1 w_timer_fired = None
  ∧ (exited <$> (store w_timer_fired !! 1%Z ≫= _pty)) = Some true
  ∧ count (is_exit_of 1) (emitted w_timer_fired) ≠ 1.
Proof.
  split; [vm_compute; apply list_elem_of_here|].
  split; [vm_compute; reflexivity|]. split; [vm_compute; reflexivity|].
  vm_compute. discriminate.
Qed.

(** C5, counterexample: the descriptor in the snapshot of a service with one
    terminal has the key id, with the id of the terminal, and its keys are
    not shellProfileName, cwd, cols, rows. *)
Lemma descriptor_includes_id :
  ∃ d, prop (getTerminalState w_created) "terminals" = JArr [d]
       ∧ prop d "id" = JNum 1
       ∧ "id" ∈ keys d
       ∧ keys d ≠ ["shellProfileName"; "cwd"; "cols"; "rows"].
Proof.
  eexists. split; [vm_compute; reflexivity|]. split; [reflexivity|].
  split; [apply list_elem_of_here|]. discriminate.
Qed.

(** C6, counterexample: the resize of the process of a terminal that is not
    disposed throws, the process keeps its 80x30, and the stored dimensions
    have changed from 80x30 to 120x40. *)
Lemma failed_resize_changes_dimensions :
  ∃ t p t' p',
    store w_created !! 1%Z = Some t ∧ _isDisposed t = false ∧ _pty t = Some p
    ∧ resize_fails p (JNum 120) (JNum 40) ≠ None
    ∧ store w_resize_failed !! 1%Z = Some t' ∧ _pty t' = Some p'
    ∧ size p' = size p
    ∧ dimensions t = (JNum 80, JNum 30)
    ∧ dimensions t' = (JNum 120, JNum 40)
    ∧ dimensions t' ≠ dimensions t.
Proof.
  eexists _, _, _, _. split; [vm_compute; reflexivity|].
  split; [reflexivity|]. split; [reflexivity|]. split; [discriminate|].
  split; [vm_compute; reflexivity|]. split; [reflexivity|].
  split; [reflexivity|]. split; [reflexivity|]. split; [reflexivity|].
  discriminate.
Qed.

(** C9, counterexample: a snapshot of four descriptors and a fifth entry that
    is no descriptor at all (the number 42) recreates five terminals, not
    four; the fifth has the defaults of createTerminal. *)
Lemma malformed_entry_is_restored :
  _terminals w_restored_number = [1; 2; 3; 4; 5]%Z
  ∧ length (_terminals w_restored_number) ≠ 4
  ∧ (_cwd <$> getTerminal 5 w_restored_number) = Some (JStr home)
  ∧ console w_restored_number = [].
Proof.
  split; [vm_compute; reflexivity|]. split; [vm_compute; discriminate|].
  split; vm_compute; reflexivity.
Qed.

Lemma tasks_emit_exit k c s w : tasks (emit_exit k c s w) = tasks w.
Proof.
  unfold emit_exit. destruct (store w !! k) as [t|]; [|done].
  generalize (on_exit (listeners t)). intros l. revert w.
  induction l as [|h l IH]; intros w; simpl; [done|].
  rewrite IH. unfold exitHandler. by case_match.
Qed.

(** C1, on the failing run: terminal 1 is closed (dispose sends SIGTERM and
    arms the timer), the process exits before the timer fires, and the timer
    is still pending; when it fires, SIGKILL is sent to the process that has
    exited.  No exit of a process ever removes a pending task.  (On another
    run, where sending SIGTERM throws and the process does not exit, SIGKILL
    is sent at once and again when the timer fires.) *)
Theorem escalation_timer_not_cancelled :
  (∀ k c s w, ∃ l, tasks (pty_emits_exit k c s w) = tasks w ++ l)
  ∧ (exited <$> (store w_closed_exited !! 1%Z ≫= _pty)) = Some true
  ∧ (killLog <$> (store w_closed_exited !! 1%Z ≫= _pty)) = Some [SIGTERM]
  ∧ tasks w_closed_exited = [killTimeout 1]
  ∧ (killLog <$> (store w_timer_fired !! 1%Z ≫= _pty)) = Some [SIGTERM; SIGKILL]
  ∧ (sigkills <$> (store w_timer_fired !! 1%Z)) = Some 1
  ∧ (sigkills <$> (store w_sigterm_failed !! 1%Z)) = Some 2.
Proof.
  split.
  - intros k c s w. unfold pty_emits_exit, onExitListener_cb.
    destruct (store w !! k) as [t|]; [|by exists []; rewrite app_nil_r].
    destruct (_pty t) as [p|]; [|by exists []; rewrite app_nil_r].
    destruct (exitListener p); [|by exists []; rewrite app_nil_r].
    simpl. rewrite lookup_insert_eq. simpl.
    destruct (_isDisposed t); [by exists []; rewrite app_nil_r|].
    exists [immediateDispose k]. simpl. by rewrite tasks_emit_exit.
  - repeat split; vm_compute; reflexivity.
Qed.

(** ** The further properties on the example host *)

Lemma other_instances_untouched_witness :
  target w_two (Write 1 "ls") = Some 1%Z
  ∧ 2%Z ≠ 1%Z
  ∧ store (run_ok [Write 1 "ls"] w_two) !! 2%Z = store w_two !! 2%Z.
Proof.
  split; [reflexivity|]. split; [done|].
  exact (other_instances_untouched shells default_shell home home (JObj [])
           spawn_ok write_ok resize_ok kill_ok w_two (Write 1 "ls") 1 2
           ltac:(reflexivity) ltac:(done)).
Defined.

Lemma only_creation_registers_witness :
  creating (CloseTerminal 1) = false
  ∧ _nextTerminalId (run_ok [CloseTerminal 1] w_two) = _nextTerminalId w_two
  ∧ (2%Z ∈ _terminals (run_ok [CloseTerminal 1] w_two) → 2%Z ∈ _terminals w_two).
Proof.
  split; [reflexivity|].
  exact (only_creation_registers shells default_shell home home (JObj [])
           spawn_ok write_ok resize_ok kill_ok w_two (CloseTerminal 1) 2
           ltac:(reflexivity)).
Defined.

Lemma createTerminal_registers_witness :
  createTerminal_with spawn_ok JNull (JStr "/tmp") sized w_created
  = (w_second, Return 2%Z)
  ∧ _terminals w_second = _terminals w_created ++ [2%Z]
  ∧ ∃ t, getTerminal 2 w_second = Some t
         ∧ dimensions t = (JNum 80, JNum 30)
         ∧ (size <$> _pty t) = Some (JNum 120, JNum 40).
Proof.
  assert (createTerminal_with spawn_ok JNull (JStr "/tmp") sized w_created
          = (w_second, Return 2%Z)) as E by (vm_compute; reflexivity).
  split; [exact E|].
  destruct (createTerminal_registers shells default_shell home home (JObj [])
              spawn_ok write_ok resize_ok kill_ok [create] JNull (JStr "/tmp") sized
              w_second 2 E)
    as (_ & _ & Hreg & _ & t & Hget & _ & _ & _ & Hdim & Hsize & _).
  split; [exact Hreg|]. exists t. split; [exact Hget|]. split; [exact Hdim|].
  exact Hsize.
Defined.

Lemma output_forwarded_in_order_witness :
  1%Z ∈ _terminals w_created
  ∧ ∃ t, store w_created !! 1%Z = Some t
         ∧ _isDisposed t = false
         ∧ emitted (run_ok (PtyData 1 <$> ["a"; "b"]) w_created)
           = emitted w_created ++ (terminal_data 1 <$> ["a"; "b"]).
Proof.
  assert (1%Z ∈ _terminals w_created) as H1 by (vm_compute; apply list_elem_of_here).
  split; [exact H1|]. eexists. split; [vm_compute; reflexivity|].
  split; [reflexivity|].
  exact (proj1 (output_forwarded_in_order shells default_shell home home (JObj [])
                  spawn_ok write_ok resize_ok kill_ok [create] 1 _ ["a"; "b"] H1
                  ltac:(vm_compute; reflexivity) ltac:(reflexivity))).
Defined.

Lemma writes_reach_process_in_order_witness :
  (∀ p d, write_ok p d = None)
  ∧ ∃ t p, store w_created !! 1%Z = Some t ∧ _isDisposed t = false
           ∧ _pty t = Some p
           ∧ ∃ t' p', store (run_ok (Write 1 <$> ["ls"; "pwd"]) w_created) !! 1%Z
                      = Some t'
                      ∧ _pty t' = Some p'
                      ∧ written p' = written p ++ ["ls"; "pwd"].
Proof.
  split; [reflexivity|]. eexists _, _. split; [vm_compute; reflexivity|].
  split; [reflexivity|]. split; [reflexivity|].
  destruct (writes_reach_process_in_order shells default_shell home home (JObj [])
              spawn_ok write_ok resize_ok kill_ok 1 ["ls"; "pwd"] w_created _ _
              ltac:(reflexivity) ltac:(vm_compute; reflexivity) ltac:(reflexivity)
              ltac:(reflexivity)) as (t' & p' & Hs & Hp & Hw & _).
  exists t', p'. split; [exact Hs|]. split; [exact Hp|exact Hw].
Defined.

Lemma write_failure_isolated_witness :
  1%Z ∈ _terminals w_created_epipe
  ∧ ∃ t p, store w_created_epipe !! 1%Z = Some t ∧ _isDisposed t = false
           ∧ _pty t = Some p ∧ write_epipe p "ls" = Some epipe
           ∧ (write write_epipe 1 "ls" w_created_epipe).2 = Return ()
           ∧ emitted (write write_epipe 1 "ls" w_created_epipe).1
             = emitted w_created_epipe ++ [terminal_error 1 epipe].
Proof.
  assert (1%Z ∈ _terminals w_created_epipe) as H1
    by (vm_compute; apply list_elem_of_here).
  split; [exact H1|]. eexists _, _. split; [vm_compute; reflexivity|].
  split; [reflexivity|]. split; [reflexivity|]. split; [reflexivity|].
  destruct (write_failure_isolated shells default_shell home home (JObj [])
              spawn_ok write_epipe resize_ok kill_ok [create] 1 _ _ "ls" epipe H1
              ltac:(vm_compute; reflexivity) ltac:(reflexivity) ltac:(reflexivity)
              ltac:(reflexivity)) as (Hr & He & _).
  split; [exact Hr|exact He].
Defined.

Lemma kill_protocol_witness :
  ∃ t, store w_disposed !! 1%Z = Some t
       ∧ _isDisposed t = true
       ∧ ∃ n, signals t = SIGTERM :: replicate n SIGKILL
              ∧ n + timers 1 (tasks w_disposed) = 1.
Proof.
  eexists. split; [vm_compute; reflexivity|]. split; [reflexivity|].
  destruct (kill_protocol shells default_shell home home (JObj [])
              spawn_ok write_ok resize_ok kill_ok [create; Dispose 1] 1 _
              ltac:(vm_compute; reflexivity)) as [_ H].
  destruct (H ltac:(reflexivity)) as (n & Hs & _ & H1).
  exists n. split; [exact Hs|]. exact (H1 (λ p, eq_refl)).
Defined.

Lemma disposed_is_released_witness :
  ∃ t, store w_disposed !! 1%Z = Some t
       ∧ _isDisposed t = true
       ∧ released t
       ∧ run_ok [PtyData 1 "late output"] w_disposed = w_disposed.
Proof.
  eexists. split; [vm_compute; reflexivity|]. split; [reflexivity|].
  destruct (disposed_is_released shells default_shell home home (JObj [])
              spawn_ok write_ok resize_ok kill_ok [create; Dispose 1] 1 _
              ltac:(vm_compute; reflexivity) ltac:(reflexivity)) as (Hr & Hd & _).
  split; [exact Hr|exact (Hd "late output")].
Defined.

Lemma natural_exit_then_dispose_witness :
  1%Z ∈ _terminals w_created
  ∧ ∃ t, store w_created !! 1%Z = Some t
         ∧ _isDisposed t = false
         ∧ getTerminal 1 (run_ok [PtyExit 1 (JNum 0) JUndefined] w_created) = None
         ∧ tasks (run_ok [PtyExit 1 (JNum 0) JUndefined] w_created)
           = tasks w_created ++ [immediateDispose 1].
Proof.
  assert (1%Z ∈ _terminals w_created) as H1 by (vm_compute; apply list_elem_of_here).
  split; [exact H1|]. eexists. split; [vm_compute; reflexivity|].
  split; [reflexivity|].
  destruct (natural_exit_then_dispose shells default_shell home home (JObj [])
              spawn_ok write_ok resize_ok kill_ok [create] 1 _ (JNum 0) JUndefined H1
              ltac:(vm_compute; reflexivity) ltac:(reflexivity)) as (Hg & Ht & _).
  split; [exact Hg|exact Ht].
Defined.

Lemma unknown_profile_falls_back_witness :
  truthy (JStr "fish") = true
  ∧ getShellByProfile shells (JStr "fish") = None
  ∧ JUndefined ≠ JNull
  ∧ warn_profile_not_found (JStr "fish")
    ∈ console (createTerminal_with spawn_ok (JStr "fish") JNull JUndefined
                 new_TerminalService).1.
Proof.
  split; [reflexivity|]. split; [reflexivity|]. split; [done|].
  destruct (unknown_profile_falls_back shells default_shell home home (JObj [])
              spawn_ok (JStr "fish") JNull JUndefined new_TerminalService
              ltac:(reflexivity) ltac:(reflexivity) ltac:(done)) as (_ & _ & H & _).
  exact H.
Defined.

Lemma default_profile_runs_default_shell_witness :
  exists_among linux_files (cfg_shell linux_default_shell) = true
  ∧ shell linux_default_profile = cfg_shell linux_default_shell.
Proof.
  split; [vm_compute; reflexivity|].
  exact (default_profile_runs_default_shell "linux" None None
           (Some "/usr/local/bin/bash") (exists_among linux_files) (join_with "/")
           base_name capitalize_first ltac:(vm_compute; reflexivity)).
Defined.

Lemma default_profile_differs_without_bash_witness :
  exists_among ["/bin/zsh"] "/bin/bash" = false
  ∧ exists_among ["/bin/zsh"] "/bin/zsh" = true
  ∧ zsh_default_profile
    = {| name := "zsh"; displayName := "Zsh"; shell := "/bin/zsh"; args := [] |}
  ∧ cfg_shell zsh_default_shell = "/bin/bash".
Proof.
  split; [vm_compute; reflexivity|]. split; [vm_compute; reflexivity|].
  destruct (default_profile_differs_without_bash "linux" None None None
              (exists_among ["/bin/zsh"]) (join_with "/") base_name capitalize_first
              ltac:(reflexivity) ltac:(intros s H; discriminate H)
              ltac:(vm_compute; reflexivity) ltac:(vm_compute; reflexivity))
    as (Hp & Hd & _).
  split; [exact Hp|exact Hd].
Defined.

Lemma profile_names_distinct_witness :
  "win32" ≠ "linux"
  ∧ powershell ∈ windows_shells
  ∧ windows_getShellByProfile (JStr "powershell") = Some powershell
  ∧ NoDup (name <$> windows_shells).
Proof.
  assert ("win32" ≠ "linux") as H1 by done.
  assert (powershell ∈ windows_shells) as H2.
  { vm_compute. apply list_elem_of_further, list_elem_of_here. }
  split; [exact H1|]. split; [exact H2|].
  destruct (profile_names_distinct "win32" (Some "C:\Windows") None None
              (exists_among windows_files) (join_with "\") base_name
              capitalize_first powershell H1 H2) as (Hf & Hn & _).
  split; [exact Hf|exact Hn].
Defined.


Lemma no_profiles_fallback_witness :
  bsd_shells = []
  ∧ bsd_default_profile
    = {| name := "shell"; displayName := "Shell"; shell := "/bin/tcsh"; args := [] |}.
Proof.
  split; [reflexivity|].
  destruct (no_profiles_fallback "freebsd" None None (Some "/bin/tcsh")
              (exists_among ["/bin/tcsh"]) (join_with "/") base_name capitalize_first
              ltac:(reflexivity)) as (_ & Hp & _).
  exact Hp.
Defined.

Lemma cd_command_reaches_each_terminal_witness :
  (∀ p d, write_ok p d = None)
  ∧ ∃ t p, 2%Z ∈ _terminals w_two_one_disposed
           ∧ store w_two_one_disposed !! 2%Z = Some t
           ∧ _isDisposed t = false
           ∧ _pty t = Some p
           ∧ ∃ t' p',
               store (changeAllTerminalsDirectory_ok "/tmp" w_two_one_disposed).1 !! 2%Z
               = Some t'
               ∧ _pty t' = Some p'
               ∧ written p' = written p ++ [cd_command_linux (shellName t) "/tmp"].
Proof.
  unfold w_two_one_disposed, changeAllTerminalsDirectory_ok, cd_command_linux,
    run_ok, run_with.
  split; [reflexivity|]. eexists _, _.
  assert (2%Z ∈ _terminals
            (run shells default_shell home home (JObj []) spawn_ok write_ok
               resize_ok kill_ok [create; create; Dispose 1] new_TerminalService))
    as H2.
  { vm_compute. apply list_elem_of_further, list_elem_of_here. }
  split; [exact H2|]. split; [vm_compute; reflexivity|].
  split; [reflexivity|]. split; [reflexivity|].
  destruct (cd_command_reaches_each_terminal shells default_shell home home (JObj [])
              spawn_ok write_ok resize_ok kill_ok "linux" lower_case
              [create; create; Dispose 1] "/tmp" ltac:(reflexivity))
    as (_ & _ & H & _).
  destruct (H 2%Z _ _ H2 ltac:(vm_compute; reflexivity) ltac:(reflexivity)
              ltac:(reflexivity)) as (t' & p' & Hs & Hp & Hw & _).
  exists t', p'. split; [exact Hs|]. split; [exact Hp|exact Hw].
Defined.

Lemma terminal_create_reply_witness :
  ∃ lines,
    handle_terminal_create_ok JNull JUndefined (JStr "/srv/notes") new_TerminalService
    = (w_in_notes,
       Return (JObj [("terminalId", JNum 1); ("shellName", JStr "Bash");
                     ("cols", JNum 80); ("rows", JNum 30)]),
       lines)
    ∧ _terminals w_in_notes = [1%Z]
    ∧ ∃ t, getTerminal 1 w_in_notes = Some t ∧ _cwd t = JStr "/srv/notes".
Proof.
  eexists. split; [vm_compute; reflexivity|].
  destruct (terminal_create_reply shells default_shell home home (JObj [])
              spawn_ok write_ok resize_ok kill_ok [] JNull JUndefined
              (JStr "/srv/notes") w_in_notes _ _ ltac:(vm_compute; reflexivity))
    as (Hreg & _ & t & Hget & _ & _ & Hcwd & _).
  split; [exact Hreg|]. exists t. split; [exact Hget|exact Hcwd].
Defined.

Lemma snapshot_round_trip_witness :
  (∀ n sh a opts, spawn_ok n sh a opts = None)
  ∧ (restoreTerminals_with spawn_ok (getTerminalState w_two) new_TerminalService).2
    = Return ()
  ∧ _terminals
      (restoreTerminals_with spawn_ok (getTerminalState w_two) new_TerminalService).1
    = [1%Z; 2%Z].
Proof.
  split; [reflexivity|].
  destruct (snapshot_round_trip shells default_shell home home (JObj [])
              spawn_ok write_ok resize_ok kill_ok [] w_two ltac:(reflexivity))
    as (Hr & _ & Hreg & _).
  split; [exact Hr|exact Hreg].
Defined.

Lemma instance_identity_fixed_witness :
  ∃ t, store w_created !! 1%Z = Some t
       ∧ ∃ t', store w_written_closed !! 1%Z = Some t'
               ∧ _isDisposed t' = true
               ∧ _cwd t' = _cwd t
               ∧ getState t' = getState t.
Proof.
  eexists. split; [vm_compute; reflexivity|].
  destruct (instance_identity_fixed shells default_shell home home (JObj [])
              spawn_ok write_ok resize_ok kill_ok [create]
              [Write 1 "ls"; CloseTerminal 1] 1 _ ltac:(vm_compute; reflexivity))
    as (t' & Hs & _ & Hc & _ & _ & Hd).
  exists t'. split; [exact Hs|]. split.
  - vm_compute in Hs. injection Hs as <-. reflexivity.
  - split; [exact Hc|]. apply Hd. repeat constructor.
Defined.

Lemma restoreTerminals_without_list_witness :
  (∀ items, prop state_without_list "terminals" ≠ JArr items)
  ∧ (∃ e, (restoreTerminals_with spawn_ok state_without_list new_TerminalService).2
          = Throw e)
  ∧ assoc "fontSize"
      (_config (restoreTerminals_with spawn_ok state_without_list
                  new_TerminalService).1)
    = Some (JNum 20)
  ∧ _terminals (restoreTerminals_with spawn_ok state_without_list
                  new_TerminalService).1 = [].
Proof.
  assert (∀ items, prop state_without_list "terminals" ≠ JArr items) as H
    by (intros items E; discriminate E).
  split; [exact H|].
  destruct (restoreTerminals_without_list shells default_shell home home (JObj [])
              spawn_ok state_without_list new_TerminalService H)
    as (_ & Hv & _ & _ & _ & Ht).
  destruct (Ht ltac:(reflexivity)) as (He & Hc).
  split; [exact He|]. split.
  - unfold restoreTerminals_with. rewrite Hc. reflexivity.
  - unfold restoreTerminals_with. apply (f_equal v_terminals) in Hv. exact Hv.
Defined.

Lemma updateConfig_merges_witness :
  is_Some (array_index "7")
  ∧ _config (updateConfig (JObj [("7", JBool true)]) new_TerminalService)
    = ("7", JBool true) :: _loadConfig
  ∧ _config (updateConfig (JObj [("bell", JBool true)]) new_TerminalService)
    = _loadConfig ++ [("bell", JBool true)]
  ∧ keys (JObj (_config (run_ok [UpdateConfig (JObj [("10", JNum 1)]);
                                 UpdateConfig (JObj [("bell", JBool true)]);
                                 UpdateConfig (JObj [("7", JNum 2)]);
                                 UpdateConfig (JObj [("fontSize", JNum 16)])]
                           new_TerminalService)))
    = ["7"; "10"; "defaultProfile"; "fontFamily"; "fontSize"; "cursorBlink";
       "scrollback"; "theme"; "bell"].
Proof.
  assert (is_Some (array_index "7")) as H7 by (by eexists).
  destruct (updateConfig_merges (JObj [("7", JBool true)]) new_TerminalService "7")
    as (_ & _ & _ & _ & Hone & _).
  destruct (Hone "7" (JBool true) eq_refl ltac:(reflexivity)) as [_ Hfirst].
  destruct (updateConfig_merges (JObj [("bell", JBool true)]) new_TerminalService
              "bell")
    as (_ & _ & _ & _ & Hone' & _).
  destruct (Hone' "bell" (JBool true) eq_refl ltac:(reflexivity)) as [Hlast _].
  split; [exact H7|]. split; [|split].
  - apply (Hfirst H7). repeat constructor.
  - apply Hlast. reflexivity.
  - vm_compute. reflexivity.
Defined.
